(** * Simple Notes: the note store, editor session, search filter and
      persistence adapter of [notes_app_frontend/src/App.js]

    The React component [App] is embedded as a state machine.  Its five
    [useState] cells form the record [State]; every event handler is a
    function from the state of the render it closes over to the state of
    the next render; the three [useEffect] hooks are run by [commit], which
    compares the dependency of each hook between two renders the way React
    does (with [Object.is], i.e. by object identity for arrays and objects).

    Modelling decisions, all of them about the platform and not about the
    repository's code:
    - in the state machine a JavaScript string is a [string]: a sequence
      of code units restricted to U+0000..U+00FF.  [trim] and [toLowerCase]
      are the restrictions of [String.prototype.trim] and
      [String.prototype.toLowerCase] to that range, where lower-casing goes
      code unit by code unit.  Beyond it it does not: the search filter is
      therefore modelled a second time, in [Utf16], over sequences of
      16-bit code units, with the lower-casing of the Unicode character
      database written out for U+0000..U+017F and U+0300..U+036F; what is
      proved about the search is proved there, and the filter of the state
      machine is its restriction ([filterNotes_is_restriction]);
    - the text held by [localStorage] is abstracted by what [JSON.parse]
      makes of it ([raw_text]); [JSON.stringify] and [JSON.parse] are the
      host's and are inverse to each other on JSON values;
    - a JSON number is represented by the text [String] renders it to;
    - the clock and the random generator are oracles of the [World].  The
      clock of the [World] is the sequence of the readings that the event
      handlers and the loader take ([Date.now()] in [generateId],
      [toISOString()] in [saveCurrent] and in the loader), and [ticks]
      counts those.  Each render reads the clock once more, for the year in
      the footer; that reading reaches no state, nothing is written from
      it, and it is neither modelled nor counted;
    - arrays and note objects carry the address they were allocated at, so
      that dependency comparison is comparison of addresses. *)

From Stdlib Require Import String Ascii List Bool Arith NArith ZArith Lia
  DecimalString.
From Stdlib Require DecimalPos DecimalN DecimalZ.
Import ListNotations.
Open Scope string_scope.
Open Scope list_scope.
Set Warnings "-register-all".

(* ================================================================== *)
(** ** JavaScript strings *)

Module JsString.

(** [WhiteSpace] and [LineTerminator] code points below U+0100:
    TAB, LF, VT, FF, CR, SPACE and NO-BREAK SPACE. *)
Definition isWhiteSpace (c : ascii) : bool :=
  let n := nat_of_ascii c in
  (((9 <=? n) && (n <=? 13)) || (n =? 32) || (n =? 160))%nat.

Fixpoint trimStart (s : string) : string :=
  match s with
  | EmptyString => EmptyString
  | String c r => if isWhiteSpace c then trimStart r else s
  end.

Fixpoint trimEnd (s : string) : string :=
  match s with
  | EmptyString => EmptyString
  | String c r =>
      match trimEnd r with
      | EmptyString => if isWhiteSpace c then EmptyString else String c EmptyString
      | r' => String c r'
      end
  end.

(** [s.trim()] *)
Definition trim (s : string) : string := trimEnd (trimStart s).

(** Lower-casing of one code unit: A..Z and the capital letters of the
    Latin-1 supplement (U+00C0..U+00DE without the multiplication sign
    U+00D7) move up by 32; everything else is fixed. *)
Definition lowerChar (c : ascii) : ascii :=
  let n := nat_of_ascii c in
  if (((65 <=? n) && (n <=? 90))
      || ((192 <=? n) && (n <=? 222) && negb (n =? 215)))%nat
  then ascii_of_nat (n + 32) else c.

(** [s.toLowerCase()] *)
Fixpoint toLowerCase (s : string) : string :=
  match s with
  | EmptyString => EmptyString
  | String c r => String (lowerChar c) (toLowerCase r)
  end.

(** [h.includes(q)] *)
Fixpoint includes (h q : string) : bool :=
  prefix q h ||
  match h with
  | EmptyString => false
  | String _ r => includes r q
  end.

(** Truthiness of a string: only the empty string is falsy. *)
Definition truthy (s : string) : bool := negb (s =? "").

(** [a || b] on strings. *)
Definition or_else (a b : string) : string := if truthy a then a else b.

(** [s.slice(k)] for [k >= 0]. *)
Fixpoint slice (k : nat) (s : string) : string :=
  match k, s with
  | O, _ => s
  | S _, EmptyString => EmptyString
  | S k', String _ r => slice k' r
  end.

(** Decimal rendering of an integer, as a template literal renders
    [Date.now()]: the digits, after a minus sign for a negative one. *)
Definition ofInteger (z : Z) : string := NilEmpty.string_of_int (Z.to_int z).

Definition newline : string := String (ascii_of_nat 10) EmptyString.

End JsString.
Import JsString.

(* ================================================================== *)
(** ** Notes, and note objects with their identity *)

Module Note.

Record t : Type := mk
  { id : string; title : string; body : string; updatedAt : string }.

End Note.

(** A note object on the heap: [ref] is its address. *)
Record NoteObj : Type := mkObj { ref : nat; val : Note.t }.

(** An array of note objects on the heap. *)
Record Arr : Type := mkArr { arr_ref : nat; elems : list NoteObj }.

Definition contents (a : Arr) : list Note.t := map val (elems a).

(* ================================================================== *)
(** ** JSON values and the [String] conversion *)

Inductive json : Type :=
| JNull
| JBool (b : bool)
| JNumber (repr : string)
| JString (s : string)
| JArray (l : list json)
| JObject (props : list (string * json)).

(** The property [k] among the properties of a parsed object. *)
Fixpoint lookup (k : string) (ps : list (string * json)) : option json :=
  match ps with
  | [] => None
  | (k', v) :: rest => if k' =? k then Some v else lookup k rest
  end.

(** [n.k] for one of the keys [id], [title], [body], [updatedAt], which
    neither [Object.prototype] nor [Array.prototype] defines: an own
    property of an object, [undefined] ([None]) otherwise. *)
Definition prop (k : string) (n : json) : option json :=
  match n with
  | JObject ps => lookup k ps
  | _ => None
  end.

(** [x ?? d] leaves [x] unless it is [undefined] or [null]. *)
Definition nullish (x : option json) : bool :=
  match x with
  | None | Some JNull => true
  | Some _ => false
  end.

(** [String(v)], [None] when the conversion throws a [TypeError].  An array
    is joined with commas, [null] elements giving the empty string; an
    object is ["[object Object]"] unless an own property [toString] hides
    [Object.prototype.toString], and then no callable conversion is left. *)
Fixpoint ToString (v : json) : option string :=
  match v with
  | JNull => Some "null"
  | JBool true => Some "true"
  | JBool false => Some "false"
  | JNumber r => Some r
  | JString s => Some s
  | JArray l =>
      (fix join (l : list json) : option string :=
         match l with
         | [] => Some ""
         | x :: rest =>
             let elem := match x with JNull => Some "" | _ => ToString x end in
             match elem, rest with
             | None, _ => None
             | Some e, [] => Some e
             | Some e, _ :: _ =>
                 match join rest with
                 | None => None
                 | Some r => Some (e ++ "," ++ r)%string
                 end
             end
         end) l
  | JObject ps =>
      match lookup "toString" ps with
      | Some _ => None
      | None => Some "[object Object]"
      end
  end.

(** [n && typeof n === "object"] *)
Definition isObjectLike (n : json) : bool :=
  match n with
  | JArray _ | JObject _ => true
  | _ => false
  end.

(* ================================================================== *)
(** ** The world: clock, random generator, heap allocator, local storage *)

(** One reading of the clock: [Date.now()], the milliseconds since the
    start of 1970, negative for an earlier instant, and the same instant
    rendered by [toISOString()]. *)
Record Instant : Type := mkInstant { epoch_ms : Z; iso8601 : string }.

(** The text stored under a key, seen through [JSON.parse]. *)
Inductive raw_text : Type :=
| EmptyText                 (* the empty string *)
| MalformedText             (* text that [JSON.parse] rejects *)
| JsonText (j : json).      (* text that [JSON.parse] reads as [j] *)

(** [window.localStorage], restricted to the key [STORAGE_KEY].  [accepts]
    says which values the medium takes; [setItem] throws on the others
    (quota exceeded, storage disabled). *)
Record Storage : Type := mkStorage
  { item : option raw_text; accepts : raw_text -> bool }.

Record World : Type := mkWorld
  { clock : nat -> Instant;       (* the k-th reading by a handler or the loader *)
    ticks : nat;                  (* such readings taken so far *)
    random : nat -> string;       (* k-th [Math.random().toString(16)] *)
    draws : nat;                  (* random numbers drawn so far *)
    next_ref : nat;               (* next free heap address *)
    localStorage : Storage;
    save_calls : list (list Note.t) (* arguments of [saveNotesToStorage], latest first *)
  }.

Definition readClock (w : World) : Instant * World :=
  (clock w (ticks w),
   mkWorld (clock w) (S (ticks w)) (random w) (draws w) (next_ref w)
           (localStorage w) (save_calls w)).

(** [new Date().toISOString()] *)
Definition nowISOString (w : World) : string * World :=
  let '(t, w1) := readClock w in (iso8601 t, w1).

(** [Date.now()] *)
Definition Date_now (w : World) : Z * World :=
  let '(t, w1) := readClock w in (epoch_ms t, w1).

(** [Math.random().toString(16)] *)
Definition Math_random_hex (w : World) : string * World :=
  (random w (draws w),
   mkWorld (clock w) (ticks w) (random w) (S (draws w)) (next_ref w)
           (localStorage w) (save_calls w)).

(** Allocation of an object or an array. *)
Definition alloc (w : World) : nat * World :=
  (next_ref w,
   mkWorld (clock w) (ticks w) (random w) (draws w) (S (next_ref w))
           (localStorage w) (save_calls w)).

Definition getItem (st : Storage) : option raw_text := item st.

(** [None]: [setItem] throws. *)
Definition setItem (v : raw_text) (st : Storage) : option Storage :=
  if accepts st v then Some (mkStorage (Some v) (accepts st)) else None.

(* ================================================================== *)
(** ** [generateId], [loadNotesFromStorage], [saveNotesToStorage] *)

Definition generateId (w : World) : string * World :=
  let '(ms, w1) := Date_now w in
  let '(r, w2) := Math_random_hex w1 in
  ((ofInteger ms ++ "_" ++ slice 2 r)%string, w2).

(** The callback of [.map] in [loadNotesFromStorage]: the four fields are
    evaluated in order; [None] when a [String] conversion throws. *)
Definition coerceNote (n : json) (w : World) : option NoteObj * World :=
  let '(id_arg, w1) :=
    if nullish (prop "id" n) then
      let '(g, w') := generateId w in (JString g, w')
    else (match prop "id" n with Some v => v | None => JNull end, w) in
  match ToString id_arg with
  | None => (None, w1)
  | Some i =>
      let title_arg :=
        if nullish (prop "title" n) then JString ""
        else match prop "title" n with Some v => v | None => JNull end in
      match ToString title_arg with
      | None => (None, w1)
      | Some t =>
          let body_arg :=
            if nullish (prop "body" n) then JString ""
            else match prop "body" n with Some v => v | None => JNull end in
          match ToString body_arg with
          | None => (None, w1)
          | Some b =>
              let '(u, w2) :=
                match prop "updatedAt" n with
                | Some (JString s) => (s, w1)
                | _ => nowISOString w1
                end in
              let '(r, w3) := alloc w2 in
              (Some (mkObj r (Note.mk i t b u)), w3)
          end
      end
  end.

(** [xs.map(coerceNote)], stopping at the first exception. *)
Fixpoint coerceAll (xs : list json) (w : World) : option (list NoteObj) * World :=
  match xs with
  | [] => (Some [], w)
  | x :: rest =>
      match coerceNote x w with
      | (None, w1) => (None, w1)
      | (Some o, w1) =>
          match coerceAll rest w1 with
          | (None, w2) => (None, w2)
          | (Some os, w2) => (Some (o :: os), w2)
          end
      end
  end.

(** The body of the [try] block: [None] when it throws, [Some] of the
    elements of the returned array otherwise. *)
Definition loadNotes_try (w : World) : option (list NoteObj) * World :=
  match getItem (localStorage w) with
  | None | Some EmptyText => (Some [], w)          (* if (!raw) return [] *)
  | Some MalformedText => (None, w)                (* JSON.parse throws *)
  | Some (JsonText parsed) =>
      match parsed with
      | JArray xs => coerceAll (filter isObjectLike xs) w
      | _ => (Some [], w)                          (* !Array.isArray(parsed) *)
      end
  end.

Definition loadNotesFromStorage (w : World) : Arr * World :=
  let '(res, w1) := loadNotes_try w in
  let '(r, w2) := alloc w1 in
  match res with
  | Some os => (mkArr r os, w2)
  | None => (mkArr r [], w2)                       (* catch { return [] } *)
  end.

(** What [JSON.stringify] makes of a note and of the array of notes. *)
Definition noteToJson (n : Note.t) : json :=
  JObject [("id", JString (Note.id n)); ("title", JString (Note.title n));
           ("body", JString (Note.body n));
           ("updatedAt", JString (Note.updatedAt n))].

Definition JSON_stringify (ns : list Note.t) : raw_text :=
  JsonText (JArray (map noteToJson ns)).

Definition saveNotesToStorage (ns : list Note.t) (w : World) : World :=
  let st' :=
    match setItem (JSON_stringify ns) (localStorage w) with
    | Some st => st
    | None => localStorage w                       (* catch { } *)
    end in
  mkWorld (clock w) (ticks w) (random w) (draws w) (next_ref w)
          st' (ns :: save_calls w).

(* ================================================================== *)
(** ** The component [App]: state, derived values, event handlers *)

(** The [useState] cells of [App].  [editingId] is [null] ([None]), the
    marker ["NEW"], or the id of the note being edited. *)
Record State : Type := mkState
  { notes : Arr;
    search : string;
    editingId : option string;
    title : string;
    body : string }.

(** [editingId === i] for a string [i]. *)
Definition editingId_is (s : State) (i : string) : bool :=
  match editingId s with
  | Some e => e =? i
  | None => false
  end.

(** [notes.find((n) => n.id === editingId) ?? null] *)
Definition editingNote (s : State) : option NoteObj :=
  find (fun n => editingId_is s (Note.id (val n))) (elems (notes s)).

(** The predicate of [notes.filter] in [filteredNotes], for the lower-cased
    query [q]. *)
Definition matches (q : string) (n : Note.t) : bool :=
  let haystack :=
    toLowerCase (Note.title n ++ newline ++ Note.body n)%string in
  includes haystack q.

(** [filteredNotes] as a function of the notes and the search text. *)
Definition filterNotes (ns : list NoteObj) (query : string) : list NoteObj :=
  let q := toLowerCase (trim query) in
  if negb (truthy q) then ns
  else filter (fun n => matches q (val n)) ns.

Definition filteredNotes (s : State) : list NoteObj :=
  filterNotes (elems (notes s)) (search s).

Definition startNew (s : State) : State :=
  mkState (notes s) (search s) (Some "NEW") "" "".

Definition startEdit (i : string) (s : State) : State :=
  mkState (notes s) (search s) (Some i) (title s) (body s).

Definition cancelEdit (s : State) : State :=
  mkState (notes s) (search s) None "" "".

Definition deleteNote (i : string) (s : State) (w : World) : State * World :=
  let '(r, w1) := alloc w in
  let kept := filter (fun n => negb (Note.id (val n) =? i)) (elems (notes s)) in
  let s1 := mkState (mkArr r kept) (search s) (editingId s) (title s) (body s) in
  if editingId_is s i then (cancelEdit s1, w1) else (s1, w1).

(** The object literal [{ ...n, title, body, updatedAt }] of the update
    branch. *)
Definition rewritten (n : Note.t) (trimmedTitle trimmedBody now : string) : Note.t :=
  Note.mk (Note.id n) (or_else trimmedTitle "Untitled") trimmedBody now.

(** [prev.map((n) => n.id === editingId ? { ... } : n)]: a matching element
    is replaced by a new object, the others are kept as they are. *)
Fixpoint mapUpdate (e trimmedTitle trimmedBody now : string)
         (ns : list NoteObj) (w : World) : list NoteObj * World :=
  match ns with
  | [] => ([], w)
  | n :: rest =>
      if Note.id (val n) =? e then
        let '(r, w1) := alloc w in
        let '(rest', w2) := mapUpdate e trimmedTitle trimmedBody now rest w1 in
        (mkObj r (rewritten (val n) trimmedTitle trimmedBody now) :: rest', w2)
      else
        let '(rest', w2) := mapUpdate e trimmedTitle trimmedBody now rest w in
        (n :: rest', w2)
  end.

Definition saveCurrent (s : State) (w : World) : State * World :=
  let trimmedTitle := trim (title s) in
  let trimmedBody := trim (body s) in
  if negb (truthy trimmedTitle) && negb (truthy trimmedBody) then (s, w)
  else
    let '(now, w1) := nowISOString w in
    if editingId_is s "NEW" then
      let '(newId, w2) := generateId w1 in
      let '(r, w3) := alloc w2 in
      let newNote :=
        mkObj r (Note.mk newId (or_else trimmedTitle "Untitled") trimmedBody now) in
      let '(ra, w4) := alloc w3 in
      (mkState (mkArr ra (newNote :: elems (notes s))) (search s) None "" "", w4)
    else
      match editingId s with
      | Some e =>
          if truthy e then
            let '(ns, w2) :=
              mapUpdate e trimmedTitle trimmedBody now (elems (notes s)) w1 in
            let '(ra, w3) := alloc w2 in
            (mkState (mkArr ra ns) (search s) None "" "", w3)
          else (s, w1)
      | None => (s, w1)
      end.

Definition setTitle (v : string) (s : State) : State :=
  mkState (notes s) (search s) (editingId s) v (body s).

Definition setBody (v : string) (s : State) : State :=
  mkState (notes s) (search s) (editingId s) (title s) v.

Definition setSearch (v : string) (s : State) : State :=
  mkState (notes s) v (editingId s) (title s) (body s).

(* ================================================================== *)
(** ** Rendering: the effects, mounting, and steps of the user interface *)

(** [Object.is] on two values of [editingNote]. *)
Definition sameObject (a b : option NoteObj) : bool :=
  match a, b with
  | None, None => true
  | Some x, Some y => (ref x =? ref y)%nat
  | _, _ => false
  end.

(** The effects that run after the render of [next] has replaced the render
    of [prev]:
    - [useEffect(() => saveNotesToStorage(notes), [notes])] runs when the
      array is another one;
    - the editor sync effect, with dependency [editingNote], copies the
      fields of the note into the drafts when it runs on a note;
    - the focus effect touches no state.
    The render caused by the drafts set in the second effect changes no
    dependency, so no effect runs after it. *)
Definition commit (prev next : State) (w : World) : State * World :=
  let w1 :=
    if (arr_ref (notes prev) =? arr_ref (notes next))%nat then w
    else saveNotesToStorage (contents (notes next)) w in
  let next1 :=
    if sameObject (editingNote prev) (editingNote next) then next
    else
      match editingNote next with
      | None => next
      | Some n =>
          mkState (notes next) (search next) (editingId next)
                  (Note.title (val n)) (Note.body (val n))
      end in
  (next1, w1).

(** The first render and its effects: the notes are loaded by the state
    initialiser, every effect runs once, and the sync effect returns at once
    because nothing is being edited. *)
Definition mount (w : World) : State * World :=
  let '(ns, w1) := loadNotesFromStorage w in
  let s0 := mkState ns "" None "" "" in
  (s0, saveNotesToStorage (contents ns) w1).

Inductive event : Type :=
| StartNew
| StartEdit (i : string)
| CancelEdit
| DeleteNote (i : string)
| SaveCurrent
| SetTitle (v : string)
| SetBody (v : string)
| SetSearch (v : string).

(** The handler of an event, run on the state of the current render. *)
Definition handle (e : event) (s : State) (w : World) : State * World :=
  match e with
  | StartNew => (startNew s, w)
  | StartEdit i => (startEdit i s, w)
  | CancelEdit => (cancelEdit s, w)
  | DeleteNote i => deleteNote i s w
  | SaveCurrent => saveCurrent s w
  | SetTitle v => (setTitle v s, w)
  | SetBody v => (setBody v s, w)
  | SetSearch v => (setSearch v s, w)
  end.

(** One event: the handler, then the render and its effects.  The year
    that the render shows in the footer is not part of the model. *)
Definition step (e : event) (sw : State * World) : State * World :=
  let '(s, w) := sw in
  let '(s1, w1) := handle e s w in
  commit s s1 w1.

Fixpoint run (es : list event) (sw : State * World) : State * World :=
  match es with
  | [] => sw
  | e :: rest => run rest (step e sw)
  end.

(** [isEditing] *)
Definition isEditing (s : State) : bool :=
  match editingId s with
  | Some _ => true
  | None => false
  end.

(** The events the rendered page offers: [Add note] and the search box are
    always there; [Edit] and [Delete] exist for the notes of the filtered
    list; the form (fields, submit, [Cancel]) exists while editing. *)
Definition offered (s : State) (e : event) : bool :=
  match e with
  | StartNew | SetSearch _ => true
  | StartEdit i | DeleteNote i =>
      existsb (fun n => Note.id (val n) =? i) (filteredNotes s)
  | CancelEdit | SaveCurrent | SetTitle _ | SetBody _ => isEditing s
  end.

(** Runs of the user interface: every event is one the page offers. *)
Inductive ui_run : State * World -> list event -> State * World -> Prop :=
| ui_done : forall sw, ui_run sw [] sw
| ui_next : forall s w e es sw',
    offered s e = true ->
    ui_run (step e (s, w)) es sw' ->
    ui_run (s, w) (e :: es) sw'.

(** The states the page can be in, started on the world [w0]. *)
Definition reachable (w0 : World) (sw : State * World) : Prop :=
  exists es, ui_run (mount w0) es sw.

(* ================================================================== *)
(** ** Vocabulary of the specification *)

(** Both fields empty after trimming. *)
Definition blank (n : Note.t) : bool :=
  negb (truthy (trim (Note.title n))) && negb (truthy (trim (Note.body n))).

Definition ids (s : State) : list string :=
  map (fun n => Note.id (val n)) (elems (notes s)).

(** The editor session of the specification. *)
Inductive Mode : Type :=
| Idle
| Creating
| Editing (noteId : string).

Definition mode (s : State) : Mode :=
  match editingId s with
  | None => Idle
  | Some e => if e =? "NEW" then Creating else Editing e
  end.

(** The session: the editing marker and the two drafts. *)
Definition session (s : State) : option string * string * string :=
  (editingId s, title s, body s).

(* ================================================================== *)
(** ** Concrete worlds and states, used to run the model *)

Module Sample.

Definition at_tick (k : nat) : Instant :=
  match k with
  | O => mkInstant 1768364340000 "2026-01-14T04:19:00.000Z"
  | S O => mkInstant 1768364340001 "2026-01-14T04:19:00.001Z"
  | S (S _) => mkInstant 1768364340002 "2026-01-14T04:19:00.002Z"
  end.

Definition hex (k : nat) : string :=
  match k with
  | O => "0.8c3fa1d2"
  | _ => "0.51e07b"
  end.

(** A world whose storage holds [held] and takes a value iff [ok]. *)
Definition world (held : option raw_text) (ok : bool) : World :=
  mkWorld at_tick 0 hex 0 0 (mkStorage held (fun _ => ok)) [].

Definition groceries : Note.t :=
  Note.mk "a" "Groceries" "Milk, eggs" "2026-01-13T10:00:00.000Z".

Definition chores : Note.t :=
  Note.mk "b" "Chores" "Laundry" "2026-01-12T09:30:00.000Z".

Definition stored (ns : list Note.t) : option raw_text :=
  Some (JSON_stringify ns).

(** The page just after it was opened on two stored notes. *)
Definition opened : State * World :=
  mount (world (stored [groceries; chores]) true).

(** A stored note whose id is the text that [generateId] makes from the
    second reading of the clock [at_tick] and the first draw of [hex]. *)
Definition twin : Note.t :=
  Note.mk "1768364340001_8c3fa1d2" "Tea" "Green" "2026-01-11T08:00:00.000Z".

(** Stored text [[{ id: a }]]: an element with neither title nor body. *)
Definition only_an_id : option raw_text :=
  Some (JsonText (JArray [JObject [("id", JString "a")]])).

(** A stored note whose id is the empty string. *)
Definition empty_id : Note.t :=
  Note.mk "" "Groceries" "Milk, eggs" "2026-01-13T10:00:00.000Z".

(** A stored note whose id is the marker of the creating mode. *)
Definition named_NEW : Note.t :=
  Note.mk "NEW" "Groceries" "Milk, eggs" "2026-01-13T10:00:00.000Z".

End Sample.

(* ================================================================== *)
(** ** Auxiliary definitions, and the claims of the specification as
       they are worded *)

(** The world after the effects: the storage effect is the only one that
    touches it. *)
Definition after_effects (prev next : State) (w : World) : World :=
  if (arr_ref (notes prev) =? arr_ref (notes next))%nat then w
  else saveNotesToStorage (contents (notes next)) w.

(** The claim C5 as the specification words it: started on an id that is
    not in the collection, the session is idle afterwards. *)
Definition startEdit_falls_back : Prop :=
  forall (s : State) (w : World) (i : string),
    ~ In i (ids s) ->
    mode (fst (step (StartEdit i) (s, w))) = Idle.

(** The state that [deleteNote] sets when the deleted id is not the target
    of the editor. *)
Definition without (i : string) (r : nat) (s : State) : State :=
  mkState (mkArr r (filter (fun n => negb (Note.id (val n) =? i)) (elems (notes s))))
          (search s) (editingId s) (title s) (body s).

(** The claim C10 as it is worded: in the creating mode, and in an editing
    mode on another id, deleting leaves the session as it was. *)
Definition delete_keeps_other_session : Prop :=
  forall (s : State) (w : World) (x : string),
    (mode s = Creating \/ exists y, mode s = Editing y /\ y <> x) ->
    session (fst (step (DeleteNote x) (s, w))) = session s.

(** Events that neither open the editor on a target nor delete. *)
Definition keeps_target (e : event) : bool :=
  match e with
  | StartNew | StartEdit _ | DeleteNote _ => false
  | CancelEdit | SaveCurrent | SetTitle _ | SetBody _ | SetSearch _ => true
  end.

(** The target of the editor, when it is an id, is the id of a note. *)
Definition target_present (s : State) : Prop :=
  forall i, mode s = Editing i -> In i (ids s).

(** Two worlds that differ at most in the allocator, which only grows. *)
Definition allocated_more (w w' : World) : Prop :=
  clock w' = clock w /\ ticks w' = ticks w /\ random w' = random w
  /\ draws w' = draws w /\ localStorage w' = localStorage w
  /\ save_calls w' = save_calls w /\ next_ref w <= next_ref w'.

(** What [map] computes on the values of the notes. *)
Definition rewriteAll (e tt tb now : string) (ns : list Note.t) : list Note.t :=
  map (fun m => if Note.id m =? e then rewritten m tt tb now else m) ns.

(** The claim C4 as it is worded, for the id: in every state that the page
    reaches, a save in the creating mode with a draft left after trimming
    puts in front a note whose id no note of the collection has. *)
Definition created_id_is_fresh : Prop :=
  forall (w0 : World) (s : State) (w : World),
    reachable w0 (s, w) ->
    mode s = Creating ->
    trim (title s) <> "" \/ trim (body s) <> "" ->
    exists newNote : NoteObj,
      elems (notes (fst (step SaveCurrent (s, w)))) = newNote :: elems (notes s)
      /\ ~ In (Note.id (val newNote)) (ids s).

(** The claim C2 as it is worded: a save from an editing session whose id
    no note has ends in the idle mode and leaves the collection as it
    was. *)
Definition update_of_missing_id_returns_to_idle : Prop :=
  forall (s : State) (w : World) (i : string),
    mode s = Editing i ->
    ~ In i (ids s) ->
    trim (title s) <> "" \/ trim (body s) <> "" ->
    mode (fst (step SaveCurrent (s, w))) = Idle
    /\ contents (notes (fst (step SaveCurrent (s, w)))) = contents (notes s).

(** The claim C9 as it is worded: whenever a note has the id under edit and
    the trimmed drafts are the title and the body of that note, a save hands
    the collection to [saveNotesToStorage]. *)
Definition unchanged_edit_is_always_written : Prop :=
  forall (s : State) (w : World) (i : string) (n : NoteObj),
    mode s = Editing i ->
    In n (elems (notes s)) ->
    Note.id (val n) = i ->
    trim (title s) = Note.title (val n) ->
    trim (body s) = Note.body (val n) ->
    save_calls (snd (step SaveCurrent (s, w))) <> save_calls w.

(** The record of the calls of [saveNotesToStorage] is not read by the
    program: loading commutes with replacing it. *)
Definition with_calls (calls : list (list Note.t)) (w : World) : World :=
  mkWorld (clock w) (ticks w) (random w) (draws w) (next_ref w)
          (localStorage w) calls.

(** The claim C8 as it is worded: whatever the storage, loading after
    saving gives the saved notes. *)
Definition save_then_load_is_identity : Prop :=
  forall (ns : list Note.t) (w : World),
    contents (fst (loadNotesFromStorage (saveNotesToStorage ns w))) = ns.

(** A string that does not start with white space. *)
Definition headOk (x : string) : Prop :=
  match x with
  | EmptyString => True
  | String c _ => isWhiteSpace c = false
  end.

(** The notes of the state and of every recorded save are filled in, or
    come from the set [L]. *)
Definition filled_or_from (L : list Note.t) (sw : State * World) : Prop :=
  (forall n, In n (contents (notes (fst sw))) -> blank n = false \/ In n L)
  /\ (forall ns n, In ns (save_calls (snd sw)) -> In n ns ->
                   blank n = false \/ In n L).

(** The claim C1 as it is worded: no note that is handed to
    [saveNotesToStorage] is blank. *)
Definition blank_note_never_saved : Prop :=
  forall (w0 : World) (es : list event) (ns : list Note.t) (n : Note.t),
    save_calls w0 = [] ->
    In ns (save_calls (snd (run es (mount w0)))) ->
    In n ns ->
    blank n = false.

(* ================================================================== *)
(** ** Definitions for the further properties of the code *)

(** A decimal digit. *)
Definition isDigit (c : ascii) : bool :=
  let n := nat_of_ascii c in ((48 <=? n) && (n <=? 57))%nat.

Fixpoint allDigits (s : string) : bool :=
  match s with
  | EmptyString => true
  | String c r => isDigit c && allDigits r
  end.

(** The text holds no underscore. *)
Fixpoint noUnderscore (s : string) : bool :=
  match s with
  | EmptyString => true
  | String c r => negb (Ascii.eqb c "_") && noUnderscore r
  end.

(** [String(x.k)] throws for the property [k] of the element [x]. *)
Definition throwsOn (k : string) (x : json) : bool :=
  match prop k x with
  | Some v => match ToString v with None => true | Some _ => false end
  | None => false
  end.

(** One of the three [String] conversions of the [map] callback throws. *)
Definition conversionThrows (x : json) : bool :=
  throwsOn "id" x || throwsOn "title" x || throwsOn "body" x.

(** [String(x.k ?? "")] when it does not throw. *)
Definition textOr (k : string) (x : json) : option string :=
  match prop k x with
  | None | Some JNull => Some ""
  | Some v => ToString v
  end.

(** An identifier of the shape that [generateId] gives. *)
Definition generated (i : string) : Prop :=
  exists (ms : Z) (r : string),
    i = (ofInteger ms ++ String "_" (slice 2 r))%string.

(** The note [n] is what the stored element [x] is read as: the title and
    the body are the texts of the properties, empty when they are missing
    or [null]; the id is the text of the property, or a generated one when
    it is missing or [null]; [updatedAt] is the property when that is a
    string. *)
Definition readAs (x : json) (n : Note.t) : Prop :=
  textOr "title" x = Some (Note.title n)
  /\ textOr "body" x = Some (Note.body n)
  /\ (if nullish (prop "id" x) then generated (Note.id n)
      else textOr "id" x = Some (Note.id n))
  /\ (forall s, prop "updatedAt" x = Some (JString s) -> Note.updatedAt n = s).

(** A stored array with a note and an element whose title is an object
    with an own property [toString]. *)
Definition sample_bad_title : list json :=
  [noteToJson Sample.groceries;
   JObject [("id", JString "b");
            ("title", JObject [("toString", JNumber "1")])]].

(** A stored array with elements of several kinds. *)
Definition sample_mixed : list json :=
  [JObject [("id", JString "a"); ("title", JString "X")];
   JNumber "3";
   JNull;
   JArray [];
   JObject [("title", JNumber "42");
            ("body", JArray [JNumber "1"; JNull; JString "x"]);
            ("updatedAt", JString "2026-01-13T10:00:00.000Z")]].

(** The world with another storage. *)
Definition with_storage (st : Storage) (w : World) : World :=
  mkWorld (clock w) (ticks w) (random w) (draws w) (next_ref w)
          st (save_calls w).

(** A storage that takes every value, and one that takes none. *)
Definition accepts_all (st : Storage) : Prop := forall v, accepts st v = true.

Definition rejects_all (st : Storage) : Prop := forall v, accepts st v = false.

(** The stored text is the serialisation of the notes of the state. *)
Definition in_sync (s : State) (w : World) : Prop :=
  item (localStorage w) = Some (JSON_stringify (contents (notes s))).

(** The events whose handlers set neither the notes nor anything outside
    the component. *)
Definition quiet (e : event) : bool :=
  match e with
  | StartNew | StartEdit _ | CancelEdit | SetTitle _ | SetBody _
  | SetSearch _ => true
  | DeleteNote _ | SaveCurrent => false
  end.

(** The note objects of the state have addresses of their own, all below
    the next free address. *)
Definition heap_ok (s : State) (w : World) : Prop :=
  NoDup (map ref (elems (notes s)))
  /\ Forall (fun o => ref o < next_ref w) (elems (notes s)).

(** [notes.find((n) => n.id === i)] *)
Definition findNote (i : string) (s : State) : option NoteObj :=
  find (fun o => Note.id (val o) =? i) (elems (notes s)).

(** When the editor is closed, both drafts are empty. *)
Definition idle_drafts_empty (s : State) : Prop :=
  editingId s = None -> title s = "" /\ body s = "".

(** Every event of the list is offered by the page when its turn comes. *)
Fixpoint offered_along (es : list event) (sw : State * World) : bool :=
  match es with
  | [] => true
  | e :: rest => offered (fst sw) e && offered_along rest (step e sw)
  end.

(* ================================================================== *)
(** ** The search filter over UTF-16 code units *)

Module Utf16.

(** A JavaScript string as the engine holds it: a sequence of 16-bit code
    units. *)
Definition ustring : Type := list N.

(** The code units whose lower-casing is written out in [lowerUnit]: Basic
    Latin, the Latin-1 Supplement and Latin Extended-A (U+0000..U+017F),
    and the Combining Diacritical Marks (U+0300..U+036F), where the
    lower-casing of U+0130 ends.  No surrogate and no sigma is among them,
    so that [toLowerCase] works on each of them by itself. *)
Definition modelled (u : N) : bool :=
  ((u <=? 0x17F) || ((0x300 <=? u) && (u <=? 0x36F)))%N.

(** [WhiteSpace] and [LineTerminator] of ECMAScript: TAB, LF, VT, FF, CR,
    SPACE, NO-BREAK SPACE, the other space separators, LINE SEPARATOR,
    PARAGRAPH SEPARATOR and the byte order mark. *)
Definition isWhiteSpace (u : N) : bool :=
  (((9 <=? u) && (u <=? 13)) || (u =? 32) || (u =? 0xA0) || (u =? 0x1680)
   || ((0x2000 <=? u) && (u <=? 0x200A)) || (u =? 0x2028) || (u =? 0x2029)
   || (u =? 0x202F) || (u =? 0x205F) || (u =? 0x3000) || (u =? 0xFEFF))%N.

Fixpoint trimStart (s : ustring) : ustring :=
  match s with
  | [] => []
  | u :: r => if isWhiteSpace u then trimStart r else s
  end.

Fixpoint trimEnd (s : ustring) : ustring :=
  match s with
  | [] => []
  | u :: r =>
      match trimEnd r with
      | [] => if isWhiteSpace u then [] else [u]
      | r' => u :: r'
      end
  end.

(** [s.trim()] *)
Definition trim (s : ustring) : ustring := trimEnd (trimStart s).

(** Lower-casing of one code unit of the range [modelled], by the Unicode
    character database and its special casing: A..Z and the capital
    letters of the Latin-1 Supplement move up by 32; in Latin Extended-A
    the capital letters stand before their small letters, at the even
    places up to U+0137 and from U+014A to U+0177, at the odd places from
    U+0139 to U+0148 and from U+0179 to U+017E; U+0178 goes to U+00FF; and
    U+0130, the capital I with a dot above, becomes two code units, a small
    i and the combining dot above U+0307.  Every other code unit of the
    range is fixed.  Outside the range the function is the identity and
    stands for nothing. *)
Definition lowerUnit (u : N) : ustring :=
  (if (65 <=? u) && (u <=? 90) then [u + 32]
   else if (192 <=? u) && (u <=? 222) && negb (u =? 215) then [u + 32]
   else if u =? 0x130 then [0x69; 0x307]
   else if u =? 0x178 then [0xFF]
   else if (((0x100 <=? u) && (u <=? 0x137))
            || ((0x14A <=? u) && (u <=? 0x177))) && N.even u then [u + 1]
   else if (((0x139 <=? u) && (u <=? 0x148))
            || ((0x179 <=? u) && (u <=? 0x17E))) && N.odd u then [u + 1]
   else [u])%N.

(** [s.toLowerCase()] *)
Definition toLowerCase (s : ustring) : ustring := flat_map lowerUnit s.

(** [h.startsWith(q)] *)
Fixpoint startsWith (h q : ustring) {struct q} : bool :=
  match q, h with
  | [], _ => true
  | _ :: _, [] => false
  | a :: q', b :: h' => (a =? b)%N && startsWith h' q'
  end.

(** [h.includes(q)] *)
Fixpoint includes (h q : ustring) : bool :=
  startsWith h q ||
  match h with
  | [] => false
  | _ :: r => includes r q
  end.

(** Truthiness of a string: only the empty string is falsy. *)
Definition truthy (s : ustring) : bool :=
  match s with
  | [] => false
  | _ :: _ => true
  end.

Definition newline : ustring := [10%N].

Record note : Type := mkNote
  { id : ustring; title : ustring; body : ustring; updatedAt : ustring }.

(** [filteredNotes] as a function of the notes and the search text. *)
Definition filteredNotes (notes : list note) (search : ustring) : list note :=
  let q := toLowerCase (trim search) in
  if negb (truthy q) then notes
  else filter (fun n =>
                 let hay := toLowerCase (title n ++ newline ++ body n) in
                 includes hay q)
              notes.

(** The strings of the state machine among the strings of code units. *)
Fixpoint ofString (s : string) : ustring :=
  match s with
  | EmptyString => []
  | String c r => N_of_ascii c :: ofString r
  end.

Definition ofNote (n : Note.t) : note :=
  mkNote (ofString (Note.id n)) (ofString (Note.title n))
         (ofString (Note.body n)) (ofString (Note.updatedAt n)).

(** *** The matching rule of the specification *)

Fixpoint sameUnits (a b : ustring) : bool :=
  match a, b with
  | [], [] => true
  | x :: a', y :: b' => (x =? y)%N && sameUnits a' b'
  | _, _ => false
  end.

(** Two code units are the same character when case is ignored. *)
Definition same_ignoring_case (a b : N) : bool :=
  sameUnits (lowerUnit a) (lowerUnit b).

(** [q] stands at the start of [h], character by character, when case is
    ignored. *)
Fixpoint starts_ignoring_case (q h : ustring) {struct q} : bool :=
  match q, h with
  | [], _ => true
  | _ :: _, [] => false
  | c :: q', d :: h' => same_ignoring_case c d && starts_ignoring_case q' h'
  end.

(** [q] is a substring of [h] when case is ignored. *)
Fixpoint occurs_ignoring_case (q h : ustring) : bool :=
  starts_ignoring_case q h ||
  match h with
  | [] => false
  | _ :: h' => occurs_ignoring_case q h'
  end.

(** Equality of two strings when case is ignored. *)
Inductive eq_ignoring_case : ustring -> ustring -> Prop :=
| eic_empty : eq_ignoring_case [] []
| eic_unit : forall c d a b,
    lowerUnit c = lowerUnit d ->
    eq_ignoring_case a b ->
    eq_ignoring_case (c :: a) (d :: b).

(** The filter of the specification: all notes for a query that is empty
    after trimming, otherwise the notes in whose title, newline and body
    the trimmed query occurs, case ignored, in their order. *)
Definition spec_filter (notes : list note) (query : ustring) : list note :=
  if truthy (trim query)
  then filter (fun n =>
                 occurs_ignoring_case (trim query)
                                      (title n ++ newline ++ body n))
              notes
  else notes.



(** The code units of that range whose lower-casing is one code unit: all
    but U+0130. *)
Definition plain (u : N) : bool := modelled u && negb (u =? 0x130)%N.

Definition plainText (s : ustring) : bool := forallb plain s.

Definition plainNote (n : note) : bool :=
  plainText (title n) && plainText (body n).

Definition hasNewline (s : ustring) : bool := existsb (N.eqb 10) s.


End Utf16.

(* ================================================================== *)
(** ** Basic facts about strings *)

Lemma truthy_false (s : string) : truthy s = false <-> s = "".
Proof.
  unfold truthy. rewrite negb_false_iff. apply String.eqb_eq.
Qed.

Lemma truthy_true (s : string) : truthy s = true <-> s <> "".
Proof.
  unfold truthy. rewrite negb_true_iff. apply String.eqb_neq.
Qed.

Lemma or_else_spec (a b : string) :
  or_else a b = if a =? "" then b else a.
Proof.
  unfold or_else, truthy. destruct (a =? ""); reflexivity.
Qed.

Lemma or_else_truthy (a b : string) :
  truthy b = true -> truthy (or_else a b) = true.
Proof.
  intros Hb. unfold or_else. destruct (truthy a) eqn:Ha; assumption.
Qed.

Lemma toLowerCase_length (s : string) :
  String.length (toLowerCase s) = String.length s.
Proof.
  induction s as [|c r IH]; simpl; congruence.
Qed.

Lemma toLowerCase_empty (s : string) : toLowerCase s = "" <-> s = "".
Proof.
  destruct s; simpl; split; intros H; try reflexivity; discriminate.
Qed.

Lemma toLowerCase_app (a b : string) :
  toLowerCase (a ++ b) = (toLowerCase a ++ toLowerCase b)%string.
Proof.
  induction a as [|c r IH]; simpl; congruence.
Qed.

(* ================================================================== *)
(** ** Facts about rendering *)

Lemma sameObject_refl (o : option NoteObj) : sameObject o o = true.
Proof.
  destruct o as [n|]; simpl; [apply Nat.eqb_refl | reflexivity].
Qed.

(** A handler that set nothing causes no effect. *)
Lemma commit_unchanged (s : State) (w : World) : commit s s w = (s, w).
Proof.
  unfold commit. rewrite Nat.eqb_refl, sameObject_refl. reflexivity.
Qed.

(** When nothing is found for the new target the drafts stay. *)
Lemma commit_no_target (prev next : State) (w : World) :
  editingNote next = None -> fst (commit prev next w) = next.
Proof.
  intros H. unfold commit. simpl. rewrite H.
  destruct (sameObject (editingNote prev) None); reflexivity.
Qed.

Lemma editingNote_idle (s : State) :
  editingId s = None -> editingNote s = None.
Proof.
  intros H. unfold editingNote, editingId_is. rewrite H.
  induction (elems (notes s)); simpl; auto.
Qed.

Lemma saveCurrent_blank (s : State) (w : World) :
  trim (title s) = "" -> trim (body s) = "" -> saveCurrent s w = (s, w).
Proof.
  intros Ht Hb. unfold saveCurrent. rewrite Ht, Hb. reflexivity.
Qed.

(** The guard of [saveCurrent] is passed exactly when a draft is left after
    trimming. *)
Lemma guard_passed (s : State) :
  trim (title s) <> "" \/ trim (body s) <> "" ->
  negb (truthy (trim (title s))) && negb (truthy (trim (body s))) = false.
Proof.
  intros [H|H]; apply truthy_true in H; rewrite H; simpl;
    [reflexivity | apply andb_false_r].
Qed.

(* ================================================================== *)
(** ** Saving empty drafts *)

(** C3.  In every state (so in the creating mode and in every editing mode)
    a save whose title and body are both empty after trimming does nothing:
    the array of notes is the same, [saveNotesToStorage] is not called and
    the storage is untouched, and the mode and both drafts are as before. *)
Theorem blank_save_is_silent_noop :
  forall (s : State) (w : World),
    trim (title s) = "" ->
    trim (body s) = "" ->
    let '(s', w') := step SaveCurrent (s, w) in
    notes s' = notes s
    /\ save_calls w' = save_calls w
    /\ localStorage w' = localStorage w
    /\ mode s' = mode s
    /\ title s' = title s
    /\ body s' = body s.
Proof.
  intros s w Ht Hb. unfold step, handle.
  rewrite (saveCurrent_blank s w Ht Hb), commit_unchanged.
  repeat split.
Qed.

Lemma blank_save_is_silent_noop_witness :
  let s := setBody newline (setTitle "   " (startNew (fst Sample.opened))) in
  let w := snd Sample.opened in
  mode s = Creating
  /\ trim (title s) = "" /\ trim (body s) = ""
  /\ let '(s', w') := step SaveCurrent (s, w) in
     notes s' = notes s /\ save_calls w' = save_calls w
     /\ localStorage w' = localStorage w /\ mode s' = mode s
     /\ title s' = title s /\ body s' = body s.
Proof.
  split; [reflexivity|]. split; [reflexivity|]. split; [reflexivity|].
  apply (blank_save_is_silent_noop
           (setBody newline (setTitle "   " (startNew (fst Sample.opened))))
           (snd Sample.opened)); reflexivity.
Defined.

Lemma commit_world (prev next : State) (w : World) :
  snd (commit prev next w) = after_effects prev next w.
Proof. reflexivity. Qed.

Lemma commit_closed (prev next : State) (w : World) :
  editingNote next = None ->
  commit prev next w = (next, after_effects prev next w).
Proof.
  intros H. rewrite (surjective_pairing (commit prev next w)).
  rewrite commit_no_target by exact H. reflexivity.
Qed.

(* ================================================================== *)
(** ** The text of an identifier *)

Lemma string_of_uint_digits (d : Decimal.uint) :
  allDigits (NilEmpty.string_of_uint d) = true.
Proof.
  induction d; simpl; try reflexivity; exact IHd.
Qed.

Lemma isDigit_not_underscore (c : ascii) :
  isDigit c = true -> Ascii.eqb c "_" = false.
Proof.
  intros H. apply Ascii.eqb_neq. intros ->. discriminate H.
Qed.

Lemma allDigits_noUnderscore (s : string) :
  allDigits s = true -> noUnderscore s = true.
Proof.
  induction s as [|c r IH]; cbn [allDigits noUnderscore]; [reflexivity|].
  intros H. apply andb_true_iff in H. destruct H as [Hc Hr].
  rewrite (isDigit_not_underscore c Hc), (IH Hr). reflexivity.
Qed.

(** The rendering of an integer: an optional minus sign and digits, at
    least one. *)
Lemma ofInteger_shape (z : Z) :
  exists d rest,
    ofInteger z = String d rest
    /\ (isDigit d = true \/ d = "-"%char)
    /\ noUnderscore (ofInteger z) = true.
Proof.
  unfold ofInteger. destruct z as [|p|p]; cbn [Z.to_int NilEmpty.string_of_int].
  - eexists _, _. repeat split. left. reflexivity.
  - pose proof (string_of_uint_digits (Pos.to_uint p)) as Hd.
    pose proof (DecimalPos.Unsigned.to_uint_nonnil p) as Hn.
    destruct (NilEmpty.string_of_uint (Pos.to_uint p)) as [|d rest] eqn:E.
    + exfalso. apply Hn. destruct (Pos.to_uint p); try discriminate E.
      reflexivity.
    + exists d, rest. split; [reflexivity|]. split.
      * left. cbn [allDigits] in Hd. apply andb_true_iff in Hd. tauto.
      * apply allDigits_noUnderscore. exact Hd.
  - eexists _, _. split; [reflexivity|]. split; [right; reflexivity|].
    cbn [noUnderscore]. apply allDigits_noUnderscore.
    apply string_of_uint_digits.
Qed.

Lemma ofInteger_inj (n m : Z) : ofInteger n = ofInteger m -> n = m.
Proof.
  unfold ofInteger. intros H. apply DecimalZ.to_int_inj.
  assert (Hs : Some (Z.to_int n) = Some (Z.to_int m)).
  { rewrite <- (NilEmpty.isi (Z.to_int n)), <- (NilEmpty.isi (Z.to_int m)).
    rewrite H. reflexivity. }
  injection Hs as Hs. exact Hs.
Qed.

(** Two texts made of a part without underscore, an underscore and a rest
    are equal only when both parts are. *)
Lemma underscore_split_inj (a a' b b' : string) :
  noUnderscore a = true -> noUnderscore a' = true ->
  (a ++ String "_" b)%string = (a' ++ String "_" b')%string ->
  a = a' /\ b = b'.
Proof.
  revert a'. induction a as [|c r IH]; intros a' Ha Ha' H.
  - destruct a' as [|c' r']; simpl in H.
    + injection H as H. split; [reflexivity | exact H].
    + injection H as Hc _. subst c'. simpl in Ha'. discriminate.
  - destruct a' as [|c' r']; simpl in H.
    + injection H as Hc _. subst c. simpl in Ha. discriminate.
    + injection H as Hc H. subst c'. cbn [noUnderscore] in Ha, Ha'.
      apply andb_true_iff in Ha. apply andb_true_iff in Ha'.
      destruct (IH r' (proj2 Ha) (proj2 Ha') H) as [-> ->].
      split; reflexivity.
Qed.

Lemma generateId_value (w : World) :
  fst (generateId w)
  = (ofInteger (epoch_ms (clock w (ticks w)))
       ++ String "_" (slice 2 (random w (draws w))))%string.
Proof. reflexivity. Qed.

Lemma generateId_head (w : World) :
  exists d rest,
    fst (generateId w) = String d rest
    /\ (isDigit d = true \/ d = "-"%char).
Proof.
  rewrite generateId_value.
  destruct (ofInteger_shape (epoch_ms (clock w (ticks w))))
    as (d & rest & Hd & Hdig & _).
  rewrite Hd. cbn [append]. eexists _, _. split; [reflexivity | exact Hdig].
Qed.

Lemma generateId_not_marker (w : World) :
  truthy (fst (generateId w)) = true /\ fst (generateId w) <> "NEW".
Proof.
  destruct (generateId_head w) as (d & rest & Hd & Hdig). rewrite Hd.
  split; [reflexivity|].
  intros H. injection H as Hc _. subst d.
  destruct Hdig as [Hdig|Hdig]; discriminate Hdig.
Qed.

(* ================================================================== *)
(** ** Creating a note *)

(** A list of events that the page offers at each step is a run of the
    user interface. *)
Lemma ui_run_of_run (es : list event) :
  forall sw, offered_along es sw = true -> ui_run sw es (run es sw).
Proof.
  induction es as [|e rest IH]; intros [s w] H; cbn [run].
  - apply ui_done.
  - cbn [offered_along fst] in H. apply andb_true_iff in H.
    destruct H as [Hoff Hrest].
    apply ui_next; [exact Hoff | apply IH; exact Hrest].
Qed.

(** C4, counterexample.  The storage holds a note whose id is the text
    that [generateId] makes from the next reading of the clock and the
    next random draw.  The page is opened, [Add note] is pressed and a
    title typed: the save puts in front a note with that same id, which
    the collection then holds twice.  [generateId] compares its result
    with nothing. *)
Lemma create_reuses_a_stored_id :
  let w0 := Sample.world (Sample.stored [Sample.twin; Sample.chores]) true in
  let sw := run [StartNew; SetTitle "Oolong"] (mount w0) in
  reachable w0 sw
  /\ mode (fst sw) = Creating
  /\ trim (title (fst sw)) <> ""
  /\ ids (fst sw) = ["1768364340001_8c3fa1d2"; "b"]
  /\ ids (fst (step SaveCurrent sw))
     = ["1768364340001_8c3fa1d2"; "1768364340001_8c3fa1d2"; "b"]
  /\ ~ created_id_is_fresh.
Proof.
  cbv zeta.
  set (w0 := Sample.world (Sample.stored [Sample.twin; Sample.chores]) true).
  assert (Hreach : reachable w0 (run [StartNew; SetTitle "Oolong"] (mount w0))).
  { exists [StartNew; SetTitle "Oolong"]. apply ui_run_of_run.
    vm_compute. reflexivity. }
  assert (Hdraft : trim (title (fst (run [StartNew; SetTitle "Oolong"]
                                        (mount w0)))) <> "")
    by (vm_compute; discriminate).
  split; [exact Hreach|]. split; [reflexivity|]. split; [exact Hdraft|].
  split; [reflexivity|]. split; [reflexivity|].
  intros Hclaim.
  rewrite (surjective_pairing (run [StartNew; SetTitle "Oolong"] (mount w0)))
    in Hreach.
  destruct (Hclaim w0 _ _ Hreach eq_refl (or_introl Hdraft))
    as (newNote & Hfront & Hfresh).
  apply Hfresh.
  assert (Hid : Note.id (val newNote) = "1768364340001_8c3fa1d2").
  { vm_compute in Hfront. injection Hfront as Hfront. rewrite <- Hfront.
    reflexivity. }
  rewrite Hid. left. reflexivity.
Qed.

(** C4, as the code has it.  A save in the creating mode with a draft left
    after trimming puts one new note in front of the collection.  Its id is
    the text that [generateId] builds: the decimal reading of the clock
    taken after the one for [now], an underscore, and the random text from
    its third character on.  That text is never empty and never the marker
    [NEW], but it is compared with no id of the collection: the ids of the
    new collection are pairwise distinct exactly when those of the old one
    were and none of them is that text.  The title of the new note is the
    trimmed draft title, or [Untitled] when that is empty, its body is the
    trimmed draft body, and [updatedAt] is the reading of the clock taken
    by the handler.  The notes that were there follow it, the same objects
    in the same order, so the length grows by exactly one. *)
Theorem create_prepends_generated_note :
  forall (s : State) (w : World),
    mode s = Creating ->
    trim (title s) <> "" \/ trim (body s) <> "" ->
    let '(s', w') := step SaveCurrent (s, w) in
    exists newNote : NoteObj,
      elems (notes s') = newNote :: elems (notes s)
      /\ List.length (elems (notes s')) = S (List.length (elems (notes s)))
      /\ Note.id (val newNote)
         = (ofInteger (epoch_ms (clock w (S (ticks w))))
              ++ "_" ++ slice 2 (random w (draws w)))%string
      /\ Note.id (val newNote) = fst (generateId (snd (nowISOString w)))
      /\ Note.id (val newNote) <> ""
      /\ Note.id (val newNote) <> "NEW"
      /\ (NoDup (ids s')
          <-> ~ In (Note.id (val newNote)) (ids s) /\ NoDup (ids s))
      /\ Note.title (val newNote)
         = (if trim (title s) =? "" then "Untitled" else trim (title s))
      /\ Note.body (val newNote) = trim (body s)
      /\ Note.updatedAt (val newNote) = iso8601 (clock w (ticks w)).
Proof.
  intros s w Hmode Hdraft.
  assert (Hnew : editingId_is s "NEW" = true).
  { unfold mode in Hmode. unfold editingId_is.
    destruct (editingId s) as [e|]; [|discriminate].
    destruct (e =? "NEW"); [reflexivity | discriminate]. }
  destruct (generateId_not_marker (snd (nowISOString w))) as [Htruthy Hmark].
  apply truthy_true in Htruthy.
  unfold step, handle, saveCurrent.
  rewrite (guard_passed s Hdraft), Hnew.
  cbn [nowISOString readClock generateId Date_now Math_random_hex alloc
       fst snd next_ref].
  rewrite commit_closed by (apply editingNote_idle; reflexivity).
  unfold ids. cbn [notes elems map].
  match goal with |- context [mkObj ?r ?v :: _] => exists (mkObj r v) end.
  cbn [val Note.id Note.title Note.body Note.updatedAt List.length].
  rewrite or_else_spec.
  split; [reflexivity|]. split; [reflexivity|]. split; [reflexivity|].
  split; [reflexivity|]. split; [exact Htruthy|]. split; [exact Hmark|].
  split; [apply NoDup_cons_iff|].
  split; [reflexivity|]. split; reflexivity.
Qed.

Lemma create_prepends_generated_note_witness :
  let s := setBody "  eggs " (setTitle " " (startNew (fst Sample.opened))) in
  let w := snd Sample.opened in
  mode s = Creating
  /\ (trim (title s) <> "" \/ trim (body s) <> "")
  /\ let '(s', w') := step SaveCurrent (s, w) in
     exists newNote : NoteObj,
       elems (notes s') = newNote :: elems (notes s)
       /\ List.length (elems (notes s')) = S (List.length (elems (notes s)))
       /\ Note.id (val newNote)
          = (ofInteger (epoch_ms (clock w (S (ticks w))))
               ++ "_" ++ slice 2 (random w (draws w)))%string
       /\ Note.id (val newNote) = fst (generateId (snd (nowISOString w)))
       /\ Note.id (val newNote) <> ""
       /\ Note.id (val newNote) <> "NEW"
       /\ (NoDup (ids s')
           <-> ~ In (Note.id (val newNote)) (ids s) /\ NoDup (ids s))
       /\ Note.title (val newNote)
          = (if trim (title s) =? "" then "Untitled" else trim (title s))
       /\ Note.body (val newNote) = trim (body s)
       /\ Note.updatedAt (val newNote) = iso8601 (clock w (ticks w)).
Proof.
  split; [reflexivity|].
  split; [right; discriminate|].
  apply (create_prepends_generated_note
           (setBody "  eggs " (setTitle " " (startNew (fst Sample.opened))))
           (snd Sample.opened)).
  - reflexivity.
  - right. discriminate.
Defined.

(* ================================================================== *)
(** ** Targeting a note that is not in the collection *)

Lemma find_none_not_in (i : string) (ns : list NoteObj) :
  ~ In i (map (fun n => Note.id (val n)) ns) ->
  find (fun n => i =? Note.id (val n)) ns = None.
Proof.
  induction ns as [|n rest IH]; simpl; intros Hnot; [reflexivity|].
  destruct (i =? Note.id (val n)) eqn:E.
  - apply String.eqb_eq in E. exfalso. apply Hnot. left. symmetry. exact E.
  - apply IH. intros Hin. apply Hnot. right. exact Hin.
Qed.

Lemma editingNote_absent (s : State) (i : string) :
  editingId s = Some i -> ~ In i (ids s) -> editingNote s = None.
Proof.
  intros He Hnot. unfold editingNote, editingId_is. rewrite He.
  apply find_none_not_in. exact Hnot.
Qed.

(** C5, counterexample.  While the note [a] is being edited, [startEdit] on
    the id [zzz], which no note has, leaves the editor open on [zzz] with
    the title and body of [a] still in the drafts. *)
Lemma startEdit_missing_id_keeps_editor_open :
  let sw := step (StartEdit "a") Sample.opened in
  let sw' := step (StartEdit "zzz") sw in
  ~ In "zzz" (ids (fst sw))
  /\ session (fst sw) = (Some "a", "Groceries", "Milk, eggs")
  /\ mode (fst sw') = Editing "zzz"
  /\ session (fst sw') = (Some "zzz", "Groceries", "Milk, eggs")
  /\ ~ startEdit_falls_back.
Proof.
  assert (Hnot : ~ In "zzz" (ids (fst (step (StartEdit "a") Sample.opened)))).
  { vm_compute. intros [H|[H|[]]]; discriminate. }
  repeat split; try reflexivity; try exact Hnot.
  intros Hclaim.
  specialize (Hclaim (fst (step (StartEdit "a") Sample.opened))
                     (snd (step (StartEdit "a") Sample.opened)) "zzz" Hnot).
  vm_compute in Hclaim. discriminate.
Qed.

(** C5, as the code has it.  [startEdit] on an id that no note of the
    collection has makes that id the target of the editor (the session is
    not idle) and leaves both drafts, the notes and the storage as they
    were. *)
Theorem startEdit_missing_id_retargets_only :
  forall (s : State) (w : World) (i : string),
    ~ In i (ids s) ->
    let '(s', w') := step (StartEdit i) (s, w) in
    editingId s' = Some i
    /\ mode s' <> Idle
    /\ title s' = title s
    /\ body s' = body s
    /\ notes s' = notes s
    /\ w' = w.
Proof.
  intros s w i Hnot. unfold step, handle.
  assert (Hnone : editingNote (startEdit i s) = None).
  { apply editingNote_absent with (i := i); [reflexivity | exact Hnot]. }
  rewrite (commit_closed s (startEdit i s) w Hnone).
  unfold after_effects. cbn [startEdit notes editingId title body].
  rewrite Nat.eqb_refl.
  repeat split.
  unfold mode. cbn [editingId startEdit]. destruct (i =? "NEW"); discriminate.
Qed.

Lemma startEdit_missing_id_retargets_only_witness :
  let sw := step (StartEdit "a") Sample.opened in
  ~ In "zzz" (ids (fst sw))
  /\ let '(s', w') := step (StartEdit "zzz") (fst sw, snd sw) in
     editingId s' = Some "zzz"
     /\ mode s' <> Idle
     /\ title s' = title (fst sw)
     /\ body s' = body (fst sw)
     /\ notes s' = notes (fst sw)
     /\ w' = snd sw.
Proof.
  assert (Hnot : ~ In "zzz" (ids (fst (step (StartEdit "a") Sample.opened)))).
  { vm_compute. intros [H|[H|[]]]; discriminate. }
  split; [exact Hnot|].
  exact (startEdit_missing_id_retargets_only
           (fst (step (StartEdit "a") Sample.opened))
           (snd (step (StartEdit "a") Sample.opened)) "zzz" Hnot).
Defined.

(* ================================================================== *)
(** ** Deleting a note *)

(** Filtering does not change what [find] finds when it keeps every element
    [find] could stop at. *)
Lemma find_filter_kept {A : Type} (p q : A -> bool) (l : list A) :
  (forall x, p x = true -> q x = true) ->
  find p (filter q l) = find p l.
Proof.
  intros Hpq. induction l as [|x rest IH]; simpl; [reflexivity|].
  destruct (q x) eqn:Hq; simpl.
  - destruct (p x); [reflexivity | exact IH].
  - destruct (p x) eqn:Hp; [|exact IH].
    rewrite (Hpq x Hp) in Hq. discriminate.
Qed.

Lemma filter_removes_id (i : string) (ns : list NoteObj) :
  ~ In i (map (fun n => Note.id (val n))
              (filter (fun n => negb (Note.id (val n) =? i)) ns)).
Proof.
  intros Hin. apply in_map_iff in Hin. destruct Hin as [n [Hid Hn]].
  apply filter_In in Hn. destruct Hn as [_ Hneq].
  apply negb_true_iff, String.eqb_neq in Hneq. contradiction.
Qed.

Lemma filter_keeps_other_id (i e : string) (ns : list NoteObj) :
  e <> i ->
  In e (map (fun n => Note.id (val n)) ns) ->
  In e (map (fun n => Note.id (val n))
            (filter (fun n => negb (Note.id (val n) =? i)) ns)).
Proof.
  intros Hne Hin. apply in_map_iff in Hin. destruct Hin as [n [Hid Hn]].
  apply in_map_iff. exists n. split; [exact Hid|].
  apply filter_In. split; [exact Hn|].
  apply negb_true_iff, String.eqb_neq. congruence.
Qed.

Lemma editingNote_without (i : string) (r : nat) (s : State) :
  editingId_is s i = false ->
  editingNote (without i r s) = editingNote s.
Proof.
  intros Hother. unfold editingNote, without. cbn [notes elems].
  unfold editingId_is in *. cbn [editingId].
  apply find_filter_kept. intros n Hn.
  destruct (editingId s) as [e|]; [|discriminate].
  apply String.eqb_eq in Hn. subst e. rewrite Hother. reflexivity.
Qed.

(** Deleting a note that is not the target of the editor: the session is
    kept, the notes with that id are filtered out. *)
Lemma delete_other_step (s : State) (w : World) (x : string) :
  editingId_is s x = false ->
  fst (step (DeleteNote x) (s, w)) = without x (next_ref w) s.
Proof.
  intros Hother. unfold step, handle, deleteNote. cbn [alloc].
  rewrite Hother. fold (without x (next_ref w) s).
  unfold commit. cbn [fst].
  rewrite (editingNote_without x (next_ref w) s Hother), sameObject_refl.
  reflexivity.
Qed.

(** C10, counterexample.  The storage holds a note whose id is the text
    [NEW].  The user presses [Add note], types a title, and deletes that
    note from the list: [editingId === id] holds for the marker of the
    creating mode, so the editor is closed and the drafts are lost. *)
Lemma delete_of_id_NEW_cancels_creation :
  let w0 := Sample.world (Sample.stored [Sample.named_NEW]) true in
  let before := run [StartNew; SetTitle "Shopping"] (mount w0) in
  let after := step (DeleteNote "NEW") before in
  ui_run (mount w0) [StartNew; SetTitle "Shopping"; DeleteNote "NEW"] after
  /\ mode (fst before) = Creating
  /\ title (fst before) = "Shopping"
  /\ mode (fst after) = Idle
  /\ title (fst after) = ""
  /\ ~ delete_keeps_other_session.
Proof.
  cbv zeta. split.
  { repeat (eapply ui_next; [reflexivity|]). apply ui_done. }
  repeat split.
  intros Hclaim.
  pose (before := run [StartNew; SetTitle "Shopping"]
                      (mount (Sample.world (Sample.stored [Sample.named_NEW]) true))).
  specialize (Hclaim (fst before) (snd before) "NEW" (or_introl eq_refl)).
  vm_compute in Hclaim. discriminate.
Qed.

(** C10, as the code has it.  Whenever the marker [editingId] is not the
    deleted id [x] (an editing mode on another id; the creating mode unless
    [x] is the text [NEW]), [deleteNote x] leaves the marker and both drafts
    as they were, and the collection loses exactly the notes whose id is
    [x]. *)
Theorem delete_other_keeps_session :
  forall (s : State) (w : World) (x : string),
    ((exists y, mode s = Editing y /\ y <> x)
     \/ (mode s = Creating /\ x <> "NEW")) ->
    let s' := fst (step (DeleteNote x) (s, w)) in
    session s' = session s
    /\ mode s' = mode s
    /\ search s' = search s
    /\ elems (notes s')
       = filter (fun n => negb (Note.id (val n) =? x)) (elems (notes s)).
Proof.
  intros s w x Hmode.
  assert (Hother : editingId_is s x = false).
  { unfold editingId_is, mode in *.
    destruct (editingId s) as [e|].
    - destruct (e =? "NEW") eqn:Enew.
      + apply String.eqb_eq in Enew. subst e.
        destruct Hmode as [[y [H _]] | [_ H]]; [discriminate|].
        apply String.eqb_neq. congruence.
      + destruct Hmode as [[y [H Hy]] | [H _]]; [|discriminate].
        injection H as ->. apply String.eqb_neq. exact Hy.
    - reflexivity. }
  cbv zeta. rewrite (delete_other_step s w x Hother).
  repeat split.
Qed.

Lemma delete_other_keeps_session_witness :
  let sw := run [StartEdit "a"; SetBody "Milk, eggs, bread"] Sample.opened in
  ((exists y, mode (fst sw) = Editing y /\ y <> "b")
   \/ (mode (fst sw) = Creating /\ "b" <> "NEW"))
  /\ let s' := fst (step (DeleteNote "b") (fst sw, snd sw)) in
     session s' = session (fst sw)
     /\ mode s' = mode (fst sw)
     /\ search s' = search (fst sw)
     /\ elems (notes s')
        = filter (fun n => negb (Note.id (val n) =? "b")) (elems (notes (fst sw))).
Proof.
  assert (H : (exists y,
                 mode (fst (run [StartEdit "a"; SetBody "Milk, eggs, bread"] Sample.opened))
                 = Editing y /\ y <> "b")
              \/ (mode (fst (run [StartEdit "a"; SetBody "Milk, eggs, bread"] Sample.opened))
                  = Creating /\ "b" <> "NEW")).
  { left. exists "a". split; [reflexivity | discriminate]. }
  split; [exact H|].
  exact (delete_other_keeps_session
           (fst (run [StartEdit "a"; SetBody "Milk, eggs, bread"] Sample.opened))
           (snd (run [StartEdit "a"; SetBody "Milk, eggs, bread"] Sample.opened))
           "b" H).
Defined.

(* ================================================================== *)
(** ** Deleting the note that is being edited *)

(** Effects never touch the notes or the editing marker. *)
Lemma commit_frame (prev next : State) (w : World) :
  notes (fst (commit prev next w)) = notes next
  /\ editingId (fst (commit prev next w)) = editingId next
  /\ search (fst (commit prev next w)) = search next.
Proof.
  unfold commit. cbn [fst].
  destruct (sameObject (editingNote prev) (editingNote next));
    [repeat split|].
  destruct (editingNote next); repeat split.
Qed.

(** [saveCurrent] either closes the editor or sets nothing. *)
Lemma saveCurrent_closes_or_skips (s : State) (w : World) :
  editingId (fst (saveCurrent s w)) = None \/ fst (saveCurrent s w) = s.
Proof.
  unfold saveCurrent.
  destruct (negb (truthy (trim (title s))) && negb (truthy (trim (body s))));
    [right; reflexivity|].
  destruct (nowISOString w) as [now w1].
  destruct (editingId_is s "NEW").
  - destruct (generateId w1) as [newId w2].
    destruct (alloc w2) as [r w3]. destruct (alloc w3) as [ra w4].
    left. reflexivity.
  - destruct (editingId s) as [e|]; [|right; reflexivity].
    destruct (truthy e); [|right; reflexivity].
    destruct (mapUpdate e (trim (title s)) (trim (body s)) now (elems (notes s)) w1)
      as [ns w2].
    destruct (alloc w2) as [ra w3]. left. reflexivity.
Qed.

(** With the editor closed, [saveCurrent] sets nothing. *)
Lemma saveCurrent_idle (s : State) (w : World) :
  editingId s = None ->
  fst (saveCurrent s w) = s
  /\ save_calls (snd (saveCurrent s w)) = save_calls w
  /\ localStorage (snd (saveCurrent s w)) = localStorage w.
Proof.
  intros Hidle. unfold saveCurrent, editingId_is. rewrite Hidle.
  destruct (negb (truthy (trim (title s))) && negb (truthy (trim (body s))));
    repeat split.
Qed.

Lemma idle_step (e : event) (s : State) (w : World) :
  editingId s = None ->
  keeps_target e = true ->
  editingId (fst (step e (s, w))) = None
  /\ notes (fst (step e (s, w))) = notes s
  /\ save_calls (snd (step e (s, w))) = save_calls w.
Proof.
  intros Hidle He. unfold step.
  destruct (handle e s w) as [s1 w1] eqn:Hh.
  assert (H1 : editingId s1 = None /\ notes s1 = notes s
               /\ save_calls w1 = save_calls w).
  { destruct e; try discriminate; cbn [handle] in Hh;
      try (injection Hh as <- <-; repeat split; assumption).
    destruct (saveCurrent_idle s w Hidle) as [Hs [Hc _]].
    rewrite Hh in Hs, Hc. cbn [fst snd] in Hs, Hc. subst s1.
    repeat split; assumption. }
  destruct H1 as [Hid [Hn Hc]].
  destruct (commit_frame s s1 w1) as [Fn [Fe _]].
  rewrite Fn, Fe. repeat split; try assumption.
  unfold commit. cbn [snd]. rewrite Hn, Nat.eqb_refl. exact Hc.
Qed.

Lemma idle_run (es : list event) :
  forall (s : State) (w : World),
    editingId s = None ->
    forallb keeps_target es = true ->
    editingId (fst (run es (s, w))) = None
    /\ notes (fst (run es (s, w))) = notes s
    /\ save_calls (snd (run es (s, w))) = save_calls w.
Proof.
  induction es as [|e rest IH]; intros s w Hidle Hes.
  - repeat split. exact Hidle.
  - cbn [forallb] in Hes. apply andb_true_iff in Hes. destruct Hes as [He Hrest].
    destruct (idle_step e s w Hidle He) as [H1 [H2 H3]].
    cbn [run]. destruct (step e (s, w)) as [s1 w1]. cbn [fst snd] in *.
    destruct (IH s1 w1 H1 Hrest) as [J1 [J2 J3]].
    repeat split; congruence.
Qed.

Lemma filterNotes_incl (ns : list NoteObj) (q : string) (n : NoteObj) :
  In n (filterNotes ns q) -> In n ns.
Proof.
  unfold filterNotes.
  destruct (negb (truthy (toLowerCase (trim q)))); [auto|].
  intros H. apply filter_In in H. tauto.
Qed.

Lemma offered_id_present (s : State) (i : string) :
  existsb (fun n => Note.id (val n) =? i) (filteredNotes s) = true ->
  In i (ids s).
Proof.
  intros H. apply existsb_exists in H. destruct H as [n [Hn Hid]].
  apply String.eqb_eq in Hid. subst i.
  unfold ids. apply in_map_iff. exists n. split; [reflexivity|].
  apply (filterNotes_incl _ _ _ Hn).
Qed.

Lemma mode_editing (s : State) (i : string) :
  mode s = Editing i <-> editingId s = Some i /\ i <> "NEW".
Proof.
  unfold mode. destruct (editingId s) as [e|].
  - destruct (e =? "NEW") eqn:E.
    + apply String.eqb_eq in E. subst e. split; [discriminate|].
      intros [H Hn]. injection H as <-. contradiction.
    + apply String.eqb_neq in E. split.
      * intros H. injection H as ->. split; [reflexivity | exact E].
      * intros [H _]. injection H as ->. reflexivity.
  - split; [discriminate | intros [H _]; discriminate].
Qed.

Lemma mode_idle (s : State) : mode s = Idle <-> editingId s = None.
Proof.
  unfold mode. destruct (editingId s) as [e|].
  - destruct (e =? "NEW"); split; discriminate.
  - split; reflexivity.
Qed.

Lemma step_keeps_target_present (e : event) (s : State) (w : World) :
  offered s e = true ->
  target_present s ->
  target_present (fst (step e (s, w))).
Proof.
  intros Hoff Hinv. unfold step.
  destruct (handle e s w) as [s1 w1] eqn:Hh.
  assert (H1 : target_present s1).
  { destruct e; cbn [handle] in Hh.
    - injection Hh as <- <-. intros i Hi. discriminate.
    - injection Hh as <- <-. intros j Hj.
      apply mode_editing in Hj. destruct Hj as [Hj _].
      cbn [startEdit editingId] in Hj. injection Hj as <-.
      exact (offered_id_present s _ Hoff).
    - injection Hh as <- <-. intros i Hi. discriminate.
    - unfold deleteNote in Hh. cbn [alloc] in Hh.
      destruct (editingId_is s i) eqn:Hx; injection Hh as <- <-.
      + intros j Hj. discriminate.
      + intros j Hj. apply mode_editing in Hj. cbn [editingId] in Hj.
        unfold ids. cbn [notes elems].
        apply filter_keeps_other_id.
        * intros ->. unfold editingId_is in Hx.
          destruct Hj as [Hj _]. rewrite Hj, String.eqb_refl in Hx.
          discriminate.
        * apply (Hinv j). apply mode_editing. exact Hj.
    - assert (Hs : s1 = fst (saveCurrent s w)) by (rewrite Hh; reflexivity).
      destruct (saveCurrent_closes_or_skips s w) as [Hc|Hc];
        rewrite <- Hs in Hc.
      + intros j Hj. apply mode_editing in Hj. destruct Hj as [Hj _].
        congruence.
      + subst s1. rewrite Hc. exact Hinv.
    - injection Hh as <- <-. exact Hinv.
    - injection Hh as <- <-. exact Hinv.
    - injection Hh as <- <-. exact Hinv. }
  destruct (commit_frame s s1 w1) as [Fn [Fe _]].
  intros j Hj. apply mode_editing in Hj. rewrite Fe in Hj.
  unfold ids. rewrite Fn. apply (H1 j). apply mode_editing. exact Hj.
Qed.

Lemma ui_run_keeps_target_present (sw : State * World) (es : list event)
      (sw' : State * World) :
  ui_run sw es sw' -> target_present (fst sw) -> target_present (fst sw').
Proof.
  induction 1 as [sw | s w e es sw' Hoff Hrun IH]; intros Hinv.
  - exact Hinv.
  - apply IH. apply (step_keeps_target_present e s w Hoff Hinv).
Qed.

Lemma mount_idle (w0 : World) : editingId (fst (mount w0)) = None.
Proof.
  unfold mount. destruct (loadNotesFromStorage w0) as [ns w1]. reflexivity.
Qed.

(** C6.  When the note that is being edited is deleted, the session is idle
    afterwards with both drafts empty, and no note with that id is left.
    From there, whatever is typed and however often the form is saved or
    cancelled, the notes stay as the deletion left them and nothing is
    written.  And in every state that the page reaches from its start, the
    target of an editing session is the id of a note of the collection: no
    save ever commits drafts for an id that was deleted. *)
Theorem delete_of_edited_note_ends_session :
  (forall (s : State) (w : World) (i : string),
      mode s = Editing i ->
      let '(s', w') := step (DeleteNote i) (s, w) in
      mode s' = Idle
      /\ title s' = ""
      /\ body s' = ""
      /\ ~ In i (ids s')
      /\ forall es : list event,
          forallb keeps_target es = true ->
          notes (fst (run es (s', w'))) = notes s'
          /\ save_calls (snd (run es (s', w'))) = save_calls w')
  /\ (forall (w0 : World) (s : State) (w : World) (i : string),
         reachable w0 (s, w) ->
         mode s = Editing i ->
         In i (ids s)).
Proof.
  split.
  - intros s w i Hmode. apply mode_editing in Hmode. destruct Hmode as [He _].
    assert (Hx : editingId_is s i = true).
    { unfold editingId_is. rewrite He. apply String.eqb_refl. }
    unfold step, handle, deleteNote. cbn [alloc]. rewrite Hx.
    rewrite commit_closed by (apply editingNote_idle; reflexivity).
    cbn [cancelEdit title body].
    split; [reflexivity|]. split; [reflexivity|]. split; [reflexivity|].
    split.
    + unfold ids. cbn [notes elems]. apply filter_removes_id.
    + intros es Hes.
      match goal with |- context [run es (?a, ?b)] =>
        destruct (idle_run es a b eq_refl Hes) as [_ [Hn Hc]] end.
      split; assumption.
  - intros w0 s w i [es Hrun] Hmode.
    apply (ui_run_keeps_target_present _ _ _ Hrun); [|exact Hmode].
    intros j Hj. apply mode_editing in Hj. destruct Hj as [Hj _].
    rewrite mount_idle in Hj. discriminate.
Qed.

Lemma delete_of_edited_note_ends_session_witness :
  let w0 := Sample.world (Sample.stored [Sample.groceries; Sample.chores]) true in
  let sw := step (StartEdit "a") (mount w0) in
  mode (fst sw) = Editing "a"
  /\ reachable w0 (fst sw, snd sw)
  /\ (let '(s', w') := step (DeleteNote "a") (fst sw, snd sw) in
      mode s' = Idle
      /\ title s' = ""
      /\ body s' = ""
      /\ ~ In "a" (ids s')
      /\ forall es : list event,
          forallb keeps_target es = true ->
          notes (fst (run es (s', w'))) = notes s'
          /\ save_calls (snd (run es (s', w'))) = save_calls w')
  /\ In "a" (ids (fst sw)).
Proof.
  cbv zeta.
  assert (Hmode : mode (fst (step (StartEdit "a")
             (mount (Sample.world (Sample.stored [Sample.groceries; Sample.chores]) true))))
          = Editing "a") by reflexivity.
  assert (Hreach : reachable
            (Sample.world (Sample.stored [Sample.groceries; Sample.chores]) true)
            (fst (step (StartEdit "a")
                   (mount (Sample.world (Sample.stored [Sample.groceries; Sample.chores]) true))),
             snd (step (StartEdit "a")
                   (mount (Sample.world (Sample.stored [Sample.groceries; Sample.chores]) true))))).
  { exists [StartEdit "a"]. rewrite <- surjective_pairing.
    rewrite (surjective_pairing (mount _)).
    eapply ui_next; [reflexivity|]. rewrite <- surjective_pairing. apply ui_done. }
  split; [exact Hmode|]. split; [exact Hreach|]. split.
  - exact (proj1 delete_of_edited_note_ends_session _ _ _ Hmode).
  - exact (proj2 delete_of_edited_note_ends_session _ _ _ _ Hreach Hmode).
Defined.

(* ================================================================== *)
(** ** Saving an edit *)

Lemma allocated_more_refl (w : World) : allocated_more w w.
Proof. unfold allocated_more. repeat split. apply Nat.le_refl. Qed.

Lemma mapUpdate_world (e tt tb now : string) (ns : list NoteObj) :
  forall w, allocated_more w (snd (mapUpdate e tt tb now ns w)).
Proof.
  induction ns as [|n rest IH]; intros w; cbn [mapUpdate].
  - apply allocated_more_refl.
  - destruct (Note.id (val n) =? e).
    + cbn [alloc].
      match goal with |- context [mapUpdate e tt tb now rest ?w1] =>
        specialize (IH w1); destruct (mapUpdate e tt tb now rest w1) as [r' w2]
      end.
      cbn [snd] in *. unfold allocated_more in *. cbn in IH.
      destruct IH as (H1 & H2 & H3 & H4 & H5 & H6 & H7).
      repeat split; try assumption. lia.
    + specialize (IH w). destruct (mapUpdate e tt tb now rest w) as [r' w2].
      exact IH.
Qed.

Lemma mapUpdate_contents (e tt tb now : string) (ns : list NoteObj) :
  forall w,
    map val (fst (mapUpdate e tt tb now ns w)) = rewriteAll e tt tb now (map val ns).
Proof.
  induction ns as [|n rest IH]; intros w; cbn [mapUpdate]; [reflexivity|].
  cbn [map rewriteAll]. fold (rewriteAll e tt tb now (map val rest)).
  destruct (Note.id (val n) =? e).
  - cbn [alloc].
    match goal with |- context [mapUpdate e tt tb now rest ?w1] =>
      specialize (IH w1); destruct (mapUpdate e tt tb now rest w1) as [r' w2]
    end.
    cbn [fst map val] in *. rewrite IH. reflexivity.
  - specialize (IH w). destruct (mapUpdate e tt tb now rest w) as [r' w2].
    cbn [fst map] in *. rewrite IH. reflexivity.
Qed.

(** When no note has the id, [map] returns the same objects. *)
Lemma mapUpdate_absent (e tt tb now : string) (ns : list NoteObj) :
  ~ In e (map (fun n => Note.id (val n)) ns) ->
  forall w, mapUpdate e tt tb now ns w = (ns, w).
Proof.
  induction ns as [|n rest IH]; intros Hnot w; cbn [mapUpdate]; [reflexivity|].
  destruct (Note.id (val n) =? e) eqn:E.
  - apply String.eqb_eq in E. exfalso. apply Hnot. left. exact E.
  - rewrite IH; [reflexivity|]. intros Hin. apply Hnot. right. exact Hin.
Qed.

(** The update branch of [saveCurrent], followed by the effects: the drafts
    are committed to every note with the id, the editor is closed, and when
    the new array is another one than the old it is handed to
    [saveNotesToStorage]. *)
Lemma update_step (s : State) (w : World) (i : string) :
  mode s = Editing i ->
  i <> "" ->
  trim (title s) <> "" \/ trim (body s) <> "" ->
  let now := iso8601 (clock w (ticks w)) in
  let '(s', w') := step SaveCurrent (s, w) in
  session s' = (None, "", "")
  /\ search s' = search s
  /\ contents (notes s')
     = rewriteAll i (trim (title s)) (trim (body s)) now (contents (notes s))
  /\ (~ In i (ids s) -> elems (notes s') = elems (notes s))
  /\ (arr_ref (notes s) < next_ref w ->
      save_calls w' = contents (notes s') :: save_calls w
      /\ localStorage w'
         = match setItem (JSON_stringify (contents (notes s'))) (localStorage w) with
           | Some st => st
           | None => localStorage w
           end).
Proof.
  intros Hmode Hi Hdraft. apply mode_editing in Hmode.
  destruct Hmode as [He Hnew].
  assert (Hn : editingId_is s "NEW" = false).
  { unfold editingId_is. rewrite He. apply String.eqb_neq. exact Hnew. }
  apply truthy_true in Hi.
  cbv zeta. unfold step, handle, saveCurrent.
  rewrite (guard_passed s Hdraft), Hn, He, Hi.
  cbn [nowISOString readClock].
  match goal with |- context [mapUpdate i ?tt ?tb ?now ?ns ?w1] =>
    pose proof (mapUpdate_world i tt tb now ns w1) as Hw;
    pose proof (mapUpdate_contents i tt tb now ns w1) as Hc;
    pose proof (fun H => mapUpdate_absent i tt tb now ns H w1) as Ha;
    destruct (mapUpdate i tt tb now ns w1) as [ns' w2]
  end.
  cbn [fst snd] in Hw, Hc, Ha. cbn [alloc].
  rewrite commit_closed by (apply editingNote_idle; reflexivity).
  unfold contents. cbn [session editingId title body search notes elems].
  split; [reflexivity|]. split; [reflexivity|]. split; [exact Hc|].
  split.
  - intros Hnot. specialize (Ha Hnot). congruence.
  - intros Hwf. unfold after_effects. cbn [notes arr_ref].
    destruct Hw as (H1 & H2 & H3 & H4 & H5 & H6 & H7). cbn in H5, H6, H7.
    assert (Hne : (arr_ref (notes s) =? next_ref w2)%nat = false)
      by (apply Nat.eqb_neq; lia).
    rewrite Hne. unfold saveNotesToStorage, contents.
    cbn [save_calls localStorage elems next_ref]. rewrite H5, H6.
    split; reflexivity.
Qed.

(* ================================================================== *)
(** ** The array of notes is always one that was allocated *)

Lemma handle_array_allocated (e : event) (s : State) (w : World) :
  arr_ref (notes s) < next_ref w ->
  arr_ref (notes (fst (handle e s w))) < next_ref (snd (handle e s w)).
Proof.
  intros Hwf. destruct e; cbn [handle fst snd]; try exact Hwf.
  - unfold deleteNote. cbn [alloc].
    destruct (editingId_is s i); cbn [fst snd cancelEdit notes arr_ref next_ref]; lia.
  - unfold saveCurrent.
    destruct (negb (truthy (trim (title s))) && negb (truthy (trim (body s))));
      [exact Hwf|].
    cbn [nowISOString readClock].
    destruct (editingId_is s "NEW").
    + cbn [generateId Date_now Math_random_hex readClock alloc fst snd
           notes arr_ref next_ref]. lia.
    + destruct (editingId s) as [e|]; [|exact Hwf].
      destruct (truthy e); [|exact Hwf].
      match goal with |- context [mapUpdate e ?t ?tb ?now ?ns ?w1] =>
        destruct (mapUpdate e t tb now ns w1) as [ns' w2]
      end.
      cbn [alloc fst snd notes arr_ref next_ref]. lia.
Qed.

Lemma step_array_allocated (e : event) (s : State) (w : World) :
  arr_ref (notes s) < next_ref w ->
  arr_ref (notes (fst (step e (s, w)))) < next_ref (snd (step e (s, w))).
Proof.
  intros Hwf. unfold step.
  pose proof (handle_array_allocated e s w Hwf) as H.
  destruct (handle e s w) as [s1 w1]. cbn [fst snd] in H.
  destruct (commit_frame s s1 w1) as [Fn _]. rewrite Fn, commit_world.
  unfold after_effects.
  destruct (arr_ref (notes s) =? arr_ref (notes s1))%nat; exact H.
Qed.

Lemma mount_array_allocated (w0 : World) :
  arr_ref (notes (fst (mount w0))) < next_ref (snd (mount w0)).
Proof.
  unfold mount, loadNotesFromStorage.
  destruct (loadNotes_try w0) as [[os|] w1];
    cbn [alloc fst snd notes arr_ref saveNotesToStorage next_ref]; lia.
Qed.

(** In every state that a run reaches from the start, the address of the
    array of notes is below the next free address. *)
Lemma run_array_allocated (es : list event) :
  forall sw,
    arr_ref (notes (fst sw)) < next_ref (snd sw) ->
    arr_ref (notes (fst (run es sw))) < next_ref (snd (run es sw)).
Proof.
  induction es as [|e rest IH]; intros [s w] H; cbn [run]; [exact H|].
  apply IH. apply step_array_allocated. exact H.
Qed.

(* ================================================================== *)
(** ** Saving an edit of a note that is not there, or that did not change *)

(** C2, counterexample.  The editor is open on the empty id, which no note
    has, with drafts that are not empty.  [if (editingId)] is false for the
    empty string, so the save sets nothing: the editor stays open on that
    id with its drafts. *)
Lemma update_of_empty_id_stays_open :
  let s := setBody "Milk" (setTitle "Plan" (startEdit "" (fst Sample.opened))) in
  let w := snd Sample.opened in
  mode s = Editing ""
  /\ ~ In "" (ids s)
  /\ trim (title s) <> ""
  /\ mode (fst (step SaveCurrent (s, w))) = Editing ""
  /\ fst (step SaveCurrent (s, w)) = s
  /\ ~ update_of_missing_id_returns_to_idle.
Proof.
  cbv zeta.
  assert (Hnot : ~ In "" (ids (setBody "Milk" (setTitle "Plan"
                                (startEdit "" (fst Sample.opened)))))).
  { vm_compute. intros [H|[H|[]]]; discriminate. }
  assert (Hdraft : trim (title (setBody "Milk" (setTitle "Plan"
                                  (startEdit "" (fst Sample.opened))))) <> "")
    by (vm_compute; discriminate).
  split; [reflexivity|]. split; [exact Hnot|]. split; [exact Hdraft|].
  split; [reflexivity|]. split; [reflexivity|].
  intros Hclaim.
  destruct (Hclaim (setBody "Milk" (setTitle "Plan" (startEdit "" (fst Sample.opened))))
                   (snd Sample.opened) "" eq_refl Hnot
                   (or_introl Hdraft)) as [Hidle _].
  vm_compute in Hidle. discriminate.
Qed.

(** C2, as the code has it.  A save from an editing session on an id that is
    not empty and that no note has, with a draft left after trimming, runs
    the update branch like any other save: no element matches, the new array
    holds the same objects in the same order, the editor is closed and both
    drafts are emptied.  The code raises no signal that tells this case from
    a successful update, and the unchanged collection is handed to
    [saveNotesToStorage] once more (the old array being one that was
    allocated, as it is in every state of a run, [run_array_allocated]). *)
Theorem update_of_missing_id_closes_editor :
  forall (s : State) (w : World) (i : string),
    mode s = Editing i ->
    i <> "" ->
    ~ In i (ids s) ->
    trim (title s) <> "" \/ trim (body s) <> "" ->
    let '(s', w') := step SaveCurrent (s, w) in
    mode s' = Idle
    /\ title s' = ""
    /\ body s' = ""
    /\ elems (notes s') = elems (notes s)
    /\ (arr_ref (notes s) < next_ref w ->
        save_calls w' = contents (notes s) :: save_calls w).
Proof.
  intros s w i Hmode Hi Hnot Hdraft.
  pose proof (update_step s w i Hmode Hi Hdraft) as H. cbv zeta in H.
  destruct (step SaveCurrent (s, w)) as [s' w'].
  destruct H as (Hsess & _ & _ & Hsame & Hsave).
  unfold session in Hsess. injection Hsess as He Ht Hb.
  split; [apply mode_idle; exact He|].
  split; [exact Ht|]. split; [exact Hb|].
  split; [exact (Hsame Hnot)|].
  intros Hwf. destruct (Hsave Hwf) as [Hcalls _].
  rewrite Hcalls. unfold contents. rewrite (Hsame Hnot). reflexivity.
Qed.

Lemma update_of_missing_id_closes_editor_witness :
  let s := setBody "Milk" (setTitle "Plan" (startEdit "zzz" (fst Sample.opened))) in
  let w := snd Sample.opened in
  mode s = Editing "zzz"
  /\ "zzz" <> ""
  /\ ~ In "zzz" (ids s)
  /\ (trim (title s) <> "" \/ trim (body s) <> "")
  /\ arr_ref (notes s) < next_ref w
  /\ let '(s', w') := step SaveCurrent (s, w) in
     mode s' = Idle
     /\ title s' = ""
     /\ body s' = ""
     /\ elems (notes s') = elems (notes s)
     /\ (arr_ref (notes s) < next_ref w ->
         save_calls w' = contents (notes s) :: save_calls w).
Proof.
  cbv zeta.
  assert (Hnot : ~ In "zzz" (ids (setBody "Milk" (setTitle "Plan"
                                   (startEdit "zzz" (fst Sample.opened)))))).
  { vm_compute. intros [H|[H|[]]]; discriminate. }
  assert (Hne : "zzz" <> "") by discriminate.
  assert (Hdraft : trim (title (setBody "Milk" (setTitle "Plan"
                                 (startEdit "zzz" (fst Sample.opened))))) <> ""
                   \/ trim (body (setBody "Milk" (setTitle "Plan"
                                 (startEdit "zzz" (fst Sample.opened))))) <> "")
    by (left; vm_compute; discriminate).
  split; [reflexivity|]. split; [exact Hne|]. split; [exact Hnot|].
  split; [exact Hdraft|]. split; [vm_compute; lia|].
  exact (update_of_missing_id_closes_editor
           (setBody "Milk" (setTitle "Plan" (startEdit "zzz" (fst Sample.opened))))
           (snd Sample.opened) "zzz" eq_refl Hne Hnot Hdraft).
Defined.

(* ------------------------------------------------------------------ *)

(** C9, counterexample.  The storage holds a note whose id is the empty
    string.  The user opens it with [Edit] and presses [Save] without
    typing: [if (editingId)] is false, so the note keeps its [updatedAt],
    nothing is written and the editor stays open. *)
Lemma save_of_note_with_empty_id_does_nothing :
  let w0 := Sample.world (Sample.stored [Sample.empty_id]) true in
  let before := step (StartEdit "") (mount w0) in
  let after := step SaveCurrent before in
  ui_run (mount w0) [StartEdit ""; SaveCurrent] after
  /\ mode (fst before) = Editing ""
  /\ contents (notes (fst before)) = [Sample.empty_id]
  /\ trim (title (fst before)) = Note.title Sample.empty_id
  /\ trim (body (fst before)) = Note.body Sample.empty_id
  /\ contents (notes (fst after)) = [Sample.empty_id]
  /\ save_calls (snd after) = save_calls (snd before)
  /\ mode (fst after) = Editing ""
  /\ ~ unchanged_edit_is_always_written.
Proof.
  cbv zeta. split.
  { repeat (eapply ui_next; [reflexivity|]). apply ui_done. }
  repeat split.
  intros Hclaim.
  pose (before := step (StartEdit "")
                       (mount (Sample.world (Sample.stored [Sample.empty_id]) true))).
  apply (Hclaim (fst before) (snd before) ""
                (mkObj 0 Sample.empty_id) eq_refl (or_introl eq_refl)
                eq_refl eq_refl eq_refl).
  reflexivity.
Qed.

(** C9, as the code has it.  For a note whose id is not empty, a save from
    the editing session on that id, with trimmed drafts that are the note's
    own title and body and are not both empty, still rewrites every note
    with that id (the title and the body from the drafts, [updatedAt] from
    the clock read by the handler) and hands the new collection to
    [saveNotesToStorage], which stores it when the medium takes it: nothing
    compares the drafts with the note.  The hypothesis on addresses says
    that the array of notes is one that was allocated, as it is in every
    state of a run ([run_array_allocated]), so the array that [map] returns
    is another one. *)
Theorem unchanged_edit_is_rewritten_and_written :
  forall (s : State) (w : World) (i : string) (n : NoteObj),
    mode s = Editing i ->
    i <> "" ->
    In n (elems (notes s)) ->
    Note.id (val n) = i ->
    trim (title s) = Note.title (val n) ->
    trim (body s) = Note.body (val n) ->
    Note.title (val n) <> "" \/ Note.body (val n) <> "" ->
    arr_ref (notes s) < next_ref w ->
    let now := iso8601 (clock w (ticks w)) in
    let '(s', w') := step SaveCurrent (s, w) in
    contents (notes s')
    = rewriteAll i (Note.title (val n)) (Note.body (val n)) now (contents (notes s))
    /\ In (Note.mk i (or_else (Note.title (val n)) "Untitled")
                   (Note.body (val n)) now)
          (contents (notes s'))
    /\ (forall m, In m (contents (notes s')) ->
                  Note.id m = i -> Note.updatedAt m = now)
    /\ save_calls w' = contents (notes s') :: save_calls w
    /\ (accepts (localStorage w) (JSON_stringify (contents (notes s'))) = true ->
        item (localStorage w') = Some (JSON_stringify (contents (notes s')))).
Proof.
  intros s w i n Hmode Hi Hin Hid Ht Hb Hfilled Hwf.
  assert (Hdraft : trim (title s) <> "" \/ trim (body s) <> "")
    by (rewrite Ht, Hb; exact Hfilled).
  pose proof (update_step s w i Hmode Hi Hdraft) as H. cbv zeta in H.
  cbv zeta. destruct (step SaveCurrent (s, w)) as [s' w'].
  destruct H as (_ & _ & Hc & _ & Hsave).
  destruct (Hsave Hwf) as [Hcalls Hstore].
  rewrite Ht, Hb in Hc.
  split; [exact Hc|]. split; [|split; [|split; [exact Hcalls|]]].
  - rewrite Hc. unfold rewriteAll, contents. apply in_map_iff.
    exists (val n). split; [|apply in_map; exact Hin].
    rewrite Hid, String.eqb_refl. unfold rewritten. rewrite Hid. reflexivity.
  - intros m Hm Hmid. rewrite Hc in Hm. unfold rewriteAll in Hm.
    apply in_map_iff in Hm. destruct Hm as [m0 [Hm0 _]].
    destruct (Note.id m0 =? i) eqn:E.
    + subst m. reflexivity.
    + subst m. apply String.eqb_neq in E. contradiction.
  - intros Hacc. rewrite Hstore. unfold setItem. rewrite Hacc. reflexivity.
Qed.

Lemma unchanged_edit_is_rewritten_and_written_witness :
  let sw := step (StartEdit "a") Sample.opened in
  let s := fst sw in
  let w := snd sw in
  let n := mkObj 0 Sample.groceries in
  let now := iso8601 (clock w (ticks w)) in
  mode s = Editing "a"
  /\ In n (elems (notes s))
  /\ trim (title s) = Note.title (val n)
  /\ trim (body s) = Note.body (val n)
  /\ arr_ref (notes s) < next_ref w
  /\ let '(s', w') := step SaveCurrent (s, w) in
     contents (notes s')
     = rewriteAll "a" (Note.title (val n)) (Note.body (val n)) now (contents (notes s))
     /\ In (Note.mk "a" (or_else (Note.title (val n)) "Untitled")
                    (Note.body (val n)) now)
           (contents (notes s'))
     /\ (forall m, In m (contents (notes s')) ->
                   Note.id m = "a" -> Note.updatedAt m = now)
     /\ save_calls w' = contents (notes s') :: save_calls w
     /\ (accepts (localStorage w) (JSON_stringify (contents (notes s'))) = true ->
         item (localStorage w') = Some (JSON_stringify (contents (notes s')))).
Proof.
  cbv zeta.
  assert (Hwf : arr_ref (notes (fst (step (StartEdit "a") Sample.opened)))
                < next_ref (snd (step (StartEdit "a") Sample.opened)))
    by (vm_compute; lia).
  split; [reflexivity|]. split; [left; reflexivity|].
  split; [reflexivity|]. split; [reflexivity|]. split; [exact Hwf|].
  apply (unchanged_edit_is_rewritten_and_written
           (fst (step (StartEdit "a") Sample.opened))
           (snd (step (StartEdit "a") Sample.opened))
           "a" (mkObj 0 Sample.groceries)).
  - reflexivity.
  - discriminate.
  - left. reflexivity.
  - reflexivity.
  - reflexivity.
  - reflexivity.
  - left. discriminate.
  - exact Hwf.
Defined.

(* ================================================================== *)
(** ** Saving to the storage and loading again *)

Lemma filter_isObjectLike_notes (ns : list Note.t) :
  filter isObjectLike (map noteToJson ns) = map noteToJson ns.
Proof.
  induction ns as [|n rest IH]; simpl; [reflexivity|]. rewrite IH. reflexivity.
Qed.

(** A stringified note is read back as it was; only an address is used. *)
Lemma coerceNote_noteToJson (n : Note.t) (w : World) :
  coerceNote (noteToJson n) w = (Some (mkObj (next_ref w) n), snd (alloc w)).
Proof.
  destruct n as [i t b u]. reflexivity.
Qed.

Lemma coerceAll_notes (ns : list Note.t) :
  forall w, exists os w',
    coerceAll (map noteToJson ns) w = (Some os, w')
    /\ map val os = ns
    /\ localStorage w' = localStorage w.
Proof.
  induction ns as [|n rest IH]; intros w.
  - exists [], w. repeat split.
  - cbn [map coerceAll]. rewrite coerceNote_noteToJson.
    destruct (IH (snd (alloc w))) as (os & w' & Hco & Hval & Hst).
    rewrite Hco. exists (mkObj (next_ref w) n :: os), w'.
    cbn [map val]. rewrite Hval. repeat split. exact Hst.
Qed.

Lemma load_of_stored_notes (ns : list Note.t) (w : World) :
  item (localStorage w) = Some (JSON_stringify ns) ->
  contents (fst (loadNotesFromStorage w)) = ns.
Proof.
  intros Hitem. unfold loadNotesFromStorage, loadNotes_try, getItem.
  rewrite Hitem. unfold JSON_stringify.
  rewrite filter_isObjectLike_notes.
  destruct (coerceAll_notes ns w) as (os & w' & Hco & Hval & _).
  rewrite Hco. cbn [alloc]. exact Hval.
Qed.

Lemma coerceNote_with_calls (calls : list (list Note.t)) (n : json) (w : World) :
  coerceNote n (with_calls calls w)
  = (fst (coerceNote n w), with_calls calls (snd (coerceNote n w))).
Proof.
  unfold coerceNote, generateId, Date_now, Math_random_hex, nowISOString,
    readClock, alloc, with_calls.
  cbn [clock ticks random draws next_ref localStorage save_calls].
  destruct (nullish (prop "id" n)); cbn [fst snd];
    repeat match goal with
           | |- context [match ToString ?x with _ => _ end] =>
               destruct (ToString x); cbn [fst snd]; try reflexivity
           end;
    destruct (prop "updatedAt" n) as [[| | | u | |]|]; reflexivity.
Qed.

Lemma coerceAll_with_calls (calls : list (list Note.t)) (xs : list json) :
  forall w,
    coerceAll xs (with_calls calls w)
    = (fst (coerceAll xs w), with_calls calls (snd (coerceAll xs w))).
Proof.
  induction xs as [|x rest IH]; intros w; cbn [coerceAll]; [reflexivity|].
  rewrite coerceNote_with_calls.
  destruct (coerceNote x w) as [[o|] w1]; cbn [fst snd]; [|reflexivity].
  rewrite IH. destruct (coerceAll rest w1) as [[os|] w2]; reflexivity.
Qed.

Lemma load_with_calls (calls : list (list Note.t)) (w : World) :
  fst (loadNotesFromStorage (with_calls calls w)) = fst (loadNotesFromStorage w).
Proof.
  unfold loadNotesFromStorage, loadNotes_try, getItem.
  change (localStorage (with_calls calls w)) with (localStorage w).
  destruct (item (localStorage w)) as [[| |j]|]; try reflexivity.
  destruct j; try reflexivity.
  rewrite coerceAll_with_calls.
  destruct (coerceAll (filter isObjectLike l) w) as [[os|] w1]; reflexivity.
Qed.

Lemma save_rejected_keeps_item (ns : list Note.t) (w : World) :
  accepts (localStorage w) (JSON_stringify ns) = false ->
  localStorage (saveNotesToStorage ns w) = localStorage w.
Proof.
  intros Hrej. unfold saveNotesToStorage, setItem. rewrite Hrej. reflexivity.
Qed.

(** C8, counterexample.  On a storage that takes no value (its quota is
    exceeded) and holds nothing, [setItem] throws, the exception is
    swallowed, and loading gives the empty collection. *)
Lemma save_on_full_storage_loads_nothing :
  let w := Sample.world None false in
  contents (fst (loadNotesFromStorage (saveNotesToStorage [Sample.groceries] w))) = []
  /\ ~ save_then_load_is_identity.
Proof.
  split; [reflexivity|].
  intros Hclaim.
  specialize (Hclaim [Sample.groceries] (Sample.world None false)).
  vm_compute in Hclaim. discriminate.
Qed.

(** C8, as the code has it.  When the storage takes the serialised
    collection, loading after saving gives the notes that were saved, element
    for element and in the same order.  When it does not, the stored text
    is left as it was, so loading gives what it gave before the save. *)
Theorem save_then_load_roundtrip :
  forall (ns : list Note.t) (w : World),
    (accepts (localStorage w) (JSON_stringify ns) = true ->
     contents (fst (loadNotesFromStorage (saveNotesToStorage ns w))) = ns)
    /\ (accepts (localStorage w) (JSON_stringify ns) = false ->
        localStorage (saveNotesToStorage ns w) = localStorage w
        /\ contents (fst (loadNotesFromStorage (saveNotesToStorage ns w)))
           = contents (fst (loadNotesFromStorage w))).
Proof.
  intros ns w. split.
  - intros Hacc. apply load_of_stored_notes.
    unfold saveNotesToStorage, setItem. rewrite Hacc. reflexivity.
  - intros Hrej. split; [apply save_rejected_keeps_item; exact Hrej|].
    assert (Hw : saveNotesToStorage ns w = with_calls (ns :: save_calls w) w).
    { unfold saveNotesToStorage, setItem, with_calls. rewrite Hrej. reflexivity. }
    rewrite Hw, load_with_calls. reflexivity.
Qed.

Lemma save_then_load_roundtrip_witness :
  let ns := [Sample.groceries; Sample.chores] in
  let w := Sample.world None true in
  let w' := Sample.world Sample.only_an_id false in
  accepts (localStorage w) (JSON_stringify ns) = true
  /\ contents (fst (loadNotesFromStorage (saveNotesToStorage ns w))) = ns
  /\ accepts (localStorage w') (JSON_stringify ns) = false
  /\ localStorage (saveNotesToStorage ns w') = localStorage w'
  /\ contents (fst (loadNotesFromStorage (saveNotesToStorage ns w')))
     = contents (fst (loadNotesFromStorage w')).
Proof.
  cbv zeta.
  split; [reflexivity|].
  split.
  - exact (proj1 (save_then_load_roundtrip [Sample.groceries; Sample.chores]
                    (Sample.world None true)) eq_refl).
  - split; [reflexivity|].
    exact (proj2 (save_then_load_roundtrip [Sample.groceries; Sample.chores]
                    (Sample.world Sample.only_an_id false)) eq_refl).
Defined.

(* ================================================================== *)
(** ** Blank notes and the storage *)

Lemma trimStart_headOk (s : string) : headOk (trimStart s).
Proof.
  induction s as [|c r IH]; simpl; [exact I|].
  destruct (isWhiteSpace c) eqn:E; [exact IH | exact E].
Qed.

Lemma trimStart_fixed (x : string) : headOk x -> trimStart x = x.
Proof.
  destruct x as [|c r]; simpl; [reflexivity|]. intros H. rewrite H. reflexivity.
Qed.

Lemma trimEnd_headOk (x : string) : headOk x -> headOk (trimEnd x).
Proof.
  destruct x as [|c r]; simpl; [trivial|]. intros H.
  destruct (trimEnd r); [rewrite H|]; exact H.
Qed.

Lemma trimEnd_idempotent (x : string) : trimEnd (trimEnd x) = trimEnd x.
Proof.
  induction x as [|c r IH]; simpl; [reflexivity|].
  destruct (trimEnd r) as [|c' r'] eqn:E.
  - destruct (isWhiteSpace c) eqn:Ec; simpl; [reflexivity|].
    rewrite Ec. reflexivity.
  - change (trimEnd (String c (String c' r'))) with
      (match trimEnd (String c' r') with
       | EmptyString => if isWhiteSpace c then EmptyString else String c EmptyString
       | r'' => String c r''
       end).
    rewrite IH. reflexivity.
Qed.

Lemma trim_idempotent (s : string) : trim (trim s) = trim s.
Proof.
  unfold trim.
  rewrite (trimStart_fixed (trimEnd (trimStart s)))
    by (apply trimEnd_headOk, trimStart_headOk).
  apply trimEnd_idempotent.
Qed.

(** The title that [saveCurrent] writes is never empty after trimming. *)
Lemma written_title_filled (t : string) :
  truthy (trim (or_else (trim t) "Untitled")) = true.
Proof.
  unfold or_else. destruct (truthy (trim t)) eqn:E.
  - rewrite trim_idempotent. exact E.
  - reflexivity.
Qed.

Lemma written_note_filled (i t b u : string) :
  blank (Note.mk i (or_else (trim t) "Untitled") b u) = false.
Proof.
  unfold blank. cbn [Note.title]. rewrite written_title_filled. reflexivity.
Qed.

(** Every element that [map] returns is an element it was given or a
    rewritten one. *)
Lemma mapUpdate_elements (e t tb now : string) (ns : list NoteObj) :
  forall w o,
    In o (fst (mapUpdate e (trim t) tb now ns w)) ->
    In o ns \/ blank (val o) = false.
Proof.
  induction ns as [|n rest IH]; intros w o; cbn [mapUpdate]; [intros []|].
  destruct (Note.id (val n) =? e).
  - cbn [alloc].
    match goal with |- context [mapUpdate e (trim t) tb now rest ?w1] =>
      specialize (IH w1 o); destruct (mapUpdate e (trim t) tb now rest w1) as [r' w2]
    end.
    cbn [fst] in *. intros [Ho|Ho].
    + right. subst o. apply written_note_filled.
    + destruct (IH Ho) as [H|H]; [left; right; exact H | right; exact H].
  - specialize (IH w o). destruct (mapUpdate e (trim t) tb now rest w) as [r' w2].
    cbn [fst] in *. intros [Ho|Ho].
    + left. left. exact Ho.
    + destruct (IH Ho) as [H|H]; [left; right; exact H | right; exact H].
Qed.

(** The notes after a handler are notes that were there or notes with a
    title; and no handler calls [saveNotesToStorage] itself. *)
Lemma handle_elements (e : event) (s : State) (w : World) (o : NoteObj) :
  In o (elems (notes (fst (handle e s w)))) ->
  In o (elems (notes s)) \/ blank (val o) = false.
Proof.
  destruct e; cbn [handle fst]; try (intros H; left; exact H).
  - unfold deleteNote. cbn [alloc].
    destruct (editingId_is s i); cbn [fst cancelEdit notes elems];
      intros H; apply filter_In in H; left; tauto.
  - unfold saveCurrent.
    destruct (negb (truthy (trim (title s))) && negb (truthy (trim (body s))));
      [intros H; left; exact H|].
    cbn [nowISOString readClock].
    destruct (editingId_is s "NEW").
    + cbn [generateId Date_now Math_random_hex readClock alloc fst notes elems].
      intros [H|H]; [right | left; exact H].
      subst o. apply written_note_filled.
    + destruct (editingId s) as [e|]; [|intros H; left; exact H].
      destruct (truthy e); [|intros H; left; exact H].
      match goal with |- context [mapUpdate e (trim ?t) ?tb ?now ?ns ?w1] =>
        pose proof (mapUpdate_elements e t tb now ns w1 o) as Hm;
        destruct (mapUpdate e (trim t) tb now ns w1) as [ns' w2]
      end.
      cbn [alloc fst notes elems] in *. exact Hm.
Qed.

Lemma handle_calls (e : event) (s : State) (w : World) :
  save_calls (snd (handle e s w)) = save_calls w.
Proof.
  destruct e; cbn [handle snd]; try reflexivity.
  - unfold deleteNote. cbn [alloc]. destruct (editingId_is s i); reflexivity.
  - unfold saveCurrent.
    destruct (negb (truthy (trim (title s))) && negb (truthy (trim (body s))));
      [reflexivity|].
    cbn [nowISOString readClock].
    destruct (editingId_is s "NEW"); [reflexivity|].
    destruct (editingId s) as [e|]; [|reflexivity].
    destruct (truthy e); [|reflexivity].
    match goal with |- context [mapUpdate e ?t ?tb ?now ?ns ?w1] =>
      pose proof (mapUpdate_world e t tb now ns w1) as Hw;
      destruct (mapUpdate e t tb now ns w1) as [ns' w2]
    end.
    destruct Hw as (_ & _ & _ & _ & _ & H6 & _). cbn [alloc snd] in *.
    exact H6.
Qed.

Lemma with_own_calls (w : World) : with_calls (save_calls w) w = w.
Proof. destruct w. reflexivity. Qed.

Lemma load_calls (w : World) :
  save_calls (snd (loadNotesFromStorage w)) = save_calls w.
Proof.
  unfold loadNotesFromStorage, loadNotes_try, getItem.
  destruct (item (localStorage w)) as [[| |j]|]; try reflexivity.
  destruct j; try reflexivity.
  pose proof (coerceAll_with_calls (save_calls w) (filter isObjectLike l) w) as H.
  rewrite with_own_calls in H.
  destruct (coerceAll (filter isObjectLike l) w) as [[os|] w1];
    cbn [fst snd] in H; injection H as H; rewrite H; reflexivity.
Qed.

Lemma step_filled_or_from (L : list Note.t) (e : event) (s : State) (w : World) :
  filled_or_from L (s, w) -> filled_or_from L (step e (s, w)).
Proof.
  intros [Hnotes Hcalls]. cbn [fst snd] in *. unfold step.
  pose proof (handle_elements e s w) as Hel.
  pose proof (handle_calls e s w) as Hca.
  destruct (handle e s w) as [s1 w1]. cbn [fst snd] in *.
  assert (H1 : forall n, In n (contents (notes s1)) -> blank n = false \/ In n L).
  { intros n Hn. unfold contents in Hn. apply in_map_iff in Hn.
    destruct Hn as [o [Hv Ho]]. subst n.
    destruct (Hel o Ho) as [H|H]; [|left; exact H].
    apply Hnotes. unfold contents. apply in_map. exact H. }
  destruct (commit_frame s s1 w1) as [Fn _].
  split.
  - cbn [fst]. rewrite Fn. exact H1.
  - rewrite commit_world. unfold after_effects.
    destruct (arr_ref (notes s) =? arr_ref (notes s1))%nat.
    + rewrite Hca. exact Hcalls.
    + unfold saveNotesToStorage. cbn [save_calls]. rewrite Hca.
      intros ns n [Hns|Hns] Hn.
      * subst ns. apply H1. exact Hn.
      * apply (Hcalls ns n Hns Hn).
Qed.

Lemma run_filled_or_from (L : list Note.t) (es : list event) :
  forall sw, filled_or_from L sw -> filled_or_from L (run es sw).
Proof.
  induction es as [|e rest IH]; intros [s w] H; cbn [run]; [exact H|].
  apply IH. apply step_filled_or_from. exact H.
Qed.

(** C1, counterexample.  The storage holds an array with one element that
    has an id and nothing else.  [loadNotesFromStorage] turns it into a note
    with an empty title and an empty body, and the storage effect of the
    first render hands that note to [saveNotesToStorage], which writes it
    back. *)
Lemma blank_note_from_storage_is_saved :
  let w0 := Sample.world Sample.only_an_id true in
  let n := Note.mk "a" "" "" "2026-01-14T04:19:00.000Z" in
  contents (fst (loadNotesFromStorage w0)) = [n]
  /\ blank n = true
  /\ save_calls (snd (mount w0)) = [[n]]
  /\ item (localStorage (snd (mount w0))) = Some (JSON_stringify [n])
  /\ ~ blank_note_never_saved.
Proof.
  cbv zeta. repeat split.
  intros Hclaim.
  specialize (Hclaim (Sample.world Sample.only_an_id true) []
                     [Note.mk "a" "" "" "2026-01-14T04:19:00.000Z"]
                     (Note.mk "a" "" "" "2026-01-14T04:19:00.000Z")
                     eq_refl (or_introl eq_refl) (or_introl eq_refl)).
  discriminate.
Qed.

(** C1, as the code has it.  Started on a world in which nothing was saved
    yet, whatever events follow, every note of every collection handed to
    [saveNotesToStorage] has a title or a body left after trimming, or is
    one of the notes that [loadNotesFromStorage] returned at the start:
    create and update never write a blank note (a blank input is discarded,
    and a written title is never empty), but a blank note that comes from
    the storage stays in the collection and is saved with it. *)
Theorem saved_notes_are_filled_or_loaded :
  forall (w0 : World) (es : list event) (ns : list Note.t) (n : Note.t),
    save_calls w0 = [] ->
    In ns (save_calls (snd (run es (mount w0)))) ->
    In n ns ->
    blank n = false \/ In n (contents (fst (loadNotesFromStorage w0))).
Proof.
  intros w0 es ns n Hfresh Hns Hn.
  assert (Hinit : filled_or_from (contents (fst (loadNotesFromStorage w0)))
                                 (mount w0)).
  { unfold mount. pose proof (load_calls w0) as Hc.
    destruct (loadNotesFromStorage w0) as [arr w1]. cbn [fst snd] in *.
    split; cbn [fst snd notes].
    - intros m Hm. right. exact Hm.
    - unfold saveNotesToStorage. cbn [save_calls]. rewrite Hc, Hfresh.
      intros ms m [Hms|[]] Hm. subst ms. right. exact Hm. }
  destruct (run_filled_or_from _ es _ Hinit) as [_ Hcalls].
  exact (Hcalls ns n Hns Hn).
Qed.

Lemma saved_notes_are_filled_or_loaded_witness :
  let w0 := Sample.world Sample.only_an_id true in
  let es := [StartNew; SetTitle "  "; SetBody " Milk "; SaveCurrent] in
  let n := Note.mk "1768364340002_8c3fa1d2" "Untitled" "Milk"
                   "2026-01-14T04:19:00.001Z" in
  let old := Note.mk "a" "" "" "2026-01-14T04:19:00.000Z" in
  save_calls w0 = []
  /\ save_calls (snd (run es (mount w0))) = [[n; old]; [old]]
  /\ (blank n = false \/ In n (contents (fst (loadNotesFromStorage w0))))
  /\ (blank old = false \/ In old (contents (fst (loadNotesFromStorage w0)))).
Proof.
  cbv zeta.
  assert (Hcalls : save_calls (snd (run [StartNew; SetTitle "  "; SetBody " Milk "; SaveCurrent]
                                (mount (Sample.world Sample.only_an_id true))))
                   = [[Note.mk "1768364340002_8c3fa1d2" "Untitled" "Milk"
                               "2026-01-14T04:19:00.001Z";
                       Note.mk "a" "" "" "2026-01-14T04:19:00.000Z"];
                      [Note.mk "a" "" "" "2026-01-14T04:19:00.000Z"]])
    by reflexivity.
  split; [reflexivity|]. split; [exact Hcalls|]. split.
  - apply (saved_notes_are_filled_or_loaded
             (Sample.world Sample.only_an_id true)
             [StartNew; SetTitle "  "; SetBody " Milk "; SaveCurrent]
             [Note.mk "1768364340002_8c3fa1d2" "Untitled" "Milk"
                      "2026-01-14T04:19:00.001Z";
              Note.mk "a" "" "" "2026-01-14T04:19:00.000Z"]).
    + reflexivity.
    + rewrite Hcalls. left. reflexivity.
    + left. reflexivity.
  - right. left. reflexivity.
Defined.

(* ================================================================== *)
(** ** Searching, over UTF-16 code units *)

Lemma sameUnits_spec (a b : Utf16.ustring) :
  Utf16.sameUnits a b = true <-> a = b.
Proof.
  revert b. induction a as [|x a IH]; intros [|y b]; cbn [Utf16.sameUnits];
    try (split; [discriminate | discriminate]); [tauto|].
  rewrite andb_true_iff, N.eqb_eq, IH. split.
  - intros [-> ->]. reflexivity.
  - intros H. injection H as -> ->. split; reflexivity.
Qed.

(** Every code unit but U+0130 is lower-cased to one code unit. *)
Lemma lowerUnit_single (u : N) :
  (u =? 0x130)%N = false -> exists v, Utf16.lowerUnit u = [v].
Proof.
  intros H. unfold Utf16.lowerUnit. rewrite H.
  repeat match goal with
         | |- context [if ?c then _ else _] => destruct c
         end; eexists; reflexivity.
Qed.

Lemma lowerUnit_nonempty (u : N) : Utf16.lowerUnit u <> [].
Proof.
  unfold Utf16.lowerUnit.
  repeat match goal with
         | |- context [if ?c then _ else _] => destruct c
         end; discriminate.
Qed.

Lemma plain_single (u : N) :
  Utf16.plain u = true -> (u =? 0x130)%N = false.
Proof.
  unfold Utf16.plain. intros H. apply andb_true_iff in H.
  destruct H as [_ H]. apply negb_true_iff in H. exact H.
Qed.

Lemma plain_modelled (u : N) :
  Utf16.plain u = true -> Utf16.modelled u = true.
Proof.
  unfold Utf16.plain. intros H. apply andb_true_iff in H. tauto.
Qed.

Lemma toLowerCase_nil (s : Utf16.ustring) :
  Utf16.toLowerCase s = [] <-> s = [].
Proof.
  destruct s as [|u r]; [tauto|]. split; [|discriminate].
  unfold Utf16.toLowerCase. cbn [flat_map]. intros H.
  apply app_eq_nil in H. destruct H as [H _].
  exfalso. exact (lowerUnit_nonempty u H).
Qed.

Lemma startsWith_toLowerCase (q h : Utf16.ustring) :
  Utf16.plainText q = true ->
  Utf16.plainText h = true ->
  Utf16.startsWith (Utf16.toLowerCase h) (Utf16.toLowerCase q)
  = Utf16.starts_ignoring_case q h.
Proof.
  revert h. induction q as [|c q IH]; intros h Hq Hh.
  - reflexivity.
  - cbn [Utf16.plainText forallb] in Hq. apply andb_true_iff in Hq.
    destruct Hq as [Hc Hq].
    destruct (lowerUnit_single c (plain_single c Hc)) as [c' Ec].
    destruct h as [|d h].
    + unfold Utf16.toLowerCase. cbn [flat_map]. rewrite Ec. reflexivity.
    + cbn [Utf16.plainText forallb] in Hh. apply andb_true_iff in Hh.
      destruct Hh as [Hd Hh].
      destruct (lowerUnit_single d (plain_single d Hd)) as [d' Ed].
      cbn [Utf16.starts_ignoring_case]. unfold Utf16.same_ignoring_case.
      rewrite <- (IH h Hq Hh).
      unfold Utf16.toLowerCase. cbn [flat_map]. rewrite Ec, Ed.
      cbn [app Utf16.startsWith Utf16.sameUnits].
      rewrite andb_true_r. reflexivity.
Qed.

Lemma includes_toLowerCase (q h : Utf16.ustring) :
  Utf16.plainText q = true ->
  Utf16.plainText h = true ->
  Utf16.includes (Utf16.toLowerCase h) (Utf16.toLowerCase q)
  = Utf16.occurs_ignoring_case q h.
Proof.
  intros Hq. induction h as [|d h IH]; intros Hh.
  - change (Utf16.includes (Utf16.toLowerCase []) (Utf16.toLowerCase q))
      with (Utf16.startsWith (Utf16.toLowerCase []) (Utf16.toLowerCase q)
            || false).
    rewrite (startsWith_toLowerCase q [] Hq Hh). reflexivity.
  - pose proof Hh as Hh0.
    cbn [Utf16.plainText forallb] in Hh. apply andb_true_iff in Hh.
    destruct Hh as [Hd Hh].
    destruct (lowerUnit_single d (plain_single d Hd)) as [d' Ed].
    cbn [Utf16.occurs_ignoring_case].
    rewrite <- (IH Hh), <- (startsWith_toLowerCase q (d :: h) Hq Hh0).
    unfold Utf16.toLowerCase. cbn [flat_map]. rewrite Ed.
    reflexivity.
Qed.

Lemma forallb_trimStart (P : N -> bool) (s : Utf16.ustring) :
  forallb P s = true -> forallb P (Utf16.trimStart s) = true.
Proof.
  induction s as [|u r IH]; cbn [Utf16.trimStart]; [tauto|].
  intros H. destruct (Utf16.isWhiteSpace u); [|exact H].
  cbn [forallb] in H. apply andb_true_iff in H. apply IH. tauto.
Qed.

Lemma forallb_trimEnd (P : N -> bool) (s : Utf16.ustring) :
  forallb P s = true -> forallb P (Utf16.trimEnd s) = true.
Proof.
  induction s as [|u r IH]; cbn [Utf16.trimEnd]; [tauto|].
  intros H. cbn [forallb] in H. apply andb_true_iff in H.
  destruct H as [Hu Hr]. specialize (IH Hr).
  destruct (Utf16.trimEnd r) as [|x r'].
  - destruct (Utf16.isWhiteSpace u); [reflexivity|].
    cbn [forallb]. rewrite Hu. reflexivity.
  - cbn [forallb] in *. rewrite Hu. exact IH.
Qed.

Lemma plainText_trim (s : Utf16.ustring) :
  Utf16.plainText s = true -> Utf16.plainText (Utf16.trim s) = true.
Proof.
  intros H. unfold Utf16.plainText, Utf16.trim.
  apply forallb_trimEnd, forallb_trimStart. exact H.
Qed.

Lemma plainText_haystack (n : Utf16.note) :
  Utf16.plainNote n = true ->
  Utf16.plainText (Utf16.title n ++ Utf16.newline ++ Utf16.body n) = true.
Proof.
  unfold Utf16.plainNote, Utf16.plainText. intros H.
  apply andb_true_iff in H. destruct H as [Ht Hb].
  rewrite forallb_app, Ht. cbn [Utf16.newline app forallb].
  rewrite Hb. reflexivity.
Qed.

Lemma truthy_toLowerCase (s : Utf16.ustring) :
  Utf16.truthy (Utf16.toLowerCase s) = Utf16.truthy s.
Proof.
  destruct s as [|u r]; [reflexivity|].
  destruct (Utf16.toLowerCase (u :: r)) eqn:E; [|reflexivity].
  apply (proj1 (toLowerCase_nil _)) in E. discriminate.
Qed.

(** The search of the code, whatever the strings: all notes when the query
    is empty after trimming, otherwise the notes whose lower-cased title,
    newline and body include the lower-cased trimmed query. *)
Lemma filteredNotes_unfolded (ns : list Utf16.note) (query : Utf16.ustring) :
  Utf16.filteredNotes ns query
  = if Utf16.truthy (Utf16.trim query)
    then filter (fun n =>
                   Utf16.includes
                     (Utf16.toLowerCase
                        (Utf16.title n ++ Utf16.newline ++ Utf16.body n))
                     (Utf16.toLowerCase (Utf16.trim query)))
                ns
    else ns.
Proof.
  unfold Utf16.filteredNotes. rewrite truthy_toLowerCase.
  destruct (Utf16.truthy (Utf16.trim query)); reflexivity.
Qed.

Lemma filter_ext_on {A : Type} (f g : A -> bool) (l : list A) :
  (forall x, In x l -> f x = g x) -> filter f l = filter g l.
Proof.
  induction l as [|x l IH]; intros H; cbn [filter]; [reflexivity|].
  rewrite (H x (or_introl eq_refl)), IH; [reflexivity|].
  intros y Hy. apply H. right. exact Hy.
Qed.

(** On strings without U+0130 the search is the filter of the
    specification. *)
Lemma filteredNotes_refines_spec (ns : list Utf16.note) (query : Utf16.ustring) :
  forallb Utf16.plainNote ns = true ->
  Utf16.plainText query = true ->
  Utf16.filteredNotes ns query = Utf16.spec_filter ns query.
Proof.
  intros Hns Hq. rewrite filteredNotes_unfolded. unfold Utf16.spec_filter.
  destruct (Utf16.truthy (Utf16.trim query)); [|reflexivity].
  apply filter_ext_on. intros n Hn.
  apply includes_toLowerCase.
  - apply plainText_trim. exact Hq.
  - apply plainText_haystack.
    rewrite forallb_forall in Hns. apply Hns. exact Hn.
Qed.

Lemma starts_ignoring_case_spec (q h : Utf16.ustring) :
  Utf16.starts_ignoring_case q h = true <->
  exists mid post, h = mid ++ post /\ Utf16.eq_ignoring_case mid q.
Proof.
  revert h. induction q as [|c q IH]; intros h.
  - split; [|reflexivity]. intros _. exists [], h.
    split; [reflexivity | constructor].
  - destruct h as [|d h]; cbn [Utf16.starts_ignoring_case].
    + split; [discriminate|]. intros (mid & post & H & He).
      inversion He; subst. discriminate.
    + unfold Utf16.same_ignoring_case.
      rewrite andb_true_iff, sameUnits_spec, IH. split.
      * intros [Hc (mid & post & -> & He)].
        exists (d :: mid), post. split; [reflexivity|].
        constructor; [symmetry; exact Hc | exact He].
      * intros (mid & post & H & He). inversion He; subst.
        cbn [app] in H. injection H as -> ->.
        split; [symmetry; assumption|]. eexists _, _.
        split; [reflexivity | eassumption].
Qed.

Lemma occurs_ignoring_case_spec (q h : Utf16.ustring) :
  Utf16.occurs_ignoring_case q h = true <->
  exists pre mid post,
    h = pre ++ mid ++ post /\ Utf16.eq_ignoring_case mid q.
Proof.
  induction h as [|d h IH]; cbn [Utf16.occurs_ignoring_case].
  - rewrite orb_false_r, starts_ignoring_case_spec. split.
    + intros (mid & post & H & He). exists [], mid, post. tauto.
    + intros (pre & mid & post & H & He).
      destruct pre; [|discriminate]. exists mid, post. tauto.
  - rewrite orb_true_iff, IH, starts_ignoring_case_spec. split.
    + intros [(mid & post & H & He) | (pre & mid & post & H & He)].
      * exists [], mid, post. tauto.
      * exists (d :: pre), mid, post. rewrite H. tauto.
    + intros (pre & mid & post & H & He). destruct pre as [|x pre].
      * left. exists mid, post. tauto.
      * right. cbn [app] in H. injection H as _ H.
        exists pre, mid, post. tauto.
Qed.




(** *** The filter of the state machine

    The state machine holds strings of code units up to U+00FF.  On them
    its functions are those above. *)

Lemma isWhiteSpace_ofAscii (c : ascii) :
  Utf16.isWhiteSpace (N_of_ascii c) = isWhiteSpace c.
Proof. destruct c as [[] [] [] [] [] [] [] []]; reflexivity. Qed.

Lemma lowerUnit_ofAscii (c : ascii) :
  Utf16.lowerUnit (N_of_ascii c) = [N_of_ascii (lowerChar c)].
Proof. destruct c as [[] [] [] [] [] [] [] []]; reflexivity. Qed.

Lemma plain_ofAscii (c : ascii) : Utf16.plain (N_of_ascii c) = true.
Proof. destruct c as [[] [] [] [] [] [] [] []]; reflexivity. Qed.

Lemma plainText_ofString (s : string) :
  Utf16.plainText (Utf16.ofString s) = true.
Proof.
  induction s as [|c r IH]; [reflexivity|].
  cbn [Utf16.ofString Utf16.plainText forallb].
  rewrite plain_ofAscii. exact IH.
Qed.

Lemma ofString_app (a b : string) :
  Utf16.ofString (a ++ b) = Utf16.ofString a ++ Utf16.ofString b.
Proof.
  induction a as [|c r IH]; [reflexivity|].
  cbn [append Utf16.ofString app]. rewrite IH. reflexivity.
Qed.

Lemma trimStart_ofString (s : string) :
  Utf16.trimStart (Utf16.ofString s) = Utf16.ofString (trimStart s).
Proof.
  induction s as [|c r IH]; [reflexivity|].
  cbn [Utf16.ofString Utf16.trimStart trimStart].
  rewrite isWhiteSpace_ofAscii.
  destruct (isWhiteSpace c); [exact IH | reflexivity].
Qed.

Lemma trimEnd_ofString (s : string) :
  Utf16.trimEnd (Utf16.ofString s) = Utf16.ofString (trimEnd s).
Proof.
  induction s as [|c r IH]; [reflexivity|].
  cbn [Utf16.ofString Utf16.trimEnd trimEnd].
  rewrite IH, isWhiteSpace_ofAscii.
  destruct (trimEnd r) as [|d r']; cbn [Utf16.ofString].
  - destruct (isWhiteSpace c); reflexivity.
  - reflexivity.
Qed.

Lemma trim_ofString (s : string) :
  Utf16.trim (Utf16.ofString s) = Utf16.ofString (trim s).
Proof.
  unfold Utf16.trim, trim. rewrite trimStart_ofString, trimEnd_ofString.
  reflexivity.
Qed.

Lemma toLowerCase_ofString (s : string) :
  Utf16.toLowerCase (Utf16.ofString s) = Utf16.ofString (toLowerCase s).
Proof.
  induction s as [|c r IH]; [reflexivity|].
  cbn [Utf16.ofString toLowerCase].
  change (Utf16.toLowerCase (N_of_ascii c :: Utf16.ofString r))
    with (Utf16.lowerUnit (N_of_ascii c)
          ++ Utf16.toLowerCase (Utf16.ofString r)).
  rewrite lowerUnit_ofAscii, IH. reflexivity.
Qed.

Lemma N_of_ascii_eqb (a b : ascii) :
  (N_of_ascii a =? N_of_ascii b)%N = Ascii.eqb a b.
Proof.
  destruct (Ascii.eqb a b) eqn:E.
  - apply Ascii.eqb_eq in E. subst b. apply N.eqb_refl.
  - apply N.eqb_neq. intros H. apply Ascii.eqb_neq in E. apply E.
    rewrite <- (ascii_N_embedding a), <- (ascii_N_embedding b), H.
    reflexivity.
Qed.

Lemma startsWith_ofString (h q : string) :
  Utf16.startsWith (Utf16.ofString h) (Utf16.ofString q) = prefix q h.
Proof.
  revert h. induction q as [|a q IH]; intros h.
  - destruct h; reflexivity.
  - destruct h as [|b h]; [reflexivity|].
    cbn [Utf16.ofString Utf16.startsWith prefix].
    rewrite N_of_ascii_eqb, IH.
    destruct (ascii_dec a b) as [->|Hne].
    + rewrite Ascii.eqb_refl. reflexivity.
    + apply Ascii.eqb_neq in Hne. rewrite Hne. reflexivity.
Qed.

Lemma includes_ofString (h q : string) :
  Utf16.includes (Utf16.ofString h) (Utf16.ofString q) = includes h q.
Proof.
  induction h as [|b h IH].
  - change (Utf16.includes (Utf16.ofString "") (Utf16.ofString q))
      with (Utf16.startsWith (Utf16.ofString "") (Utf16.ofString q) || false).
    rewrite startsWith_ofString. reflexivity.
  - change (Utf16.includes (Utf16.ofString (String b h)) (Utf16.ofString q))
      with (Utf16.startsWith (Utf16.ofString (String b h)) (Utf16.ofString q)
            || Utf16.includes (Utf16.ofString h) (Utf16.ofString q)).
    rewrite startsWith_ofString, IH. reflexivity.
Qed.

Lemma truthy_ofString (s : string) :
  Utf16.truthy (Utf16.ofString s) = truthy s.
Proof. destruct s; reflexivity. Qed.

Lemma filter_map_swap {A B : Type} (f : B -> bool) (g : A -> B) (l : list A) :
  filter f (map g l) = map g (filter (fun x => f (g x)) l).
Proof.
  induction l as [|x l IH]; [reflexivity|].
  cbn [map filter]. rewrite IH. destruct (f (g x)); reflexivity.
Qed.

(** The search of the state machine is the search over code units, taken
    on the strings that the state machine holds. *)
Lemma filterNotes_is_restriction (ns : list NoteObj) (query : string) :
  Utf16.filteredNotes (map (fun n => Utf16.ofNote (val n)) ns)
                      (Utf16.ofString query)
  = map (fun n => Utf16.ofNote (val n)) (filterNotes ns query).
Proof.
  unfold Utf16.filteredNotes, filterNotes.
  rewrite trim_ofString, toLowerCase_ofString, truthy_ofString.
  destruct (negb (truthy (toLowerCase (trim query)))); [reflexivity|].
  rewrite filter_map_swap. f_equal. apply filter_ext. intros n.
  unfold matches, Utf16.ofNote.
  cbn [Utf16.title Utf16.body].
  change Utf16.newline with (Utf16.ofString newline).
  rewrite <- !ofString_app, toLowerCase_ofString, includes_ofString.
  reflexivity.
Qed.

(* ================================================================== *)
(** ** The identifiers that [generateId] makes *)

(** X1.  An identifier made by [generateId] is the decimal reading of the
    clock, an underscore and the random text from its third character on.
    It starts with a decimal digit, or with a minus sign when the clock
    shows an instant before 1970: it is never the empty string, which
    [saveCurrent] takes for no target, and never the marker [NEW] of the
    creating mode. *)
Theorem generateId_is_a_usable_target :
  forall w : World,
    fst (generateId w)
    = (ofInteger (epoch_ms (clock w (ticks w)))
         ++ String "_" (slice 2 (random w (draws w))))%string
    /\ truthy (fst (generateId w)) = true
    /\ fst (generateId w) <> "NEW"
    /\ exists d rest,
        fst (generateId w) = String d rest
        /\ (isDigit d = true \/ d = "-"%char).
Proof.
  intros w. destruct (generateId_not_marker w) as [Ht Hn].
  split; [apply generateId_value|].
  split; [exact Ht|]. split; [exact Hn|]. apply generateId_head.
Qed.

(** X2.  Two identifiers made by [generateId] are equal exactly when the
    clock showed the same millisecond and the random texts agree from
    their third character on. *)
Theorem generateId_collides_only_on_same_reading :
  forall w w' : World,
    fst (generateId w) = fst (generateId w')
    <-> epoch_ms (clock w (ticks w)) = epoch_ms (clock w' (ticks w'))
        /\ slice 2 (random w (draws w)) = slice 2 (random w' (draws w')).
Proof.
  intros w w'. rewrite !generateId_value. split.
  - intros H.
    destruct (ofInteger_shape (epoch_ms (clock w (ticks w))))
      as (_ & _ & _ & _ & Hu).
    destruct (ofInteger_shape (epoch_ms (clock w' (ticks w'))))
      as (_ & _ & _ & _ & Hu').
    destruct (underscore_split_inj _ _ _ _ Hu Hu' H) as [Hms Hr].
    split; [apply ofInteger_inj; exact Hms | exact Hr].
  - intros [Hms Hr]. rewrite Hms, Hr. reflexivity.
Qed.

(* ================================================================== *)
(** ** Loading: what is dropped, what is kept, what is lost *)

Lemma generateId_generated (w : World) : generated (fst (generateId w)).
Proof. eexists _, _. apply generateId_value. Qed.

(** The argument of each [String] call, converted. *)
Lemma String_of_field (k : string) (x : json) :
  ToString (if nullish (prop k x) then JString ""
            else match prop k x with Some v => v | None => JNull end)
  = textOr k x.
Proof.
  unfold textOr. destruct (prop k x) as [[]|]; reflexivity.
Qed.

Lemma throwsOn_textOr (k : string) (x : json) :
  throwsOn k x = true <-> textOr k x = None.
Proof.
  unfold throwsOn, textOr. destruct (prop k x) as [v|]; [|split; discriminate].
  destruct v; simpl; try (split; discriminate);
    match goal with |- context [match ?t with _ => _ end] => destruct t end;
    split; try discriminate; reflexivity.
Qed.

(** The callback of [map], with the conversions named. *)
Lemma coerceNote_eq (x : json) (w : World) :
  coerceNote x w
  = let '(idt, w1) :=
      if nullish (prop "id" x) then
        let '(g, w') := generateId w in (Some g, w')
      else (textOr "id" x, w) in
    match idt, textOr "title" x, textOr "body" x with
    | Some i, Some t, Some b =>
        let '(u, w2) :=
          match prop "updatedAt" x with
          | Some (JString s) => (s, w1)
          | _ => nowISOString w1
          end in
        let '(r, w3) := alloc w2 in
        (Some (mkObj r (Note.mk i t b u)), w3)
    | _, _, _ => (None, w1)
    end.
Proof.
  unfold coerceNote. rewrite !String_of_field.
  destruct (nullish (prop "id" x)) eqn:Hn.
  - destruct (generateId w) as [g w']. cbn [ToString].
    destruct (textOr "title" x); [|reflexivity].
    destruct (textOr "body" x); reflexivity.
  - assert (Hid : ToString (match prop "id" x with Some v => v | None => JNull end)
                  = textOr "id" x).
    { unfold textOr. destruct (prop "id" x) as [[]|]; try reflexivity; discriminate. }
    rewrite Hid.
    destruct (textOr "id" x); [|reflexivity].
    destruct (textOr "title" x); [|reflexivity].
    destruct (textOr "body" x); reflexivity.
Qed.

Lemma nullish_textOr (k : string) (x : json) :
  nullish (prop k x) = true -> textOr k x = Some "".
Proof.
  unfold textOr. destruct (prop k x) as [[]|]; try discriminate; reflexivity.
Qed.

Lemma throwsOn_false (k : string) (x : json) :
  throwsOn k x = false <-> exists t, textOr k x = Some t.
Proof.
  pose proof (throwsOn_textOr k x) as [H1 H2].
  destruct (textOr k x) as [t|].
  - split; [intros _; exists t; reflexivity|]. intros _.
    destruct (throwsOn k x); [|reflexivity].
    discriminate (H1 eq_refl).
  - split; [|intros [t Ht]; discriminate]. intros H.
    rewrite (H2 eq_refl) in H. discriminate.
Qed.

(** What the callback builds once the three texts are there. *)
Lemma coerceNote_built (x : json) (w1 : World) (i t b : string) (w0 : World) :
  next_ref w1 = next_ref w0 ->
  let '(u, w2) :=
    match prop "updatedAt" x with
    | Some (JString s) => (s, w1)
    | _ => nowISOString w1
    end in
  let '(r, w3) := alloc w2 in
  r = next_ref w0 /\ next_ref w3 = S (next_ref w0)
  /\ (forall s, prop "updatedAt" x = Some (JString s) -> u = s).
Proof.
  intros Hn.
  destruct (prop "updatedAt" x) as [[| | |u| |]|];
    cbn [nowISOString readClock alloc next_ref];
    (split; [exact Hn|]); (split; [rewrite Hn; reflexivity|]);
    intros s Hs; try discriminate.
  injection Hs as ->. reflexivity.
Qed.

(** The callback returns a note exactly when no conversion throws. *)
Lemma coerceNote_result (x : json) (w : World) :
  match fst (coerceNote x w) with
  | None => conversionThrows x = true
  | Some o =>
      conversionThrows x = false /\ readAs x (val o) /\ ref o = next_ref w
      /\ next_ref (snd (coerceNote x w)) = S (next_ref w)
  end.
Proof.
  rewrite coerceNote_eq. unfold conversionThrows, readAs.
  destruct (nullish (prop "id" x)) eqn:Hn.
  - assert (Ti : throwsOn "id" x = false).
    { apply throwsOn_false. exists "". apply nullish_textOr. exact Hn. }
    rewrite Ti. cbn [orb].
    pose proof (generateId_generated w) as Hg.
    assert (Hr : next_ref (snd (generateId w)) = next_ref w) by reflexivity.
    destruct (generateId w) as [g w']. cbn [fst snd] in Hg, Hr.
    destruct (textOr "title" x) as [t|] eqn:Et.
    + assert (Tt : throwsOn "title" x = false)
        by (apply throwsOn_false; exists t; exact Et).
      rewrite Tt. cbn [orb].
      destruct (textOr "body" x) as [b|] eqn:Eb.
      * assert (Tb : throwsOn "body" x = false)
          by (apply throwsOn_false; exists b; exact Eb).
        rewrite Tb.
        pose proof (coerceNote_built x w' g t b w Hr) as Hb.
        destruct (match prop "updatedAt" x with
                  | Some (JString s) => (s, w')
                  | _ => nowISOString w'
                  end) as [u w2].
        destruct (alloc w2) as [r w3]. destruct Hb as (H1 & H2 & H3).
        cbn [fst snd val ref Note.id Note.title Note.body Note.updatedAt].
        repeat split; assumption.
      * cbn [fst]. apply throwsOn_textOr. exact Eb.
    + cbn [fst]. rewrite (proj2 (throwsOn_textOr "title" x) Et). reflexivity.
  - destruct (textOr "id" x) as [i|] eqn:Ei.
    + assert (Ti : throwsOn "id" x = false)
        by (apply throwsOn_false; exists i; exact Ei).
      rewrite Ti. cbn [orb].
      destruct (textOr "title" x) as [t|] eqn:Et.
      * assert (Tt : throwsOn "title" x = false)
          by (apply throwsOn_false; exists t; exact Et).
        rewrite Tt. cbn [orb].
        destruct (textOr "body" x) as [b|] eqn:Eb.
        -- assert (Tb : throwsOn "body" x = false)
             by (apply throwsOn_false; exists b; exact Eb).
           rewrite Tb.
           pose proof (coerceNote_built x w i t b w eq_refl) as Hb.
           destruct (match prop "updatedAt" x with
                     | Some (JString s) => (s, w)
                     | _ => nowISOString w
                     end) as [u w2].
           destruct (alloc w2) as [r w3]. destruct Hb as (H1 & H2 & H3).
           cbn [fst snd val ref Note.id Note.title Note.body Note.updatedAt].
           repeat split; assumption.
        -- cbn [fst]. apply throwsOn_textOr. exact Eb.
      * cbn [fst]. rewrite (proj2 (throwsOn_textOr "title" x) Et). reflexivity.
    + cbn [fst]. rewrite (proj2 (throwsOn_textOr "id" x) Ei). reflexivity.
Qed.

Lemma coerceAll_result (xs : list json) :
  forall w,
    match fst (coerceAll xs w) with
    | None => existsb conversionThrows xs = true
    | Some os =>
        existsb conversionThrows xs = false
        /\ Forall2 readAs xs (map val os)
        /\ map ref os = seq (next_ref w) (List.length os)
        /\ next_ref (snd (coerceAll xs w)) = next_ref w + List.length os
    end.
Proof.
  induction xs as [|x rest IH]; intros w; cbn [coerceAll fst snd existsb].
  - repeat split. constructor. cbn. lia.
  - pose proof (coerceNote_result x w) as Hx.
    destruct (coerceNote x w) as [[o|] w1]; cbn [fst snd] in *.
    + destruct Hx as (Hthrow & Hread & Href & Hnext).
      specialize (IH w1).
      destruct (coerceAll rest w1) as [[os|] w2]; cbn [fst snd] in *.
      * destruct IH as (Hrest & Hall & Hrefs & Hnext2).
        rewrite Hthrow, Hrest. split; [reflexivity|].
        split; [constructor; assumption|].
        cbn [map List.length seq]. rewrite Href, Hrefs, Hnext.
        split; [reflexivity | lia].
      * rewrite IH. apply orb_true_r.
    + rewrite Hx. reflexivity.
Qed.

(** X3.  When the stored text is missing, empty, not JSON, or JSON that is
    not an array, [loadNotesFromStorage] returns the empty array; it reads
    neither the clock nor the random generator and leaves the storage as it
    is. *)
Theorem load_of_unusable_text_is_empty :
  forall w : World,
    (item (localStorage w) = None
     \/ item (localStorage w) = Some EmptyText
     \/ item (localStorage w) = Some MalformedText
     \/ exists j, item (localStorage w) = Some (JsonText j)
                  /\ forall xs, j <> JArray xs) ->
    elems (fst (loadNotesFromStorage w)) = []
    /\ ticks (snd (loadNotesFromStorage w)) = ticks w
    /\ draws (snd (loadNotesFromStorage w)) = draws w
    /\ localStorage (snd (loadNotesFromStorage w)) = localStorage w.
Proof.
  intros w H. unfold loadNotesFromStorage, loadNotes_try, getItem.
  destruct H as [H|[H|[H|[j [H Hj]]]]]; rewrite H.
  - cbn [alloc fst snd elems ticks draws localStorage]. repeat split.
  - cbn [alloc fst snd elems ticks draws localStorage]. repeat split.
  - cbn [alloc fst snd elems ticks draws localStorage]. repeat split.
  - destruct j as [|b|r|t|l|ps];
      try (cbn [alloc fst snd elems ticks draws localStorage];
           repeat split; fail).
    exfalso. apply (Hj l). reflexivity.
Qed.

Lemma load_of_unusable_text_is_empty_witness :
  let w := Sample.world (Some (JsonText (JObject [("notes", JArray [])]))) true in
  (item (localStorage w) = None
   \/ item (localStorage w) = Some EmptyText
   \/ item (localStorage w) = Some MalformedText
   \/ exists j, item (localStorage w) = Some (JsonText j)
                /\ forall xs, j <> JArray xs)
  /\ elems (fst (loadNotesFromStorage w)) = []
  /\ ticks (snd (loadNotesFromStorage w)) = ticks w
  /\ draws (snd (loadNotesFromStorage w)) = draws w
  /\ localStorage (snd (loadNotesFromStorage w)) = localStorage w.
Proof.
  cbv zeta.
  assert (H : item (localStorage (Sample.world (Some (JsonText (JObject [("notes", JArray [])]))) true)) = None
              \/ item (localStorage (Sample.world (Some (JsonText (JObject [("notes", JArray [])]))) true)) = Some EmptyText
              \/ item (localStorage (Sample.world (Some (JsonText (JObject [("notes", JArray [])]))) true)) = Some MalformedText
              \/ exists j, item (localStorage (Sample.world (Some (JsonText (JObject [("notes", JArray [])]))) true)) = Some (JsonText j)
                           /\ forall xs, j <> JArray xs).
  { right. right. right. exists (JObject [("notes", JArray [])]).
    split; [reflexivity|]. intros xs. discriminate. }
  split; [exact H|].
  exact (load_of_unusable_text_is_empty
           (Sample.world (Some (JsonText (JObject [("notes", JArray [])]))) true) H).
Defined.

(** X4.  When the stored array holds an object whose id, title or body
    cannot be converted by [String] (an object with an own property
    [toString]), the exception is caught and [loadNotesFromStorage] returns
    the empty array: the other stored notes are not loaded either. *)
Theorem load_loses_all_on_one_bad_element :
  forall (w : World) (xs : list json) (x : json),
    item (localStorage w) = Some (JsonText (JArray xs)) ->
    In x xs ->
    isObjectLike x = true ->
    conversionThrows x = true ->
    elems (fst (loadNotesFromStorage w)) = [].
Proof.
  intros w xs x Hitem Hin Hobj Hthrow.
  unfold loadNotesFromStorage, loadNotes_try, getItem. rewrite Hitem.
  pose proof (coerceAll_result (filter isObjectLike xs) w) as H.
  destruct (coerceAll (filter isObjectLike xs) w) as [[os|] w1];
    cbn [fst] in H; [|reflexivity].
  destruct H as [Hnone _].
  assert (Hex : existsb conversionThrows (filter isObjectLike xs) = true).
  { apply existsb_exists. exists x. split; [|exact Hthrow].
    apply filter_In. split; assumption. }
  rewrite Hex in Hnone. discriminate.
Qed.

(** X5.  When no conversion throws, [loadNotesFromStorage] returns one
    note for every element of the stored array that is an object or an
    array, in the order of the array, and drops the other elements.  The
    title and the body of the note are the texts of the element's
    properties, the empty string for a missing or [null] one; its id is the
    text of the property [id], or a generated identifier when that is
    missing or [null]; its [updatedAt] is the property when that is a
    string. *)
Theorem load_reads_each_object_in_order :
  forall (w : World) (xs : list json),
    item (localStorage w) = Some (JsonText (JArray xs)) ->
    existsb conversionThrows (filter isObjectLike xs) = false ->
    Forall2 readAs (filter isObjectLike xs)
            (contents (fst (loadNotesFromStorage w)))
    /\ List.length (contents (fst (loadNotesFromStorage w)))
       = List.length (filter isObjectLike xs).
Proof.
  intros w xs Hitem Hok.
  unfold loadNotesFromStorage, loadNotes_try, getItem. rewrite Hitem.
  pose proof (coerceAll_result (filter isObjectLike xs) w) as H.
  destruct (coerceAll (filter isObjectLike xs) w) as [[os|] w1];
    cbn [fst] in H.
  - destruct H as (_ & Hall & _). cbn [alloc fst contents elems].
    split; [exact Hall|]. symmetry. apply (Forall2_length Hall).
  - rewrite Hok in H. discriminate.
Qed.

Lemma load_loses_all_on_one_bad_element_witness :
  let w := Sample.world (Some (JsonText (JArray sample_bad_title))) true in
  let x := JObject [("id", JString "b");
                    ("title", JObject [("toString", JNumber "1")])] in
  item (localStorage w) = Some (JsonText (JArray sample_bad_title))
  /\ In x sample_bad_title
  /\ isObjectLike x = true
  /\ conversionThrows x = true
  /\ elems (fst (loadNotesFromStorage w)) = [].
Proof.
  cbv zeta.
  split; [reflexivity|]. split; [right; left; reflexivity|].
  split; [reflexivity|]. split; [reflexivity|].
  apply (load_loses_all_on_one_bad_element
           (Sample.world (Some (JsonText (JArray sample_bad_title))) true)
           sample_bad_title
           (JObject [("id", JString "b");
                     ("title", JObject [("toString", JNumber "1")])])).
  - reflexivity.
  - right. left. reflexivity.
  - reflexivity.
  - reflexivity.
Defined.

Lemma load_reads_each_object_in_order_witness :
  let w := Sample.world (Some (JsonText (JArray sample_mixed))) true in
  item (localStorage w) = Some (JsonText (JArray sample_mixed))
  /\ existsb conversionThrows (filter isObjectLike sample_mixed) = false
  /\ contents (fst (loadNotesFromStorage w))
     = [Note.mk "a" "X" "" "2026-01-14T04:19:00.000Z";
        Note.mk "1768364340001_8c3fa1d2" "" "" "2026-01-14T04:19:00.002Z";
        Note.mk "1768364340002_51e07b" "42" "1,,x" "2026-01-13T10:00:00.000Z"]
  /\ Forall2 readAs (filter isObjectLike sample_mixed)
             (contents (fst (loadNotesFromStorage w)))
  /\ List.length (contents (fst (loadNotesFromStorage w)))
     = List.length (filter isObjectLike sample_mixed).
Proof.
  cbv zeta.
  split; [reflexivity|]. split; [reflexivity|]. split; [reflexivity|].
  apply (load_reads_each_object_in_order
           (Sample.world (Some (JsonText (JArray sample_mixed))) true)
           sample_mixed); reflexivity.
Defined.

(* ================================================================== *)
(** ** The page and the storage *)

Lemma with_own_storage (w : World) : with_storage (localStorage w) w = w.
Proof. destruct w. reflexivity. Qed.

Lemma alloc_with_storage (st : Storage) (w : World) :
  alloc (with_storage st w) = (fst (alloc w), with_storage st (snd (alloc w))).
Proof. reflexivity. Qed.

Lemma nowISOString_with_storage (st : Storage) (w : World) :
  nowISOString (with_storage st w)
  = (fst (nowISOString w), with_storage st (snd (nowISOString w))).
Proof. reflexivity. Qed.

Lemma generateId_with_storage (st : Storage) (w : World) :
  generateId (with_storage st w)
  = (fst (generateId w), with_storage st (snd (generateId w))).
Proof. reflexivity. Qed.

Lemma mapUpdate_with_storage (st : Storage) (e tt tb now : string)
      (ns : list NoteObj) :
  forall w,
    mapUpdate e tt tb now ns (with_storage st w)
    = (fst (mapUpdate e tt tb now ns w),
       with_storage st (snd (mapUpdate e tt tb now ns w))).
Proof.
  induction ns as [|n rest IH]; intros w; cbn [mapUpdate]; [reflexivity|].
  destruct (Note.id (val n) =? e).
  - rewrite alloc_with_storage. destruct (alloc w) as [r w1]. cbn [fst snd].
    rewrite IH. destruct (mapUpdate e tt tb now rest w1) as [r' w2].
    reflexivity.
  - rewrite IH. destruct (mapUpdate e tt tb now rest w) as [r' w2]. reflexivity.
Qed.

(** No handler reads the storage. *)
Lemma handle_with_storage (st : Storage) (e : event) (s : State) (w : World) :
  handle e s (with_storage st w)
  = (fst (handle e s w), with_storage st (snd (handle e s w))).
Proof.
  destruct e; cbn [handle fst snd]; try reflexivity.
  - unfold deleteNote. rewrite alloc_with_storage.
    destruct (alloc w) as [r w1]. cbn [fst snd].
    destruct (editingId_is s i); reflexivity.
  - unfold saveCurrent.
    destruct (negb (truthy (trim (title s))) && negb (truthy (trim (body s))));
      [reflexivity|].
    rewrite nowISOString_with_storage.
    destruct (nowISOString w) as [now w1]. cbn [fst snd].
    destruct (editingId_is s "NEW").
    + rewrite generateId_with_storage.
      destruct (generateId w1) as [g w2]. cbn [fst snd].
      rewrite alloc_with_storage. destruct (alloc w2) as [r w3]. cbn [fst snd].
      rewrite alloc_with_storage. destruct (alloc w3) as [ra w4]. reflexivity.
    + destruct (editingId s) as [e|]; [|reflexivity].
      destruct (truthy e); [|reflexivity].
      rewrite mapUpdate_with_storage.
      destruct (mapUpdate e (trim (title s)) (trim (body s)) now
                          (elems (notes s)) w1) as [ns' w2].
      cbn [fst snd]. rewrite alloc_with_storage.
      destruct (alloc w2) as [ra w3]. reflexivity.
Qed.

Lemma handle_storage (e : event) (s : State) (w : World) :
  localStorage (snd (handle e s w)) = localStorage w.
Proof.
  pose proof (handle_with_storage (localStorage w) e s w) as H.
  rewrite with_own_storage in H.
  apply (f_equal snd) in H. cbn [snd] in H. rewrite H. reflexivity.
Qed.

(** A step on another storage: the same state, and the same world but for
    the storage. *)
Lemma step_with_storage (st : Storage) (e : event) (s : State) (w : World) :
  exists st',
    step e (s, with_storage st w)
    = (fst (step e (s, w)), with_storage st' (snd (step e (s, w)))).
Proof.
  unfold step. rewrite handle_with_storage.
  destruct (handle e s w) as [s1 w1]. cbn [fst snd].
  unfold commit. cbn [fst snd].
  destruct (arr_ref (notes s) =? arr_ref (notes s1))%nat.
  - exists st. reflexivity.
  - unfold saveNotesToStorage. cbn [with_storage localStorage clock ticks
      random draws next_ref save_calls].
    eexists. reflexivity.
Qed.

Lemma run_with_storage (es : list event) :
  forall (st : Storage) (s : State) (w : World),
  exists st',
    run es (s, with_storage st w)
    = (fst (run es (s, w)), with_storage st' (snd (run es (s, w)))).
Proof.
  induction es as [|e rest IH]; intros st s w; cbn [run].
  - exists st. reflexivity.
  - destruct (step_with_storage st e s w) as [st1 H1]. rewrite H1.
    destruct (step e (s, w)) as [s1 w1]. cbn [fst snd].
    apply IH.
Qed.

(** X7.  Once the page has started, what it shows and what it hands to
    [saveNotesToStorage] do not depend on the storage: on a world that
    differs in the storage only (another stored text, a storage that throws
    on every write), the same events lead to the same state and to the same
    calls. *)
Theorem page_does_not_depend_on_storage :
  forall (es : list event) (st : Storage) (s : State) (w : World),
    fst (run es (s, with_storage st w)) = fst (run es (s, w))
    /\ save_calls (snd (run es (s, with_storage st w)))
       = save_calls (snd (run es (s, w))).
Proof.
  intros es st s w. destruct (run_with_storage es st s w) as [st' H].
  rewrite H. split; reflexivity.
Qed.

Lemma coerceNote_storage (x : json) (w : World) :
  localStorage (snd (coerceNote x w)) = localStorage w.
Proof.
  rewrite coerceNote_eq.
  destruct (nullish (prop "id" x)).
  - assert (Hg : localStorage (snd (generateId w)) = localStorage w) by reflexivity.
    destruct (generateId w) as [g w']. cbn [snd] in Hg.
    destruct (textOr "title" x); [|exact Hg].
    destruct (textOr "body" x); [|exact Hg].
    destruct (prop "updatedAt" x) as [[| | |u| |]|]; exact Hg.
  - destruct (textOr "id" x); [|reflexivity].
    destruct (textOr "title" x); [|reflexivity].
    destruct (textOr "body" x); [|reflexivity].
    destruct (prop "updatedAt" x) as [[| | |u| |]|]; reflexivity.
Qed.

Lemma coerceAll_storage (xs : list json) :
  forall w, localStorage (snd (coerceAll xs w)) = localStorage w.
Proof.
  induction xs as [|x rest IH]; intros w; cbn [coerceAll]; [reflexivity|].
  pose proof (coerceNote_storage x w) as Hx.
  destruct (coerceNote x w) as [[o|] w1]; cbn [snd] in *; [|exact Hx].
  specialize (IH w1).
  destruct (coerceAll rest w1) as [[os|] w2]; cbn [snd] in *; congruence.
Qed.

Lemma load_storage (w : World) :
  localStorage (snd (loadNotesFromStorage w)) = localStorage w.
Proof.
  unfold loadNotesFromStorage, loadNotes_try, getItem.
  destruct (item (localStorage w)) as [[| |j]|]; try reflexivity.
  destruct j; try reflexivity.
  pose proof (coerceAll_storage (filter isObjectLike l) w) as H.
  destruct (coerceAll (filter isObjectLike l) w) as [[os|] w1];
    cbn [snd] in H; exact H.
Qed.

(** The medium decides which values it takes; no write changes that. *)
Lemma save_accepts (ns : list Note.t) (w : World) :
  accepts (localStorage (saveNotesToStorage ns w)) = accepts (localStorage w).
Proof.
  unfold saveNotesToStorage, setItem. cbn [localStorage].
  destruct (accepts (localStorage w) (JSON_stringify ns)); reflexivity.
Qed.

Lemma step_storage (e : event) (s : State) (w : World) :
  localStorage (snd (step e (s, w))) = localStorage w
  \/ localStorage (snd (step e (s, w)))
     = localStorage
         (saveNotesToStorage (contents (notes (fst (step e (s, w)))))
                             (with_storage (localStorage w) w)).
Proof.
  unfold step. pose proof (handle_storage e s w) as Hh.
  destruct (handle e s w) as [s1 w1]. cbn [snd] in Hh.
  destruct (commit_frame s s1 w1) as [Fn _]. rewrite Fn, commit_world.
  unfold after_effects.
  destruct (arr_ref (notes s) =? arr_ref (notes s1))%nat.
  - left. exact Hh.
  - right. unfold saveNotesToStorage. cbn [localStorage with_storage].
    rewrite Hh. reflexivity.
Qed.

Lemma run_rejecting (es : list event) :
  forall s w,
    rejects_all (localStorage w) ->
    localStorage (snd (run es (s, w))) = localStorage w.
Proof.
  induction es as [|e rest IH]; intros s w Hrej; cbn [run]; [reflexivity|].
  assert (H1 : localStorage (snd (step e (s, w))) = localStorage w).
  { destruct (step_storage e s w) as [H|H]; [exact H|].
    rewrite H. unfold saveNotesToStorage, setItem.
    cbn [localStorage with_storage]. rewrite Hrej. reflexivity. }
  destruct (step e (s, w)) as [s1 w1]. cbn [snd] in H1.
  rewrite IH; [exact H1|]. rewrite H1. exact Hrej.
Qed.

(** X8.  On a storage that throws on every write, nothing the page does
    changes what is stored: after the start and after any events the
    storage is what it was before the page was opened. *)
Theorem failing_storage_is_never_changed :
  forall (w0 : World) (es : list event),
    rejects_all (localStorage w0) ->
    localStorage (snd (run es (mount w0))) = localStorage w0.
Proof.
  intros w0 es Hrej.
  assert (Hm : localStorage (snd (mount w0)) = localStorage w0).
  { unfold mount. pose proof (load_storage w0) as Hl.
    destruct (loadNotesFromStorage w0) as [ns w1]. cbn [snd] in *.
    unfold saveNotesToStorage, setItem. cbn [localStorage].
    rewrite Hl, Hrej. reflexivity. }
  rewrite (surjective_pairing (mount w0)).
  rewrite run_rejecting; [exact Hm|]. rewrite Hm. exact Hrej.
Qed.

Lemma failing_storage_is_never_changed_witness :
  let w0 := Sample.world (Sample.stored [Sample.groceries]) false in
  let es := [StartNew; SetTitle "Chores"; SaveCurrent; DeleteNote "a"] in
  rejects_all (localStorage w0)
  /\ contents (notes (fst (run es (mount w0))))
     = [Note.mk "1768364340001_8c3fa1d2" "Chores" "" "2026-01-14T04:19:00.000Z"]
  /\ localStorage (snd (run es (mount w0))) = localStorage w0.
Proof.
  cbv zeta.
  assert (Hrej : rejects_all
                   (localStorage (Sample.world (Sample.stored [Sample.groceries]) false)))
    by (intros v; reflexivity).
  split; [exact Hrej|]. split; [reflexivity|].
  exact (failing_storage_is_never_changed
           (Sample.world (Sample.stored [Sample.groceries]) false)
           [StartNew; SetTitle "Chores"; SaveCurrent; DeleteNote "a"] Hrej).
Defined.

(** The array after a handler is the array before, or a new one. *)
Lemma handle_same_or_new_array (e : event) (s : State) (w : World) :
  notes (fst (handle e s w)) = notes s
  \/ next_ref w <= arr_ref (notes (fst (handle e s w))).
Proof.
  destruct e; cbn [handle fst]; try (left; reflexivity).
  - right. unfold deleteNote. cbn [alloc].
    destruct (editingId_is s i); cbn [fst cancelEdit notes arr_ref]; lia.
  - unfold saveCurrent.
    destruct (negb (truthy (trim (title s))) && negb (truthy (trim (body s))));
      [left; reflexivity|].
    cbn [nowISOString readClock].
    destruct (editingId_is s "NEW").
    + right. cbn [generateId Date_now Math_random_hex readClock alloc fst
                  notes arr_ref next_ref]. lia.
    + destruct (editingId s) as [e|]; [|left; reflexivity].
      destruct (truthy e); [|left; reflexivity].
      match goal with |- context [mapUpdate e ?t ?tb ?now ?ns ?w1] =>
        pose proof (mapUpdate_world e t tb now ns w1) as Hw;
        destruct (mapUpdate e t tb now ns w1) as [ns' w2]
      end.
      destruct Hw as (_ & _ & _ & _ & _ & _ & H7). cbn [snd next_ref] in H7.
      right. cbn [alloc fst notes arr_ref]. exact H7.
Qed.

(** On a storage that takes every value, a step keeps the stored text the
    serialisation of the notes. *)
Lemma step_in_sync (e : event) (s : State) (w : World) :
  accepts_all (localStorage w) ->
  in_sync s w ->
  arr_ref (notes s) < next_ref w ->
  accepts_all (localStorage (snd (step e (s, w))))
  /\ in_sync (fst (step e (s, w))) (snd (step e (s, w))).
Proof.
  intros Hacc Hsync Hwf. unfold step.
  pose proof (handle_storage e s w) as Hst.
  pose proof (handle_same_or_new_array e s w) as Harr.
  destruct (handle e s w) as [s1 w1]. cbn [fst snd] in *.
  destruct (commit_frame s s1 w1) as [Fn _].
  unfold in_sync. rewrite Fn, commit_world. unfold after_effects.
  destruct (arr_ref (notes s) =? arr_ref (notes s1))%nat eqn:E.
  - apply Nat.eqb_eq in E. destruct Harr as [Hsame|Hnew]; [|lia].
    rewrite Hst, Hsame. split; assumption.
  - split.
    + intros v. rewrite save_accepts, Hst. apply Hacc.
    + unfold saveNotesToStorage, setItem. cbn [localStorage].
      rewrite Hst, Hacc. reflexivity.
Qed.

Lemma run_in_sync (es : list event) :
  forall s w,
    accepts_all (localStorage w) ->
    in_sync s w ->
    arr_ref (notes s) < next_ref w ->
    in_sync (fst (run es (s, w))) (snd (run es (s, w))).
Proof.
  induction es as [|e rest IH]; intros s w Hacc Hsync Hwf; cbn [run];
    [exact Hsync|].
  destruct (step_in_sync e s w Hacc Hsync Hwf) as [Hacc1 Hsync1].
  pose proof (step_array_allocated e s w Hwf) as Hwf1.
  destruct (step e (s, w)) as [s1 w1]. cbn [fst snd] in *.
  apply IH; assumption.
Qed.

(** X6.  On a storage that takes every value, after the start and after
    any events the stored text is the serialisation of the notes of the
    page: loading from it, as a reload of the page does, gives the notes
    that the page shows, in the same order. *)
Theorem notes_survive_a_reload :
  forall (w0 : World) (es : list event),
    accepts_all (localStorage w0) ->
    let '(s, w) := run es (mount w0) in
    item (localStorage w) = Some (JSON_stringify (contents (notes s)))
    /\ contents (fst (loadNotesFromStorage w)) = contents (notes s)
    /\ contents (notes (fst (mount w))) = contents (notes s).
Proof.
  intros w0 es Hacc.
  assert (Hm : accepts_all (localStorage (snd (mount w0)))
               /\ in_sync (fst (mount w0)) (snd (mount w0))).
  { unfold mount. pose proof (load_storage w0) as Hl.
    destruct (loadNotesFromStorage w0) as [ns w1]. cbn [fst snd] in *.
    split.
    - intros v. rewrite save_accepts, Hl. apply Hacc.
    - unfold in_sync, saveNotesToStorage, setItem. cbn [localStorage notes].
      rewrite Hl, Hacc. reflexivity. }
  destruct Hm as [Hacc1 Hsync1].
  pose proof (mount_array_allocated w0) as Hwf.
  pose proof (run_in_sync es (fst (mount w0)) (snd (mount w0)) Hacc1 Hsync1 Hwf)
    as Hsync.
  rewrite <- surjective_pairing in Hsync.
  destruct (run es (mount w0)) as [s w]. cbn [fst snd] in Hsync.
  split; [exact Hsync|].
  pose proof (load_of_stored_notes (contents (notes s)) w Hsync) as Hload.
  split; [exact Hload|].
  unfold mount. destruct (loadNotesFromStorage w) as [ns w']. exact Hload.
Qed.

Lemma notes_survive_a_reload_witness :
  let w0 := Sample.world Sample.only_an_id true in
  let es := [StartNew; SetTitle "Chores"; SaveCurrent; DeleteNote "a"] in
  accepts_all (localStorage w0)
  /\ let '(s, w) := run es (mount w0) in
     item (localStorage w) = Some (JSON_stringify (contents (notes s)))
     /\ contents (fst (loadNotesFromStorage w)) = contents (notes s)
     /\ contents (notes (fst (mount w))) = contents (notes s).
Proof.
  cbv zeta.
  assert (Hacc : accepts_all (localStorage (Sample.world Sample.only_an_id true)))
    by (intros v; reflexivity).
  split; [exact Hacc|].
  exact (notes_survive_a_reload
           (Sample.world Sample.only_an_id true)
           [StartNew; SetTitle "Chores"; SaveCurrent; DeleteNote "a"] Hacc).
Defined.

(* ================================================================== *)
(** ** Events that leave the notes alone *)

Lemma quiet_handle (e : event) (s : State) (w : World) :
  quiet e = true ->
  exists s1, handle e s w = (s1, w) /\ notes s1 = notes s.
Proof.
  intros Hq.
  destruct e; try discriminate; cbn [handle]; eexists; split; reflexivity.
Qed.

Lemma quiet_step_notes (e : event) (s : State) (w : World) :
  quiet e = true ->
  notes (fst (step e (s, w))) = notes s /\ snd (step e (s, w)) = w.
Proof.
  intros Hq. unfold step.
  destruct (quiet_handle e s w Hq) as (s1 & Hh & Hn). rewrite Hh.
  destruct (commit_frame s s1 w) as [Fn _].
  split; [rewrite Fn; exact Hn|].
  rewrite commit_world. unfold after_effects. rewrite Hn, Nat.eqb_refl.
  reflexivity.
Qed.

(** X9.  Opening the editor ([startNew], [startEdit]), cancelling, and
    typing into the title, the body or the search box never change the
    array of notes, and the render that follows writes nothing: the storage
    is as it was, [saveNotesToStorage] is not called, and no random number
    is drawn.  Typing into the search box also leaves the editing session
    as it is. *)
Theorem quiet_events_leave_notes_and_storage :
  forall (e : event) (s : State) (w : World),
    quiet e = true ->
    notes (fst (step e (s, w))) = notes s
    /\ localStorage (snd (step e (s, w))) = localStorage w
    /\ save_calls (snd (step e (s, w))) = save_calls w
    /\ draws (snd (step e (s, w))) = draws w
    /\ (forall v, e = SetSearch v ->
                  session (fst (step e (s, w))) = session s).
Proof.
  intros e s w Hq.
  destruct (quiet_step_notes e s w Hq) as [Hn Hw].
  split; [exact Hn|]. rewrite Hw.
  split; [reflexivity|]. split; [reflexivity|]. split; [reflexivity|].
  intros v He. subst e. unfold step, handle, commit. cbn [fst].
  change (editingNote (setSearch v s)) with (editingNote s).
  rewrite sameObject_refl. reflexivity.
Qed.

Lemma quiet_events_leave_notes_and_storage_witness :
  let sw := run [StartEdit "a"; SetTitle "Groceries!"] Sample.opened in
  quiet (SetSearch "milk") = true
  /\ notes (fst (step (SetSearch "milk") (fst sw, snd sw))) = notes (fst sw)
  /\ localStorage (snd (step (SetSearch "milk") (fst sw, snd sw)))
     = localStorage (snd sw)
  /\ save_calls (snd (step (SetSearch "milk") (fst sw, snd sw)))
     = save_calls (snd sw)
  /\ draws (snd (step (SetSearch "milk") (fst sw, snd sw))) = draws (snd sw)
  /\ (forall v, SetSearch "milk" = SetSearch v ->
                session (fst (step (SetSearch "milk") (fst sw, snd sw)))
                = session (fst sw)).
Proof.
  cbv zeta. split; [reflexivity|].
  exact (quiet_events_leave_notes_and_storage
           (SetSearch "milk")
           (fst (run [StartEdit "a"; SetTitle "Groceries!"] Sample.opened))
           (snd (run [StartEdit "a"; SetTitle "Groceries!"] Sample.opened))
           eq_refl).
Defined.

(* ================================================================== *)
(** ** The addresses of the note objects *)

Lemma alloc_steps_next_ref (w : World) :
  next_ref (snd (alloc w)) = S (next_ref w).
Proof. reflexivity. Qed.

Lemma mapUpdate_heap (e tt tb now : string) (ns : list NoteObj) :
  forall w,
    Forall (fun o => ref o < next_ref w) ns ->
    NoDup (map ref ns) ->
    NoDup (map ref (fst (mapUpdate e tt tb now ns w)))
    /\ Forall (fun o => ref o < next_ref (snd (mapUpdate e tt tb now ns w)))
              (fst (mapUpdate e tt tb now ns w))
    /\ (forall o, In o (fst (mapUpdate e tt tb now ns w)) ->
                  In o ns \/ next_ref w <= ref o).
Proof.
  induction ns as [|n rest IH]; intros w Hlt Hnd; cbn [mapUpdate].
  - cbn [fst snd map]. repeat split; [constructor | constructor | intros o []].
  - inversion Hlt as [|? ? Hn Hrest]; subst.
    cbn [map] in Hnd. inversion Hnd as [|? ? Hnotin Hnd']; subst.
    pose proof (mapUpdate_world e tt tb now rest) as Hmono.
    destruct (Note.id (val n) =? e).
    + cbn [alloc].
      match goal with |- context [mapUpdate e tt tb now rest ?w1] =>
        remember w1 as w1' eqn:Ew1
      end.
      assert (Hn1 : next_ref w1' = S (next_ref w)) by (subst w1'; reflexivity).
      assert (Hlt1 : Forall (fun o => ref o < next_ref w1') rest).
      { eapply Forall_impl; [|exact Hrest]. intros o Ho. cbn in Ho. lia. }
      destruct (IH w1' Hlt1 Hnd') as (I1 & I2 & I3).
      specialize (Hmono w1'). destruct Hmono as (_ & _ & _ & _ & _ & _ & M7).
      destruct (mapUpdate e tt tb now rest w1') as [rest' w2].
      cbn [fst snd map ref] in *. split; [|split].
      * constructor; [|exact I1].
        intros Hin. apply in_map_iff in Hin. destruct Hin as [o [Ho Hino]].
        destruct (I3 o Hino) as [Hold|Hnew].
        -- rewrite Forall_forall in Hrest. specialize (Hrest o Hold). lia.
        -- lia.
      * constructor; [cbn; lia | exact I2].
      * intros o [Ho|Ho]; [right; subst o; cbn; lia|].
        destruct (I3 o Ho) as [H|H]; [left; right; exact H | right; lia].
    + destruct (IH w Hrest Hnd') as (I1 & I2 & I3).
      specialize (Hmono w). destruct Hmono as (_ & _ & _ & _ & _ & _ & M7).
      destruct (mapUpdate e tt tb now rest w) as [rest' w2].
      cbn [fst snd map] in *. split; [|split].
      * constructor; [|exact I1].
        intros Hin. apply in_map_iff in Hin. destruct Hin as [o [Ho Hino]].
        destruct (I3 o Hino) as [Hold|Hnew].
        -- apply Hnotin. rewrite <- Ho. apply in_map. exact Hold.
        -- lia.
      * constructor; [lia | exact I2].
      * intros o [Ho|Ho]; [left; left; exact Ho|].
        destruct (I3 o Ho) as [H|H]; [left; right; exact H | right; exact H].
Qed.

(** Filtering a list of note objects keeps a key that no two of them share
    (the address, or the id) unshared. *)
Lemma filter_keeps_distinct (B : Type) (key : NoteObj -> B)
      (keep : NoteObj -> bool) :
  forall ns : list NoteObj,
    NoDup (map key ns) -> NoDup (map key (filter keep ns)).
Proof.
  intros ns. induction ns as [|o rest IH]; intros Hnd; cbn [filter map].
  - constructor.
  - cbn [map] in Hnd. apply NoDup_cons_iff in Hnd. destruct Hnd as [Hfresh Hrest].
    destruct (keep o) eqn:Ek; [|apply IH; exact Hrest].
    cbn [map]. apply NoDup_cons_iff. split; [|apply IH; exact Hrest].
    intros Hin. apply in_map_iff in Hin. destruct Hin as (o' & Hkey & Hin).
    apply filter_In in Hin. destruct Hin as [Hin _].
    apply Hfresh. apply in_map_iff. exists o'. split; assumption.
Qed.

Lemma handle_heap_ok (e : event) (s : State) (w : World) :
  heap_ok s w -> heap_ok (fst (handle e s w)) (snd (handle e s w)).
Proof.
  intros [Hnd Hlt]. destruct e; cbn [handle fst snd]; try (split; assumption).
  - unfold deleteNote. cbn [alloc].
    assert (H : heap_ok
                  (mkState (mkArr (next_ref w)
                              (filter (fun n => negb (Note.id (val n) =? i))
                                      (elems (notes s))))
                           (search s) (editingId s) (title s) (body s))
                  (snd (alloc w))).
    { split; cbn [notes elems alloc snd next_ref].
      - apply filter_keeps_distinct. exact Hnd.
      - apply Forall_forall. intros o Ho. apply filter_In in Ho.
        rewrite Forall_forall in Hlt. specialize (Hlt o (proj1 Ho)). lia. }
    destruct (editingId_is s i); exact H.
  - unfold saveCurrent.
    destruct (negb (truthy (trim (title s))) && negb (truthy (trim (body s))));
      [split; assumption|].
    cbn [nowISOString readClock].
    destruct (editingId_is s "NEW").
    + cbn [generateId Date_now Math_random_hex readClock alloc fst snd].
      split; cbn [notes elems map ref next_ref].
      * constructor; [|exact Hnd].
        intros Hin. apply in_map_iff in Hin. destruct Hin as [o [Ho Hino]].
        rewrite Forall_forall in Hlt. specialize (Hlt o Hino). lia.
      * constructor; [cbn; lia|].
        eapply Forall_impl; [|exact Hlt]. intros o Ho. cbn in *. lia.
    + destruct (editingId s) as [e|]; [|split; assumption].
      destruct (truthy e); [|split; assumption].
      match goal with |- context [mapUpdate e ?t ?tb ?now ?ns ?w1] =>
        pose proof (mapUpdate_heap e t tb now ns w1 Hlt Hnd) as (M1 & M2 & _);
        destruct (mapUpdate e t tb now ns w1) as [ns' w2]
      end.
      cbn [fst snd alloc] in *. split; cbn [notes elems next_ref].
      * exact M1.
      * eapply Forall_impl; [|exact M2]. intros o Ho. cbn in *. lia.
Qed.

Lemma step_heap_ok (e : event) (s : State) (w : World) :
  heap_ok s w -> heap_ok (fst (step e (s, w))) (snd (step e (s, w))).
Proof.
  intros H. unfold step. pose proof (handle_heap_ok e s w H) as [H1 H2].
  destruct (handle e s w) as [s1 w1]. cbn [fst snd] in *.
  destruct (commit_frame s s1 w1) as [Fn _].
  unfold heap_ok. rewrite Fn, commit_world. unfold after_effects.
  destruct (arr_ref (notes s) =? arr_ref (notes s1))%nat; split; assumption.
Qed.

Lemma mount_heap_ok (w0 : World) :
  heap_ok (fst (mount w0)) (snd (mount w0)).
Proof.
  unfold mount, loadNotesFromStorage, loadNotes_try, getItem.
  assert (Hempty : forall r w,
             heap_ok (mkState (mkArr r []) "" None "" "") w)
    by (intros r w; split; constructor).
  destruct (item (localStorage w0)) as [[| |j]|]; try apply Hempty.
  destruct j; try apply Hempty.
  pose proof (coerceAll_result (filter isObjectLike l) w0) as H.
  destruct (coerceAll (filter isObjectLike l) w0) as [[os|] w1];
    cbn [fst snd] in *; [|apply Hempty].
  destruct H as (_ & _ & Hrefs & Hnext).
  cbn [alloc fst snd]. split;
    cbn [notes elems saveNotesToStorage next_ref].
  - rewrite Hrefs. apply seq_NoDup.
  - apply Forall_forall. intros o Ho.
    assert (Hin : In (ref o) (seq (next_ref w0) (List.length os)))
      by (rewrite <- Hrefs; apply in_map; exact Ho).
    apply in_seq in Hin. lia.
Qed.

Lemma run_heap_ok (es : list event) :
  forall sw, heap_ok (fst sw) (snd sw) ->
             heap_ok (fst (run es sw)) (snd (run es sw)).
Proof.
  induction es as [|e rest IH]; intros [s w] H; cbn [run]; [exact H|].
  apply IH. apply step_heap_ok. exact H.
Qed.

(* ================================================================== *)
(** ** Opening a note in the editor *)

(** Two note objects of a heap-consistent array with the same address are
    the same object. *)
Lemma same_ref_same_object (ns : list NoteObj) :
  NoDup (map ref ns) ->
  forall m n : NoteObj, In m ns -> In n ns -> ref m = ref n -> m = n.
Proof.
  induction ns as [|o rest IH]; intros Hnd m n Hm Hn Href; [destruct Hm|].
  cbn [map] in Hnd. apply NoDup_cons_iff in Hnd. destruct Hnd as [Hfresh Hrest].
  cbn [In] in Hm, Hn.
  destruct Hm as [Hm|Hm], Hn as [Hn|Hn].
  - congruence.
  - exfalso. apply Hfresh. subst o. rewrite Href. apply in_map. exact Hn.
  - exfalso. apply Hfresh. subst o. rewrite <- Href. apply in_map. exact Hm.
  - apply (IH Hrest m n Hm Hn Href).
Qed.

Lemma editingNote_findNote (s : State) (i : string) :
  editingId s = Some i -> editingNote s = findNote i s.
Proof.
  intros He. unfold editingNote, findNote, editingId_is. rewrite He.
  induction (elems (notes s)) as [|o rest IH]; cbn [find]; [reflexivity|].
  rewrite (String.eqb_sym i), IH. reflexivity.
Qed.

(** X10.  In every state that the page gets into, [startEdit] on the id of
    a note that is not the target of the editor puts the title and the body
    of the first note with that id into the drafts, whatever the drafts
    held, and touches neither the notes nor the world.  [startEdit] on the
    id that is the target already sets nothing: drafts that were typed
    stay. *)
Theorem startEdit_loads_the_note :
  (forall (w0 : World) (es : list event) (i : string) (n : NoteObj),
      findNote i (fst (run es (mount w0))) = Some n ->
      editingId (fst (run es (mount w0))) <> Some i ->
      let '(s', w') := step (StartEdit i) (run es (mount w0)) in
      session s' = (Some i, Note.title (val n), Note.body (val n))
      /\ notes s' = notes (fst (run es (mount w0)))
      /\ w' = snd (run es (mount w0)))
  /\ (forall (s : State) (w : World) (i : string),
         editingId s = Some i -> step (StartEdit i) (s, w) = (s, w)).
Proof.
  split.
  - intros w0 es i n Hfind Hother.
    pose proof (run_heap_ok es (mount w0) (mount_heap_ok w0)) as [Hnd _].
    destruct (run es (mount w0)) as [s w]. cbn [fst snd] in *.
    unfold step, handle.
    assert (Hnew : editingNote (startEdit i s) = Some n).
    { rewrite (editingNote_findNote (startEdit i s) i eq_refl). exact Hfind. }
    assert (Hdiff : sameObject (editingNote s) (Some n) = false).
    { destruct (editingNote s) as [m|] eqn:Em; [|reflexivity].
      cbn [sameObject]. apply Nat.eqb_neq. intros Href.
      unfold editingNote in Em. apply find_some in Em. destruct Em as [Hm Hid].
      unfold findNote in Hfind. apply find_some in Hfind.
      destruct Hfind as [Hn Hidn]. apply String.eqb_eq in Hidn.
      assert (Hmn : m = n) by (apply (same_ref_same_object _ Hnd m n Hm Hn Href)).
      subst m. unfold editingId_is in Hid.
      destruct (editingId s) as [e|]; [|discriminate].
      apply String.eqb_eq in Hid. apply Hother. congruence. }
    unfold commit. rewrite Hnew, Hdiff.
    cbn [startEdit notes arr_ref search editingId]. rewrite Nat.eqb_refl.
    repeat split.
  - intros s w i He. unfold step, handle.
    assert (Hs : startEdit i s = s).
    { destruct s as [ns q e t b]. cbn in He. subst e. reflexivity. }
    rewrite Hs. apply commit_unchanged.
Qed.

Lemma startEdit_loads_the_note_witness :
  let w0 := Sample.world (Sample.stored [Sample.groceries; Sample.chores]) true in
  let es := [StartEdit "a"; SetTitle "Groceries, unsaved"] in
  let n := mkObj 1 Sample.chores in
  findNote "b" (fst (run es (mount w0))) = Some n
  /\ editingId (fst (run es (mount w0))) <> Some "b"
  /\ title (fst (run es (mount w0))) = "Groceries, unsaved"
  /\ (let '(s', w') := step (StartEdit "b") (run es (mount w0)) in
      session s' = (Some "b", Note.title (val n), Note.body (val n))
      /\ notes s' = notes (fst (run es (mount w0)))
      /\ w' = snd (run es (mount w0)))
  /\ editingId (fst (run es (mount w0))) = Some "a"
  /\ step (StartEdit "a") (fst (run es (mount w0)), snd (run es (mount w0)))
     = (fst (run es (mount w0)), snd (run es (mount w0))).
Proof.
  cbv zeta.
  assert (Hother : editingId
                     (fst (run [StartEdit "a"; SetTitle "Groceries, unsaved"]
                            (mount (Sample.world
                                      (Sample.stored [Sample.groceries; Sample.chores])
                                      true))))
                   <> Some "b") by discriminate.
  split; [reflexivity|]. split; [exact Hother|]. split; [reflexivity|].
  split.
  - exact (proj1 startEdit_loads_the_note
             (Sample.world (Sample.stored [Sample.groceries; Sample.chores]) true)
             [StartEdit "a"; SetTitle "Groceries, unsaved"] "b"
             (mkObj 1 Sample.chores) eq_refl Hother).
  - split; [reflexivity|].
    exact (proj2 startEdit_loads_the_note
             (fst (run [StartEdit "a"; SetTitle "Groceries, unsaved"]
                    (mount (Sample.world
                              (Sample.stored [Sample.groceries; Sample.chores])
                              true))))
             (snd (run [StartEdit "a"; SetTitle "Groceries, unsaved"]
                    (mount (Sample.world
                              (Sample.stored [Sample.groceries; Sample.chores])
                              true))))
             "a" eq_refl).
Defined.

(* ================================================================== *)
(** ** Deleting, in every mode *)

Lemma delete_step_notes (s : State) (w : World) (x : string) :
  notes (fst (step (DeleteNote x) (s, w)))
  = mkArr (next_ref w)
          (filter (fun n => negb (Note.id (val n) =? x)) (elems (notes s)))
  /\ save_calls (snd (step (DeleteNote x) (s, w)))
     = (if (arr_ref (notes s) =? next_ref w)%nat then save_calls w
        else map val (filter (fun n => negb (Note.id (val n) =? x))
                             (elems (notes s)))
             :: save_calls w).
Proof.
  unfold step, handle, deleteNote. cbn [alloc].
  destruct (editingId_is s x).
  - rewrite commit_closed by (apply editingNote_idle; reflexivity).
    unfold after_effects. cbn [fst snd cancelEdit notes arr_ref].
    split; [reflexivity|].
    destruct (arr_ref (notes s) =? next_ref w)%nat; reflexivity.
  - match goal with |- context [commit s ?s1 ?w1] =>
      destruct (commit_frame s s1 w1) as [Fn _]; rewrite Fn, commit_world
    end.
    unfold after_effects. cbn [notes arr_ref].
    split; [reflexivity|].
    destruct (arr_ref (notes s) =? next_ref w)%nat; reflexivity.
Qed.

Lemma filter_id_absent (x : string) (ns : list NoteObj) :
  ~ In x (map (fun n => Note.id (val n)) ns) ->
  filter (fun n => negb (Note.id (val n) =? x)) ns = ns.
Proof.
  induction ns as [|n rest IH]; cbn [map filter]; intros H; [reflexivity|].
  destruct (Note.id (val n) =? x) eqn:E.
  - apply String.eqb_eq in E. exfalso. apply H. left. exact E.
  - cbn [negb]. rewrite IH; [reflexivity|]. intros Hin. apply H. right. exact Hin.
Qed.

(** X11.  In every state, [deleteNote] removes every note that has the id
    and no other note, the remaining notes keeping their order; when no
    note has the id the collection holds the same notes.  Deleting the same
    id again removes nothing.  Each time, the array is another one, so the
    collection is handed to [saveNotesToStorage] even when nothing was
    removed. *)
Theorem delete_removes_exactly_the_id :
  forall (s : State) (w : World) (x : string),
    let '(s', w') := step (DeleteNote x) (s, w) in
    elems (notes s')
    = filter (fun n => negb (Note.id (val n) =? x)) (elems (notes s))
    /\ ~ In x (ids s')
    /\ (~ In x (ids s) -> elems (notes s') = elems (notes s))
    /\ elems (notes (fst (step (DeleteNote x) (s', w')))) = elems (notes s')
    /\ (arr_ref (notes s) < next_ref w ->
        save_calls w' = contents (notes s') :: save_calls w).
Proof.
  intros s w x.
  destruct (delete_step_notes s w x) as [Hn Hc].
  destruct (step (DeleteNote x) (s, w)) as [s' w'] eqn:E.
  cbn [fst snd] in Hn, Hc.
  assert (Hel : elems (notes s')
                = filter (fun n => negb (Note.id (val n) =? x)) (elems (notes s)))
    by (rewrite Hn; reflexivity).
  assert (Hgone : ~ In x (ids s')).
  { unfold ids. rewrite Hel. apply filter_removes_id. }
  split; [exact Hel|]. split; [exact Hgone|]. split; [|split].
  - intros Habs. rewrite Hel. apply filter_id_absent. exact Habs.
  - destruct (delete_step_notes s' w' x) as [Hn2 _]. rewrite Hn2.
    cbn [elems]. apply filter_id_absent. exact Hgone.
  - intros Hwf.
    assert (Hne : (arr_ref (notes s) =? next_ref w)%nat = false)
      by (apply Nat.eqb_neq; lia).
    rewrite Hne in Hc. rewrite Hc. unfold contents. rewrite Hel. reflexivity.
Qed.

Lemma delete_removes_exactly_the_id_witness :
  let s := fst Sample.opened in
  let w := snd Sample.opened in
  ~ In "zzz" (ids s)
  /\ arr_ref (notes s) < next_ref w
  /\ let '(s', w') := step (DeleteNote "zzz") (s, w) in
     elems (notes s')
     = filter (fun n => negb (Note.id (val n) =? "zzz")) (elems (notes s))
     /\ ~ In "zzz" (ids s')
     /\ (~ In "zzz" (ids s) -> elems (notes s') = elems (notes s))
     /\ elems (notes (fst (step (DeleteNote "zzz") (s', w')))) = elems (notes s')
     /\ (arr_ref (notes s) < next_ref w ->
         save_calls w' = contents (notes s') :: save_calls w).
Proof.
  cbv zeta.
  split; [vm_compute; intros [H|[H|[]]]; discriminate|].
  split; [vm_compute; lia|].
  exact (delete_removes_exactly_the_id (fst Sample.opened) (snd Sample.opened) "zzz").
Defined.

(* ================================================================== *)
(** ** Saving an edit, in general *)

Lemma ids_contents (s : State) : ids s = map Note.id (contents (notes s)).
Proof. unfold ids, contents. rewrite map_map. reflexivity. Qed.

Lemma rewriteAll_ids (e tt tb now : string) (ns : list Note.t) :
  map Note.id (rewriteAll e tt tb now ns) = map Note.id ns.
Proof.
  unfold rewriteAll. rewrite map_map. apply map_ext. intros m.
  destruct (Note.id m =? e); reflexivity.
Qed.

(** X12.  A save from the editing session on an id that is not empty, with
    a draft left after trimming, rewrites the collection in place: the ids
    are the same in the same order, so no note is added, removed or moved;
    a note with another id is the same at the same position; every note
    with the id, also when several have it, gets the trimmed title (or
    [Untitled]), the trimmed body and the reading of the clock. *)
Theorem update_rewrites_in_place :
  forall (s : State) (w : World) (i : string),
    mode s = Editing i ->
    i <> "" ->
    trim (title s) <> "" \/ trim (body s) <> "" ->
    let now := iso8601 (clock w (ticks w)) in
    let '(s', w') := step SaveCurrent (s, w) in
    ids s' = ids s
    /\ List.length (elems (notes s')) = List.length (elems (notes s))
    /\ (forall k m, nth_error (contents (notes s)) k = Some m ->
                    Note.id m <> i ->
                    nth_error (contents (notes s')) k = Some m)
    /\ (forall k m, nth_error (contents (notes s)) k = Some m ->
                    Note.id m = i ->
                    nth_error (contents (notes s')) k
                    = Some (Note.mk i (or_else (trim (title s)) "Untitled")
                                    (trim (body s)) now)).
Proof.
  intros s w i Hmode Hi Hdraft.
  pose proof (update_step s w i Hmode Hi Hdraft) as H. cbv zeta in H.
  cbv zeta. destruct (step SaveCurrent (s, w)) as [s' w'].
  destruct H as (_ & _ & Hc & _ & _).
  assert (Hids : ids s' = ids s).
  { rewrite !ids_contents, Hc. apply rewriteAll_ids. }
  split; [exact Hids|]. split; [|split].
  - apply (f_equal (@List.length string)) in Hids.
    unfold ids in Hids. rewrite !length_map in Hids. exact Hids.
  - intros k m Hk Hid. rewrite Hc. unfold rewriteAll.
    rewrite nth_error_map, Hk. cbn [option_map].
    apply String.eqb_neq in Hid. rewrite Hid. reflexivity.
  - intros k m Hk Hid. rewrite Hc. unfold rewriteAll.
    rewrite nth_error_map, Hk. cbn [option_map].
    rewrite Hid, String.eqb_refl. unfold rewritten. rewrite Hid. reflexivity.
Qed.

Lemma update_rewrites_in_place_witness :
  let sw := run [StartEdit "b"; SetTitle "  "; SetBody " Laundry, dishes "]
                Sample.opened in
  let now := iso8601 (clock (snd sw) (ticks (snd sw))) in
  mode (fst sw) = Editing "b"
  /\ "b" <> ""
  /\ (trim (title (fst sw)) <> "" \/ trim (body (fst sw)) <> "")
  /\ contents (notes (fst (step SaveCurrent (fst sw, snd sw))))
     = [Sample.groceries;
        Note.mk "b" "Untitled" "Laundry, dishes" "2026-01-14T04:19:00.000Z"]
  /\ let '(s', w') := step SaveCurrent (fst sw, snd sw) in
     ids s' = ids (fst sw)
     /\ List.length (elems (notes s')) = List.length (elems (notes (fst sw)))
     /\ (forall k m, nth_error (contents (notes (fst sw))) k = Some m ->
                     Note.id m <> "b" ->
                     nth_error (contents (notes s')) k = Some m)
     /\ (forall k m, nth_error (contents (notes (fst sw))) k = Some m ->
                     Note.id m = "b" ->
                     nth_error (contents (notes s')) k
                     = Some (Note.mk "b" (or_else (trim (title (fst sw))) "Untitled")
                                     (trim (body (fst sw))) now)).
Proof.
  cbv zeta.
  assert (Hne : "b" <> "") by discriminate.
  assert (Hdraft :
            trim (title (fst (run [StartEdit "b"; SetTitle "  ";
                                   SetBody " Laundry, dishes "] Sample.opened))) <> ""
            \/ trim (body (fst (run [StartEdit "b"; SetTitle "  ";
                                     SetBody " Laundry, dishes "] Sample.opened))) <> "")
    by (right; vm_compute; discriminate).
  split; [reflexivity|]. split; [exact Hne|]. split; [exact Hdraft|].
  split; [reflexivity|].
  exact (update_rewrites_in_place
           (fst (run [StartEdit "b"; SetTitle "  "; SetBody " Laundry, dishes "]
                     Sample.opened))
           (snd (run [StartEdit "b"; SetTitle "  "; SetBody " Laundry, dishes "]
                     Sample.opened))
           "b" eq_refl Hne Hdraft).
Defined.

(* ================================================================== *)
(** ** Saving with a draft: the editor closes *)

(** The create branch of [saveCurrent], followed by the effects. *)
Lemma create_step (s : State) (w : World) :
  editingId s = Some "NEW" ->
  trim (title s) <> "" \/ trim (body s) <> "" ->
  let newNote :=
    mkObj (next_ref w)
          (Note.mk (fst (generateId (snd (nowISOString w))))
                   (or_else (trim (title s)) "Untitled")
                   (trim (body s))
                   (iso8601 (clock w (ticks w)))) in
  let s1 := mkState (mkArr (S (next_ref w)) (newNote :: elems (notes s)))
                    (search s) None "" "" in
  fst (step SaveCurrent (s, w)) = s1
  /\ ticks (snd (step SaveCurrent (s, w))) = S (S (ticks w))
  /\ clock (snd (step SaveCurrent (s, w))) = clock w
  /\ (arr_ref (notes s) < next_ref w ->
      save_calls (snd (step SaveCurrent (s, w)))
      = contents (notes s1) :: save_calls w).
Proof.
  intros He Hdraft.
  assert (Hnew : editingId_is s "NEW" = true)
    by (unfold editingId_is; rewrite He; reflexivity).
  cbv zeta. unfold step, handle, saveCurrent.
  rewrite (guard_passed s Hdraft), Hnew.
  cbn [nowISOString readClock generateId Date_now Math_random_hex alloc
       fst snd next_ref clock ticks random draws].
  rewrite commit_closed by (apply editingNote_idle; reflexivity).
  cbn [fst snd]. split; [reflexivity|].
  unfold after_effects. cbn [notes arr_ref].
  destruct (arr_ref (notes s) =? S (next_ref w))%nat eqn:E.
  - repeat split. intros Hwf. apply Nat.eqb_eq in E. lia.
  - repeat split.
Qed.

(** X13.  Whenever the form can be submitted with effect (a draft is left
    after trimming, and the target of the editor is not the empty id), a
    save ends the session: the marker is [null] and both drafts are empty
    afterwards, the search text is kept, and the resulting collection is
    handed to [saveNotesToStorage] (the old array being one that was
    allocated, as in every state of a run). *)
Theorem save_with_a_draft_closes_the_editor :
  forall (s : State) (w : World) (e : string),
    editingId s = Some e ->
    e <> "" ->
    trim (title s) <> "" \/ trim (body s) <> "" ->
    let '(s', w') := step SaveCurrent (s, w) in
    session s' = (None, "", "")
    /\ search s' = search s
    /\ (arr_ref (notes s) < next_ref w ->
        save_calls w' = contents (notes s') :: save_calls w).
Proof.
  intros s w e He Hne Hdraft.
  destruct (String.eqb_spec e "NEW") as [Hnew|Hnew].
  - subst e. pose proof (create_step s w He Hdraft) as H. cbv zeta in H.
    destruct (step SaveCurrent (s, w)) as [s' w']. cbn [fst snd] in H.
    destruct H as (Hs & _ & _ & Hc). subst s'. split; [reflexivity|].
    split; [reflexivity|]. exact Hc.
  - assert (Hmode : mode s = Editing e) by (apply mode_editing; split; assumption).
    pose proof (update_step s w e Hmode Hne Hdraft) as H. cbv zeta in H.
    destruct (step SaveCurrent (s, w)) as [s' w'].
    destruct H as (Hsess & Hsearch & _ & _ & Hsave).
    split; [exact Hsess|]. split; [exact Hsearch|].
    intros Hwf. exact (proj1 (Hsave Hwf)).
Qed.

Lemma save_with_a_draft_closes_the_editor_witness :
  let sw := run [SetSearch "milk"; StartNew; SetBody "Oat milk"] Sample.opened in
  editingId (fst sw) = Some "NEW"
  /\ "NEW" <> ""
  /\ (trim (title (fst sw)) <> "" \/ trim (body (fst sw)) <> "")
  /\ arr_ref (notes (fst sw)) < next_ref (snd sw)
  /\ let '(s', w') := step SaveCurrent (fst sw, snd sw) in
     session s' = (None, "", "")
     /\ search s' = search (fst sw)
     /\ (arr_ref (notes (fst sw)) < next_ref (snd sw) ->
         save_calls w' = contents (notes s') :: save_calls (snd sw)).
Proof.
  cbv zeta.
  assert (Hne : "NEW" <> "") by discriminate.
  assert (Hdraft :
            trim (title (fst (run [SetSearch "milk"; StartNew; SetBody "Oat milk"]
                                  Sample.opened))) <> ""
            \/ trim (body (fst (run [SetSearch "milk"; StartNew; SetBody "Oat milk"]
                                    Sample.opened))) <> "")
    by (right; vm_compute; discriminate).
  split; [reflexivity|]. split; [exact Hne|]. split; [exact Hdraft|].
  split; [vm_compute; lia|].
  exact (save_with_a_draft_closes_the_editor
           (fst (run [SetSearch "milk"; StartNew; SetBody "Oat milk"] Sample.opened))
           (snd (run [SetSearch "milk"; StartNew; SetBody "Oat milk"] Sample.opened))
           "NEW" eq_refl Hne Hdraft).
Defined.

(* ================================================================== *)
(** ** Creating a note, opening it and saving it again *)

Lemma written_title_fixed (x : string) :
  trim (or_else (trim x) "Untitled") = or_else (trim x) "Untitled"
  /\ or_else (or_else (trim x) "Untitled") "Untitled"
     = or_else (trim x) "Untitled".
Proof.
  unfold or_else. destruct (truthy (trim x)) eqn:E.
  - rewrite trim_idempotent, E. split; reflexivity.
  - split; reflexivity.
Qed.

(** X14.  A note that was just created can be opened and saved again
    without typing, and keeps its text: [startEdit] on its id puts its
    title and body into the drafts, and the save rewrites the note with the
    same id, title and body; only [updatedAt] moves on to the next reading
    of the clock.  The notes stay the same in number and order, and the
    editor is closed. *)
Theorem resaving_a_created_note_keeps_its_text :
  forall (s : State) (w : World),
    mode s = Creating ->
    trim (title s) <> "" \/ trim (body s) <> "" ->
    let i := fst (generateId (snd (nowISOString w))) in
    let t := or_else (trim (title s)) "Untitled" in
    let b := trim (body s) in
    let sw1 := step SaveCurrent (s, w) in
    let sw2 := step (StartEdit i) sw1 in
    let sw3 := step SaveCurrent sw2 in
    hd_error (contents (notes (fst sw1)))
    = Some (Note.mk i t b (iso8601 (clock w (ticks w))))
    /\ session (fst sw2) = (Some i, t, b)
    /\ hd_error (contents (notes (fst sw3)))
       = Some (Note.mk i t b (iso8601 (clock w (S (S (ticks w))))))
    /\ ids (fst sw3) = ids (fst sw1)
    /\ mode (fst sw3) = Idle.
Proof.
  intros s w Hmode Hdraft.
  assert (He : editingId s = Some "NEW").
  { unfold mode in Hmode. destruct (editingId s) as [e|]; [|discriminate].
    destruct (e =? "NEW") eqn:E; [|discriminate].
    apply String.eqb_eq in E. subst e. reflexivity. }
  pose proof (create_step s w He Hdraft) as H1. cbv zeta in H1. cbv zeta.
  destruct (step SaveCurrent (s, w)) as [s1 w1]. cbn [fst snd] in H1.
  destruct H1 as (Hs1 & Hticks & Hclock & _).
  destruct (generateId_not_marker (snd (nowISOString w))) as [Htruthy Hnot].
  set (i := fst (generateId (snd (nowISOString w)))) in *.
  set (t := or_else (trim (title s)) "Untitled") in *.
  set (b := trim (body s)) in *.
  (* the created note is at the front *)
  split; [subst s1; reflexivity|].
  (* opening it *)
  assert (H2 : step (StartEdit i) (s1, w1)
               = (mkState (notes s1) (search s1) (Some i) t b, w1)).
  { assert (Hold : editingNote s1 = None)
      by (apply editingNote_idle; subst s1; reflexivity).
    assert (Hnew : editingNote (startEdit i s1)
                   = Some (mkObj (next_ref w)
                                 (Note.mk i t b (iso8601 (clock w (ticks w)))))).
    { subst s1. unfold editingNote, editingId_is.
      cbn [startEdit notes elems editingId find val Note.id].
      rewrite String.eqb_refl. reflexivity. }
    unfold step, handle, commit. rewrite Hold, Hnew.
    cbn [sameObject startEdit notes arr_ref search editingId val
         Note.title Note.body].
    rewrite Nat.eqb_refl. reflexivity. }
  rewrite H2. split; [reflexivity|].
  (* saving it again *)
  set (s2 := mkState (notes s1) (search s1) (Some i) t b) in *.
  assert (Hmode2 : mode s2 = Editing i)
    by (apply mode_editing; split; [reflexivity | exact Hnot]).
  assert (Hi : i <> "") by (apply truthy_true; exact Htruthy).
  destruct (written_title_fixed (title s)) as [Ht1 Ht2]. fold t in Ht1, Ht2.
  assert (Hdraft2 : trim (title s2) <> "" \/ trim (body s2) <> "").
  { left. cbn [s2 title]. apply truthy_true. apply written_title_filled. }
  pose proof (update_step s2 w1 i Hmode2 Hi Hdraft2) as H3. cbv zeta in H3.
  destruct (step SaveCurrent (s2, w1)) as [s3 w3]. cbn [fst].
  destruct H3 as (Hsess & _ & Hc & _ & _).
  assert (Hc' : contents (notes s3)
                = rewriteAll i t b (iso8601 (clock w (S (S (ticks w)))))
                             (contents (notes s1))).
  { rewrite Hc. cbn [s2 title body notes]. rewrite Ht1.
    unfold b at 1. rewrite trim_idempotent. fold b.
    rewrite Hclock, Hticks. reflexivity. }
  split; [|split].
  - rewrite Hc'. subst s1. unfold contents, rewriteAll.
    cbn [notes elems map val Note.id hd_error]. rewrite String.eqb_refl.
    unfold rewritten. cbn [Note.id]. rewrite Ht2. reflexivity.
  - rewrite !ids_contents, Hc'. apply rewriteAll_ids.
  - apply mode_idle. unfold session in Hsess. congruence.
Qed.

Lemma resaving_a_created_note_keeps_its_text_witness :
  let s := setBody " eggs " (setTitle " Shopping" (startNew (fst Sample.opened))) in
  let w := snd Sample.opened in
  let i := fst (generateId (snd (nowISOString w))) in
  let t := or_else (trim (title s)) "Untitled" in
  let b := trim (body s) in
  let sw1 := step SaveCurrent (s, w) in
  let sw2 := step (StartEdit i) sw1 in
  let sw3 := step SaveCurrent sw2 in
  mode s = Creating
  /\ (trim (title s) <> "" \/ trim (body s) <> "")
  /\ (i, t, b) = ("1768364340001_8c3fa1d2", "Shopping", "eggs")
  /\ hd_error (contents (notes (fst sw1)))
     = Some (Note.mk i t b (iso8601 (clock w (ticks w))))
  /\ session (fst sw2) = (Some i, t, b)
  /\ hd_error (contents (notes (fst sw3)))
     = Some (Note.mk i t b (iso8601 (clock w (S (S (ticks w))))))
  /\ ids (fst sw3) = ids (fst sw1)
  /\ mode (fst sw3) = Idle.
Proof.
  cbv zeta.
  assert (Hdraft :
            trim (title (setBody " eggs " (setTitle " Shopping"
                           (startNew (fst Sample.opened))))) <> ""
            \/ trim (body (setBody " eggs " (setTitle " Shopping"
                            (startNew (fst Sample.opened))))) <> "")
    by (left; vm_compute; discriminate).
  split; [reflexivity|]. split; [exact Hdraft|]. split; [reflexivity|].
  exact (resaving_a_created_note_keeps_its_text
           (setBody " eggs " (setTitle " Shopping" (startNew (fst Sample.opened))))
           (snd Sample.opened) eq_refl Hdraft).
Defined.

(* ================================================================== *)
(** ** The drafts of a closed editor *)

Lemma saveCurrent_session (s : State) (w : World) :
  session (fst (saveCurrent s w)) = (None, "", "")
  \/ fst (saveCurrent s w) = s.
Proof.
  unfold saveCurrent.
  destruct (negb (truthy (trim (title s))) && negb (truthy (trim (body s))));
    [right; reflexivity|].
  destruct (nowISOString w) as [now w1].
  destruct (editingId_is s "NEW").
  - destruct (generateId w1) as [newId w2].
    destruct (alloc w2) as [r w3]. destruct (alloc w3) as [ra w4].
    left. reflexivity.
  - destruct (editingId s) as [e|]; [|right; reflexivity].
    destruct (truthy e); [|right; reflexivity].
    destruct (mapUpdate e (trim (title s)) (trim (body s)) now (elems (notes s)) w1)
      as [ns w2].
    destruct (alloc w2) as [ra w3]. left. reflexivity.
Qed.

Lemma step_keeps_idle_drafts_empty (e : event) (s : State) (w : World) :
  offered s e = true ->
  idle_drafts_empty s ->
  idle_drafts_empty (fst (step e (s, w))).
Proof.
  intros Hoff Hinv. unfold step.
  destruct (handle e s w) as [s1 w1] eqn:Hh.
  assert (H1 : idle_drafts_empty s1).
  { destruct e; cbn [handle] in Hh.
    - injection Hh as <- <-. intros H. discriminate.
    - injection Hh as <- <-. intros H. discriminate.
    - injection Hh as <- <-. intros _. split; reflexivity.
    - unfold deleteNote in Hh. cbn [alloc] in Hh.
      destruct (editingId_is s i); injection Hh as <- <-.
      + intros _. split; reflexivity.
      + exact Hinv.
    - assert (Hs : s1 = fst (saveCurrent s w)) by (rewrite Hh; reflexivity).
      destruct (saveCurrent_session s w) as [Hc|Hc]; rewrite <- Hs in Hc.
      + intros _. unfold session in Hc. injection Hc as _ Ht Hb.
        split; assumption.
      + subst s1. rewrite Hc. exact Hinv.
    - injection Hh as <- <-. cbn [offered] in Hoff. unfold isEditing in Hoff.
      intros H. cbn [setTitle editingId] in H. rewrite H in Hoff. discriminate.
    - injection Hh as <- <-. cbn [offered] in Hoff. unfold isEditing in Hoff.
      intros H. cbn [setBody editingId] in H. rewrite H in Hoff. discriminate.
    - injection Hh as <- <-. exact Hinv. }
  intros Hidle. destruct (commit_frame s s1 w1) as [_ [Fe _]].
  rewrite Fe in Hidle.
  rewrite commit_no_target by (apply editingNote_idle; exact Hidle).
  apply H1. exact Hidle.
Qed.

(** X15.  In every state that the page reaches through the events it
    offers, a closed editor has empty drafts: whenever [editingId] is
    [null], the title and the body drafts are the empty string. *)
Theorem closed_editor_has_empty_drafts :
  forall (w0 : World) (s : State) (w : World),
    reachable w0 (s, w) ->
    editingId s = None ->
    title s = "" /\ body s = "".
Proof.
  intros w0 s w [es Hrun].
  assert (Hgen : forall sw es' sw',
             ui_run sw es' sw' ->
             idle_drafts_empty (fst sw) -> idle_drafts_empty (fst sw')).
  { induction 1 as [sw1 | s1 w1 e es1 sw1' Hoff Hr IH]; intros Hinv.
    - exact Hinv.
    - apply IH. apply (step_keeps_idle_drafts_empty e s1 w1 Hoff Hinv). }
  apply (Hgen _ _ _ Hrun).
  unfold mount. destruct (loadNotesFromStorage w0) as [ns w1].
  intros _. split; reflexivity.
Qed.

Lemma closed_editor_has_empty_drafts_witness :
  let w0 := Sample.world (Sample.stored [Sample.groceries; Sample.chores]) true in
  let es := [StartEdit "a"; SetTitle "Groceries, unsaved"; DeleteNote "a"] in
  reachable w0 (fst (run es (mount w0)), snd (run es (mount w0)))
  /\ editingId (fst (run es (mount w0))) = None
  /\ title (fst (run es (mount w0))) = ""
  /\ body (fst (run es (mount w0))) = "".
Proof.
  cbv zeta.
  assert (Hreach :
            reachable
              (Sample.world (Sample.stored [Sample.groceries; Sample.chores]) true)
              (fst (run [StartEdit "a"; SetTitle "Groceries, unsaved"; DeleteNote "a"]
                        (mount (Sample.world
                                  (Sample.stored [Sample.groceries; Sample.chores])
                                  true))),
               snd (run [StartEdit "a"; SetTitle "Groceries, unsaved"; DeleteNote "a"]
                        (mount (Sample.world
                                  (Sample.stored [Sample.groceries; Sample.chores])
                                  true))))).
  { exists [StartEdit "a"; SetTitle "Groceries, unsaved"; DeleteNote "a"].
    rewrite <- surjective_pairing. apply ui_run_of_run.
    vm_compute. reflexivity. }
  split; [exact Hreach|]. split; [reflexivity|].
  exact (closed_editor_has_empty_drafts _ _ _ Hreach eq_refl).
Defined.

(* ================================================================== *)
(** ** More on the search *)

(** Only the line feed is the line feed when case is ignored. *)
Lemma same_as_newline (c : N) :
  Utf16.same_ignoring_case c 10 = true -> c = 10%N.
Proof.
  unfold Utf16.same_ignoring_case.
  change (Utf16.lowerUnit 10) with [10%N].
  unfold Utf16.lowerUnit.
  destruct ((65 <=? c) && (c <=? 90))%N eqn:E1.
  { cbn [Utf16.sameUnits]. rewrite andb_true_r. intros H.
    apply N.eqb_eq in H. apply andb_true_iff in E1. destruct E1 as [E1 _].
    apply N.leb_le in E1. lia. }
  destruct ((192 <=? c) && (c <=? 222) && negb (c =? 215))%N eqn:E2.
  { cbn [Utf16.sameUnits]. rewrite andb_true_r. intros H.
    apply N.eqb_eq in H. lia. }
  destruct (c =? 304)%N eqn:E3.
  { cbn [Utf16.sameUnits]. intros H. apply andb_true_iff in H.
    destruct H as [_ H]. discriminate H. }
  destruct (c =? 376)%N eqn:E4.
  { intros H. discriminate H. }
  destruct ((((256 <=? c) && (c <=? 311)) || ((330 <=? c) && (c <=? 375)))
            && N.even c)%N eqn:E5.
  { cbn [Utf16.sameUnits]. rewrite andb_true_r. intros H.
    apply N.eqb_eq in H. apply andb_true_iff in E5. destruct E5 as [E5 _].
    apply orb_true_iff in E5.
    destruct E5 as [E5|E5]; apply andb_true_iff in E5; destruct E5 as [E5 _];
      apply N.leb_le in E5; lia. }
  destruct ((((313 <=? c) && (c <=? 328)) || ((377 <=? c) && (c <=? 382)))
            && N.odd c)%N eqn:E6.
  { cbn [Utf16.sameUnits]. rewrite andb_true_r. intros H.
    apply N.eqb_eq in H. apply andb_true_iff in E6. destruct E6 as [E6 _].
    apply orb_true_iff in E6.
    destruct E6 as [E6|E6]; apply andb_true_iff in E6; destruct E6 as [E6 _];
      apply N.leb_le in E6; lia. }
  cbn [Utf16.sameUnits]. rewrite andb_true_r. intros H.
  apply N.eqb_eq in H. exact H.
Qed.

Lemma starts_before_newline (q t b : Utf16.ustring) :
  Utf16.hasNewline q = false ->
  Utf16.starts_ignoring_case q (t ++ Utf16.newline ++ b)
  = Utf16.starts_ignoring_case q t.
Proof.
  revert t. induction q as [|c q IH]; intros t Hq; [reflexivity|].
  unfold Utf16.hasNewline in Hq. cbn [existsb] in Hq.
  apply orb_false_iff in Hq. destruct Hq as [Hc Hq].
  destruct t as [|d t].
  - cbn [app Utf16.newline Utf16.starts_ignoring_case].
    destruct (Utf16.same_ignoring_case c 10) eqn:E; [|reflexivity].
    apply same_as_newline in E. subst c. discriminate Hc.
  - cbn [app Utf16.starts_ignoring_case].
    rewrite <- (IH t Hq). reflexivity.
Qed.

Lemma occurs_across_newline (q t b : Utf16.ustring) :
  Utf16.hasNewline q = false ->
  Utf16.occurs_ignoring_case q (t ++ Utf16.newline ++ b)
  = Utf16.occurs_ignoring_case q t || Utf16.occurs_ignoring_case q b.
Proof.
  intros Hq. induction t as [|d t IH].
  - change (Utf16.occurs_ignoring_case q ([] ++ Utf16.newline ++ b))
      with (Utf16.starts_ignoring_case q ([] ++ Utf16.newline ++ b)
            || Utf16.occurs_ignoring_case q b).
    rewrite (starts_before_newline q [] b Hq).
    cbn [Utf16.occurs_ignoring_case]. rewrite orb_false_r. reflexivity.
  - change (Utf16.occurs_ignoring_case q ((d :: t) ++ Utf16.newline ++ b))
      with (Utf16.starts_ignoring_case q ((d :: t) ++ Utf16.newline ++ b)
            || Utf16.occurs_ignoring_case q (t ++ Utf16.newline ++ b)).
    rewrite (starts_before_newline q (d :: t) b Hq), IH.
    cbn [Utf16.occurs_ignoring_case]. rewrite orb_assoc. reflexivity.
Qed.

(** X16.  For notes and a query without U+0130 (and of the range
    [Utf16.modelled], which holds every code unit up to U+00FF), when the
    query holds no line feed (a single-line input never does) and is not
    empty after trimming, a note is listed exactly when the trimmed query
    occurs, case ignored, in its title or in its body: the line feed that
    joins the two keeps a match from starting in the title and ending in
    the body. *)
Theorem search_matches_title_or_body :
  forall (ns : list Utf16.note) (query : Utf16.ustring),
    forallb Utf16.plainNote ns = true ->
    Utf16.plainText query = true ->
    Utf16.hasNewline (Utf16.trim query) = false ->
    Utf16.trim query <> [] ->
    Utf16.filteredNotes ns query
    = filter (fun n =>
                Utf16.occurs_ignoring_case (Utf16.trim query) (Utf16.title n)
                || Utf16.occurs_ignoring_case (Utf16.trim query) (Utf16.body n))
             ns.
Proof.
  intros ns query Hns Hq Hnl Hne.
  rewrite (filteredNotes_refines_spec ns query Hns Hq).
  unfold Utf16.spec_filter.
  destruct (Utf16.trim query) as [|u r] eqn:E; [contradiction|].
  cbn [Utf16.truthy]. apply filter_ext. intros n.
  apply occurs_across_newline. exact Hnl.
Qed.

Lemma search_matches_title_or_body_witness :
  let ns := [Utf16.mkNote (Utf16.ofString "a") (Utf16.ofString "Oat")
                          (Utf16.ofString "Milk") (Utf16.ofString "t0");
             Utf16.mkNote (Utf16.ofString "b") (Utf16.ofString "Goat")
                          (Utf16.ofString "Cheese") (Utf16.ofString "t1")] in
  forallb Utf16.plainNote ns = true
  /\ Utf16.plainText (Utf16.ofString " oat ") = true
  /\ Utf16.hasNewline (Utf16.trim (Utf16.ofString " oat ")) = false
  /\ Utf16.trim (Utf16.ofString " oat ") <> []
  /\ Utf16.filteredNotes ns (Utf16.ofString " oat ") = ns
  /\ Utf16.filteredNotes ns (Utf16.ofString "tm") = []
  /\ Utf16.filteredNotes ns (Utf16.ofString " oat ")
     = filter (fun n =>
                 Utf16.occurs_ignoring_case
                   (Utf16.trim (Utf16.ofString " oat ")) (Utf16.title n)
                 || Utf16.occurs_ignoring_case
                      (Utf16.trim (Utf16.ofString " oat ")) (Utf16.body n))
              ns.
Proof.
  cbv zeta.
  assert (Hne : Utf16.trim (Utf16.ofString " oat ") <> [])
    by (vm_compute; discriminate).
  split; [reflexivity|]. split; [reflexivity|]. split; [reflexivity|].
  split; [exact Hne|]. split; [reflexivity|]. split; [reflexivity|].
  exact (search_matches_title_or_body
           [Utf16.mkNote (Utf16.ofString "a") (Utf16.ofString "Oat")
                         (Utf16.ofString "Milk") (Utf16.ofString "t0");
            Utf16.mkNote (Utf16.ofString "b") (Utf16.ofString "Goat")
                         (Utf16.ofString "Cheese") (Utf16.ofString "t1")]
           (Utf16.ofString " oat ") eq_refl eq_refl eq_refl Hne).
Defined.

Lemma eq_ignoring_case_trans (a b c : Utf16.ustring) :
  Utf16.eq_ignoring_case a b -> Utf16.eq_ignoring_case b c ->
  Utf16.eq_ignoring_case a c.
Proof.
  intros Hab. revert c. induction Hab as [|x y a b Hxy Hab IH]; intros c Hbc.
  - exact Hbc.
  - inversion Hbc as [|? z ? c' Hyz Hbc']; subst.
    constructor; [congruence | apply IH; exact Hbc'].
Qed.

(** A text equal to [u ++ v] up to case splits into a part equal to [u]
    and a part equal to [v]. *)
Lemma eq_ignoring_case_split (x u v : Utf16.ustring) :
  Utf16.eq_ignoring_case x (u ++ v) ->
  exists x1 x2,
    x = x1 ++ x2 /\ Utf16.eq_ignoring_case x1 u
    /\ Utf16.eq_ignoring_case x2 v.
Proof.
  revert x. induction u as [|c u IH]; intros x H.
  - exists [], x. split; [reflexivity|]. split; [constructor | exact H].
  - cbn [app] in H. inversion H as [|d ? x' ? Hdc Hrest]; subst.
    destruct (IH x' Hrest) as (x1 & x2 & Hx & H1 & H2).
    exists (d :: x1), x2. split; [cbn [app]; congruence|].
    split; [constructor; assumption | exact H2].
Qed.

Lemma occurs_ignoring_case_trans (q q' h : Utf16.ustring) :
  Utf16.occurs_ignoring_case q q' = true ->
  Utf16.occurs_ignoring_case q' h = true ->
  Utf16.occurs_ignoring_case q h = true.
Proof.
  intros Hqq' Hq'h.
  apply occurs_ignoring_case_spec in Hqq'.
  destruct Hqq' as (p1 & m1 & s1 & Hq' & Hm1).
  apply occurs_ignoring_case_spec in Hq'h.
  destruct Hq'h as (p2 & m2 & s2 & Hh & Hm2).
  subst q'. apply eq_ignoring_case_split in Hm2.
  destruct Hm2 as (a & rest & Ha & _ & Hrest).
  apply eq_ignoring_case_split in Hrest.
  destruct Hrest as (m & c & Hr & Hm & _).
  apply occurs_ignoring_case_spec.
  exists (p2 ++ a), m, (c ++ s2). split.
  - subst h m2 rest. rewrite <- !app_assoc. reflexivity.
  - apply (eq_ignoring_case_trans _ _ _ Hm Hm1).
Qed.

Lemma filter_filter_implied {A : Type} (p p' : A -> bool) (l : list A) :
  (forall x, p' x = true -> p x = true) ->
  filter p' (filter p l) = filter p' l.
Proof.
  intros Himp. induction l as [|x rest IH]; cbn [filter]; [reflexivity|].
  destruct (p x) eqn:Hp; cbn [filter].
  - rewrite IH. reflexivity.
  - destruct (p' x) eqn:Hp'; [|exact IH].
    rewrite (Himp x Hp') in Hp. discriminate.
Qed.

Lemma forallb_filter {A : Type} (P f : A -> bool) (l : list A) :
  forallb P l = true -> forallb P (filter f l) = true.
Proof.
  rewrite !forallb_forall. intros H x Hx. apply filter_In in Hx.
  apply H. tauto.
Qed.

(** X17.  For notes and queries without U+0130 (and of the range
    [Utf16.modelled]), refining a query only narrows the list: when the
    trimmed old query occurs, case ignored, in the trimmed new one,
    searching with the new query gives what searching the old result with
    it gives, so every note listed for the new query was listed for the old
    one. *)
Theorem refining_the_query_narrows_the_list :
  forall (ns : list Utf16.note) (q q' : Utf16.ustring),
    forallb Utf16.plainNote ns = true ->
    Utf16.plainText q = true ->
    Utf16.plainText q' = true ->
    Utf16.occurs_ignoring_case (Utf16.trim q) (Utf16.trim q') = true ->
    Utf16.filteredNotes (Utf16.filteredNotes ns q) q'
    = Utf16.filteredNotes ns q'
    /\ incl (Utf16.filteredNotes ns q') (Utf16.filteredNotes ns q).
Proof.
  intros ns q q' Hns Hq Hq' Hocc.
  assert (Heq : Utf16.filteredNotes (Utf16.filteredNotes ns q) q'
                = Utf16.filteredNotes ns q').
  { rewrite (filteredNotes_refines_spec ns q Hns Hq).
    unfold Utf16.spec_filter at 1.
    destruct (Utf16.truthy (Utf16.trim q)) eqn:Eq; [|reflexivity].
    rewrite (filteredNotes_refines_spec _ q' (forallb_filter _ _ _ Hns) Hq').
    rewrite (filteredNotes_refines_spec ns q' Hns Hq').
    unfold Utf16.spec_filter.
    destruct (Utf16.truthy (Utf16.trim q')) eqn:Eq'.
    - apply filter_filter_implied. intros n Hn.
      apply (occurs_ignoring_case_trans _ _ _ Hocc Hn).
    - destruct (Utf16.trim q') as [|x r]; [|discriminate Eq'].
      cbn [Utf16.occurs_ignoring_case] in Hocc.
      rewrite orb_false_r in Hocc.
      destruct (Utf16.trim q); [discriminate Eq | discriminate Hocc]. }
  split; [exact Heq|].
  intros n Hn. rewrite <- Heq in Hn.
  rewrite filteredNotes_unfolded in Hn.
  destruct (Utf16.truthy (Utf16.trim q')); [|exact Hn].
  apply filter_In in Hn. tauto.
Qed.

Lemma refining_the_query_narrows_the_list_witness :
  let ns := [Utf16.mkNote (Utf16.ofString "a") (Utf16.ofString "Oat")
                          (Utf16.ofString "Milk") (Utf16.ofString "t0");
             Utf16.mkNote (Utf16.ofString "b") (Utf16.ofString "Goat")
                          (Utf16.ofString "Cheese") (Utf16.ofString "t1")] in
  forallb Utf16.plainNote ns = true
  /\ Utf16.plainText (Utf16.ofString "OA") = true
  /\ Utf16.plainText (Utf16.ofString " goat") = true
  /\ Utf16.occurs_ignoring_case (Utf16.trim (Utf16.ofString "OA"))
                                (Utf16.trim (Utf16.ofString " goat")) = true
  /\ Utf16.filteredNotes ns (Utf16.ofString "OA") = ns
  /\ Utf16.filteredNotes ns (Utf16.ofString " goat")
     = [Utf16.mkNote (Utf16.ofString "b") (Utf16.ofString "Goat")
                     (Utf16.ofString "Cheese") (Utf16.ofString "t1")]
  /\ Utf16.filteredNotes (Utf16.filteredNotes ns (Utf16.ofString "OA"))
                         (Utf16.ofString " goat")
     = Utf16.filteredNotes ns (Utf16.ofString " goat")
  /\ incl (Utf16.filteredNotes ns (Utf16.ofString " goat"))
          (Utf16.filteredNotes ns (Utf16.ofString "OA")).
Proof.
  cbv zeta.
  split; [reflexivity|]. split; [reflexivity|]. split; [reflexivity|].
  split; [reflexivity|]. split; [reflexivity|]. split; [reflexivity|].
  exact (refining_the_query_narrows_the_list
           [Utf16.mkNote (Utf16.ofString "a") (Utf16.ofString "Oat")
                         (Utf16.ofString "Milk") (Utf16.ofString "t0");
            Utf16.mkNote (Utf16.ofString "b") (Utf16.ofString "Goat")
                         (Utf16.ofString "Cheese") (Utf16.ofString "t1")]
           (Utf16.ofString "OA") (Utf16.ofString " goat")
           eq_refl eq_refl eq_refl eq_refl).
Defined.


(* ================================================================== *)
(** ** A note whose id is the empty string *)

Lemma saveCurrent_empty_id (s : State) (w : World) :
  editingId s = Some "" ->
  exists w1, saveCurrent s w = (s, w1)
             /\ localStorage w1 = localStorage w
             /\ save_calls w1 = save_calls w.
Proof.
  intros He. unfold saveCurrent, editingId_is. rewrite He.
  destruct (negb (truthy (trim (title s))) && negb (truthy (trim (body s)))).
  - exists w. repeat split.
  - cbn [nowISOString readClock String.eqb truthy negb].
    eexists. repeat split.
Qed.

(** X18.  While the editor is open on the empty id (a stored note can have
    it; [generateId] never makes it), a save sets nothing, whatever the
    drafts hold: the state, the stored text and the record of saves are as
    before, and the editor stays open.  Such a note can be opened and
    deleted, but not changed. *)
Theorem note_with_empty_id_cannot_be_saved :
  forall (s : State) (w : World),
    editingId s = Some "" ->
    fst (step SaveCurrent (s, w)) = s
    /\ isEditing (fst (step SaveCurrent (s, w))) = true
    /\ localStorage (snd (step SaveCurrent (s, w))) = localStorage w
    /\ save_calls (snd (step SaveCurrent (s, w))) = save_calls w.
Proof.
  intros s w He.
  destruct (saveCurrent_empty_id s w He) as (w1 & Hs & Hst & Hc).
  unfold step, handle. rewrite Hs, commit_unchanged. cbn [fst snd].
  split; [reflexivity|]. split; [unfold isEditing; rewrite He; reflexivity|].
  split; assumption.
Qed.

Lemma note_with_empty_id_cannot_be_saved_witness :
  let w0 := Sample.world (Sample.stored [Sample.empty_id]) true in
  let sw := run [StartEdit ""; SetBody "Milk, eggs, bread"] (mount w0) in
  editingId (fst sw) = Some ""
  /\ body (fst sw) = "Milk, eggs, bread"
  /\ fst (step SaveCurrent (fst sw, snd sw)) = fst sw
  /\ isEditing (fst (step SaveCurrent (fst sw, snd sw))) = true
  /\ localStorage (snd (step SaveCurrent (fst sw, snd sw))) = localStorage (snd sw)
  /\ save_calls (snd (step SaveCurrent (fst sw, snd sw))) = save_calls (snd sw).
Proof.
  cbv zeta. split; [reflexivity|]. split; [reflexivity|].
  exact (note_with_empty_id_cannot_be_saved
           (fst (run [StartEdit ""; SetBody "Milk, eggs, bread"]
                     (mount (Sample.world (Sample.stored [Sample.empty_id]) true))))
           (snd (run [StartEdit ""; SetBody "Milk, eggs, bread"]
                     (mount (Sample.world (Sample.stored [Sample.empty_id]) true))))
           eq_refl).
Defined.

(* ================================================================== *)
(** ** Ids that no two notes share *)

(** The ids after a save: the same, or one more in front. *)
Lemma save_step_ids (s : State) (w : World) :
  ids (fst (step SaveCurrent (s, w))) = ids s
  \/ (mode s = Creating
      /\ ids (fst (step SaveCurrent (s, w)))
         = fst (generateId (snd (nowISOString w))) :: ids s).
Proof.
  destruct (negb (truthy (trim (title s))) && negb (truthy (trim (body s))))
    eqn:Hguard.
  - left. unfold step, handle, saveCurrent. rewrite Hguard, commit_unchanged.
    reflexivity.
  - assert (Hdraft : trim (title s) <> "" \/ trim (body s) <> "").
    { apply andb_false_iff in Hguard.
      destruct Hguard as [H|H]; apply negb_false_iff, truthy_true in H; tauto. }
    destruct (editingId s) as [e|] eqn:He.
    + destruct (String.eqb_spec e "NEW") as [Hnew|Hnew].
      * subst e. right.
        pose proof (create_step s w He Hdraft) as H. cbv zeta in H.
        destruct H as (Hs & _). rewrite Hs. split; [|reflexivity].
        unfold mode. rewrite He. reflexivity.
      * destruct (String.eqb_spec e "") as [Hemp|Hemp].
        -- subst e. left.
           destruct (saveCurrent_empty_id s w He) as (w1 & Hs & _).
           unfold step, handle. rewrite Hs, commit_unchanged. reflexivity.
        -- left.
           assert (Hmode : mode s = Editing e)
             by (apply mode_editing; split; assumption).
           pose proof (update_step s w e Hmode Hemp Hdraft) as H. cbv zeta in H.
           destruct (step SaveCurrent (s, w)) as [s' w']. cbn [fst].
           destruct H as (_ & _ & Hc & _).
           rewrite !ids_contents, Hc. apply rewriteAll_ids.
    + left. unfold step, handle.
      destruct (saveCurrent_idle s w He) as [Hs _].
      rewrite (surjective_pairing (saveCurrent s w)), Hs.
      destruct (commit_frame s s (snd (saveCurrent s w))) as [Fn _].
      unfold ids. rewrite Fn. reflexivity.
Qed.

(** X19.  Every step keeps the ids of the notes pairwise distinct, except
    that a create adds the identifier it generates without looking whether
    a note has it: when the ids are distinct before a step, they are
    distinct after it, provided that, for a save in the creating mode, the
    generated identifier is not the id of a note. *)
Theorem steps_keep_ids_distinct :
  forall (e : event) (s : State) (w : World),
    NoDup (ids s) ->
    (e = SaveCurrent -> mode s = Creating ->
     ~ In (fst (generateId (snd (nowISOString w)))) (ids s)) ->
    NoDup (ids (fst (step e (s, w)))).
Proof.
  intros e s w Hnd Hfresh.
  destruct e.
  - destruct (quiet_step_notes StartNew s w eq_refl) as [Hn _].
    unfold ids. rewrite Hn. exact Hnd.
  - destruct (quiet_step_notes (StartEdit i) s w eq_refl) as [Hn _].
    unfold ids. rewrite Hn. exact Hnd.
  - destruct (quiet_step_notes CancelEdit s w eq_refl) as [Hn _].
    unfold ids. rewrite Hn. exact Hnd.
  - destruct (delete_step_notes s w i) as [Hn _].
    unfold ids in *. rewrite Hn. cbn [elems].
    apply filter_keeps_distinct. exact Hnd.
  - destruct (save_step_ids s w) as [H|[Hmode H]]; rewrite H; [exact Hnd|].
    constructor; [apply Hfresh; [reflexivity | exact Hmode] | exact Hnd].
  - destruct (quiet_step_notes (SetTitle v) s w eq_refl) as [Hn _].
    unfold ids. rewrite Hn. exact Hnd.
  - destruct (quiet_step_notes (SetBody v) s w eq_refl) as [Hn _].
    unfold ids. rewrite Hn. exact Hnd.
  - destruct (quiet_step_notes (SetSearch v) s w eq_refl) as [Hn _].
    unfold ids. rewrite Hn. exact Hnd.
Qed.

Lemma steps_keep_ids_distinct_witness :
  let s := setTitle "Shopping" (startNew (fst Sample.opened)) in
  let w := snd Sample.opened in
  NoDup (ids s)
  /\ mode s = Creating
  /\ ~ In (fst (generateId (snd (nowISOString w)))) (ids s)
  /\ ids (fst (step SaveCurrent (s, w))) = ["1768364340001_8c3fa1d2"; "a"; "b"]
  /\ NoDup (ids (fst (step SaveCurrent (s, w)))).
Proof.
  cbv zeta.
  assert (Hnd : NoDup (ids (setTitle "Shopping" (startNew (fst Sample.opened))))).
  { vm_compute. constructor; [intros [H|[]]; discriminate|].
    constructor; [intros []|]. constructor. }
  assert (Hfresh : ~ In (fst (generateId (snd (nowISOString (snd Sample.opened)))))
                       (ids (setTitle "Shopping" (startNew (fst Sample.opened))))).
  { vm_compute. intros [H|[H|[]]]; discriminate. }
  split; [exact Hnd|]. split; [reflexivity|]. split; [exact Hfresh|].
  split; [reflexivity|].
  exact (steps_keep_ids_distinct SaveCurrent
           (setTitle "Shopping" (startNew (fst Sample.opened)))
           (snd Sample.opened) Hnd (fun _ _ => Hfresh)).
Defined.
